(** * RS41 radiosonde decoder: a shallow embedding of [decode/rs41/decoder.cpp]

    The development follows the methods of [RS41Decoder]: [descramble],
    [rsCorrect], [crcCheck], the subframe loop of [run], [updateSondeData],
    [updateCalibData] and the PTU computations [temp], [rh_temp], [rh] and
    [pressure].

    Conventions.
    - A byte is a [Z] in [0, 256); a buffer is a [list Z].  Stores into a
      [uint8_t] truncate with [u8].
    - C indexes buffers with signed integers; [rd] and [wr] take a [Z] index.
      An access outside the buffer is undefined behaviour in C: the model
      reads [0] and drops the store there, and every theorem that depends on
      an access states the bounds it needs.
    - [rs41.h], [decoder.hpp] and [utils.h] are not part of the sources at
      hand.  The constants and the layout they declare are the fields of the
      class [Rs41Header]; the functions of other libraries are the fields of
      the class [Collaborators]. *)

From Stdlib Require Import ZArith Lia Bool.
From stdpp Require Import base numbers list.
From Stdlib Require Import Floats.SpecFloat.

Local Open Scope Z_scope.

(** ** Bytes and buffers *)

Definition u8 (x : Z) : Z := x mod 256.
Definition u16 (x : Z) : Z := x mod 65536.

Definition is_byte (b : Z) : Prop := 0 <= b < 256.

Definition rd (buf : list Z) (i : Z) : Z :=
  if i <? 0 then 0 else default 0 (buf !! Z.to_nat i).

Definition wr (buf : list Z) (i : Z) (v : Z) : list Z :=
  if i <? 0 then buf else <[Z.to_nat i := v]> buf.

(** ** Constants and layout of the missing headers *)

Class Rs41Header := {
  (* rs41.h: protocol constants *)
  RS41_DATA_LEN : Z;
  RS41_XDATA_LEN : Z;
  RS41_FLAG_EXTENDED : Z;
  RS41_REEDSOLOMON_INTERLEAVING : Z;
  RS41_REEDSOLOMON_N : Z;
  RS41_REEDSOLOMON_K : Z;
  RS41_REEDSOLOMON_T : Z;
  RS41_CALIB_FRAGSIZE : Z;
  RS41_CALIB_FRAGCOUNT : Z;
  RS41_SERIAL_LEN : Z;
  RS41_SFTYPE_INFO : Z;
  RS41_SFTYPE_PTU : Z;
  RS41_SFTYPE_GPSPOS : Z;
  RS41_SFTYPE_GPSINFO : Z;
  RS41_SFTYPE_XDATA : Z;
  RS41_SFTYPE_GPSRAW : Z;
  RS41_SFTYPE_EMPTY : Z;
  (* rs41.h: layout of RS41Frame, as byte offsets into the raw frame *)
  sizeof_RS41Frame : Z;
  offsetof_rs_checksum : Z;
  offsetof_extended_flag : Z;
  offsetof_data : Z;
  (* rs41.h, decoder.hpp: sizes of the calibration table and its bitmap *)
  sizeof_RS41Calibration : Z;
  sizeof_calibDataBitmap : Z
}.

(** The values of the RS41 protocol, used to run the model on concrete
    frames: a packed frame of 8 sync bytes, 48 parity bytes, the flag byte and
    263 + 198 payload bytes; 51 calibration fragments of 16 bytes, which is the
    816 bytes of [_defaultCalibData]. *)
Definition rs41 : Rs41Header := {|
  RS41_DATA_LEN := 263;
  RS41_XDATA_LEN := 198;
  RS41_FLAG_EXTENDED := 0xF0;
  RS41_REEDSOLOMON_INTERLEAVING := 2;
  RS41_REEDSOLOMON_N := 255;
  RS41_REEDSOLOMON_K := 231;
  RS41_REEDSOLOMON_T := 24;
  RS41_CALIB_FRAGSIZE := 16;
  RS41_CALIB_FRAGCOUNT := 51;
  RS41_SERIAL_LEN := 8;
  RS41_SFTYPE_INFO := 0x79;
  RS41_SFTYPE_PTU := 0x7A;
  RS41_SFTYPE_GPSPOS := 0x7B;
  RS41_SFTYPE_GPSINFO := 0x7C;
  RS41_SFTYPE_XDATA := 0x7E;
  RS41_SFTYPE_GPSRAW := 0x7D;
  RS41_SFTYPE_EMPTY := 0x76;
  sizeof_RS41Frame := 518;
  offsetof_rs_checksum := 8;
  offsetof_extended_flag := 56;
  offsetof_data := 57;
  sizeof_RS41Calibration := 816;
  sizeof_calibDataBitmap := 7
|}.

(** ** The pseudorandom sequence *)

Definition _prn : list Z :=
  [ 0x96; 0x83; 0x3e; 0x51; 0xb1; 0x49; 0x08; 0x98;
    0x32; 0x05; 0x59; 0x0e; 0xf9; 0x44; 0xc6; 0x26;
    0x21; 0x60; 0xc2; 0xea; 0x79; 0x5d; 0x6d; 0xa1;
    0x54; 0x69; 0x47; 0x0c; 0xdc; 0xe8; 0x5c; 0xf1;
    0xf7; 0x76; 0x82; 0x7f; 0x07; 0x99; 0xa2; 0x2c;
    0x93; 0x7c; 0x30; 0x63; 0xf5; 0x10; 0x2e; 0x61;
    0xd0; 0xbc; 0xb4; 0xb6; 0x06; 0xaa; 0xf4; 0x23;
    0x78; 0x6e; 0x3b; 0xae; 0xbf; 0x7b; 0x4c; 0xc1 ].

(** Modelled from the spec: [RS41_PRN_PERIOD] of [rs41.h], the period of the
    fixed pseudorandom sequence.  It is the size of [_prn], which the source
    initialises with exactly 64 bytes. *)
Definition RS41_PRN_PERIOD : Z := 64.

(** ** [RS41Decoder::descramble] *)

(** One turn of the inner loop: [tmp |= ((rawFrame[i] >> (7-j)) & 0x1) << j]. *)
Definition descramble_bit (b tmp j : Z) : Z :=
  u8 (Z.lor tmp (Z.shiftl (Z.land (Z.shiftr b (7 - j)) 1) j)).

(** The inner loop, [tmp = 0; for (j=0; j<8; j++) ...]. *)
Definition descramble_tmp (b : Z) : Z :=
  foldl (descramble_bit b) 0 (seqZ 0 8).

(** The body of the outer loop at position [i]. *)
Definition descramble_step (rawFrame : list Z) (i : Z) : list Z :=
  let tmp := descramble_tmp (rd rawFrame i) in
  wr rawFrame i (u8 (Z.lxor (Z.lxor 0xFF tmp) (rd _prn (i mod RS41_PRN_PERIOD)))).

Definition descramble `{Rs41Header} (rawFrame : list Z) : list Z :=
  foldl descramble_step rawFrame (seqZ 0 sizeof_RS41Frame).

Definition is_byteb (b : Z) : bool := (0 <=? b) && (b <? 256).

(** Bit-order reversal within a byte, as the sum of its mirrored bits. *)
Definition reverse8 (b : Z) : Z :=
  foldr (fun j acc => Z.b2z (Z.testbit b (7 - j)) * 2 ^ j + acc) 0 (seqZ 0 8).

Definition sample_frame : list Z := (fun i => (7 * i + 3) mod 256) <$> seqZ 0 518.

(** ** Subframes *)

(** A subframe is a view into the frame's payload: the type byte, the length
    byte, and the bytes that follow them (the flexible array [data], which
    holds the payload and then the two bytes of the checksum). *)
Record RS41Subframe := {
  subframe_type : Z;
  subframe_len : Z;
  subframe_data : list Z
}.

(** [frame->extended_flag] and [frame->data[k]] on the raw frame. *)
Definition extended_flag `{Rs41Header} (frame : list Z) : Z :=
  rd frame offsetof_extended_flag.

Definition frame_data `{Rs41Header} (frame : list Z) (k : Z) : Z :=
  rd frame (offsetof_data + k).

(** [(RS41Subframe* )&frame->data[offset]] *)
Definition subframe_at `{Rs41Header} (frame : list Z) (offset : Z) : RS41Subframe := {|
  subframe_type := frame_data frame offset;
  subframe_len := frame_data frame (offset + 1);
  subframe_data := drop (Z.to_nat (offsetof_data + offset + 2)) frame
|}.

(** ** The checksum *)

(** Modelled from the spec: [CCITT_FALSE_POLY] and [CCITT_FALSE_INIT] of
    [utils.h], the parameters of the CCITT-FALSE CRC-16: polynomial 0x1021,
    initial value 0xFFFF. *)
Definition CCITT_FALSE_POLY : Z := 0x1021.
Definition CCITT_FALSE_INIT : Z := 0xFFFF.

(** Modelled from the spec: [crc16] of [utils.h], the CRC-16 of the CCITT-FALSE
    family: the register starts at the initial value, each byte is folded into
    its high half, most significant bit first, and the register is then
    shifted left eight times, the polynomial being added whenever a one leaves
    the register; nothing is reflected and nothing is added at the end. *)
Definition crc16_shift (poly crc : Z) : Z :=
  if Z.testbit crc 15 then u16 (Z.lxor (Z.shiftl crc 1) poly)
  else u16 (Z.shiftl crc 1).

Definition crc16_byte (poly crc b : Z) : Z :=
  Nat.iter 8 (crc16_shift poly) (u16 (Z.lxor crc (Z.shiftl b 8))).

Definition crc16 (poly init : Z) (data : list Z) (len : Z) : Z :=
  foldl (crc16_byte poly) init (rd data <$> seqZ 0 len).

(** ** [RS41Decoder::crcCheck] *)

Definition crcCheck (subframe : RS41Subframe) : bool :=
  let checksum :=
    crc16 CCITT_FALSE_POLY CCITT_FALSE_INIT (subframe_data subframe) (subframe_len subframe) in
  let expected :=
    u16 (Z.lor (rd (subframe_data subframe) (subframe_len subframe))
               (Z.shiftl (rd (subframe_data subframe) (subframe_len subframe + 1)) 8)) in
  checksum =? expected.

(** A subframe as the transmitter builds it: the payload followed by its
    checksum, low byte first. *)
Definition sealed_subframe (ty : Z) (payload : list Z) : RS41Subframe :=
  let crc := crc16 CCITT_FALSE_POLY CCITT_FALSE_INIT payload (Z.of_nat (length payload)) in
  {| subframe_type := ty;
     subframe_len := Z.of_nat (length payload);
     subframe_data := payload ++ [crc mod 256; crc / 256] |}.

(** Bit [k mod 8] of byte [k / 8] of the buffer inverted. *)
Definition flip_bit (buf : list Z) (k : Z) : list Z :=
  wr buf (k / 8) (Z.lxor (rd buf (k / 8)) (Z.shiftl 1 (k mod 8))).

(** The subframe with one payload bit inverted and the trailer left alone. *)
Definition corrupt_subframe (subframe : RS41Subframe) (k : Z) : RS41Subframe :=
  {| subframe_type := subframe_type subframe;
     subframe_len := subframe_len subframe;
     subframe_data := flip_bit (subframe_data subframe) k |}.

(** ** The subframe loop of [RS41Decoder::run] *)

(** [bytesLeft = RS41_DATA_LEN + (frame->extended_flag == RS41_FLAG_EXTENDED ? RS41_XDATA_LEN : 0)] *)
Definition bytesLeft `{Rs41Header} (frame : list Z) : Z :=
  RS41_DATA_LEN + (if extended_flag frame =? RS41_FLAG_EXTENDED then RS41_XDATA_LEN else 0).

Section SubframeLoop.
Context `{Rs41Header} {St : Type}.
(** The effect of [updateSondeData(&m_sondeData, subframe)] on the decoder. *)
Variable update : St -> RS41Subframe -> St.

(** [while (offset < bytesLeft) { ... }], one turn per unit of fuel.  [None]
    is the loop that has not finished when the fuel is spent. *)
Fixpoint subframe_loop (fuel : nat) (frame : list Z) (offset : Z) (st : St) : option St :=
  match fuel with
  | O => None
  | S fuel' =>
      if offset <? bytesLeft frame then
        let subframe := subframe_at frame offset in
        let offset := offset + (subframe_len subframe + 4) in
        (* Verify that end of the subframe is still within bounds *)
        if offset >? bytesLeft frame then Some st
        (* Check subframe checksum *)
        else if negb (crcCheck subframe) then subframe_loop fuel' frame offset st
        (* Update the generic info struct with the data inside the subframe *)
        else subframe_loop fuel' frame offset (update st subframe)
      else Some st
  end.

(** Every turn moves the offset by four bytes at least, so the loop ends
    within [bytesLeft] turns. *)
Definition parse_subframes (frame : list Z) (st : St) : option St :=
  subframe_loop (S (Z.to_nat (bytesLeft frame))) frame 0 st.
End SubframeLoop.

(** The subframes of a frame in the words of the specification: starting at
    offset 0, each subframe ends [len + 4] bytes after its start; the walk
    stops at the payload bound, or at the first subframe that would end
    beyond it, which is not part of the list. *)
Fixpoint frame_subframes `{Rs41Header} (fuel : nat) (frame : list Z) (offset : Z)
  : list RS41Subframe :=
  match fuel with
  | O => []
  | S fuel' =>
      if offset <? bytesLeft frame then
        let subframe := subframe_at frame offset in
        let finish := offset + subframe_len subframe + 4 in
        if finish <=? bytesLeft frame then subframe :: frame_subframes fuel' frame finish
        else []
      else []
  end.

(** The subframes of a frame that end within the payload bound, in order. *)
Definition in_bounds_subframes `{Rs41Header} (frame : list Z) : list RS41Subframe :=
  frame_subframes (S (Z.to_nat (bytesLeft frame))) frame 0.

(** The end offset of the subframe that starts at [offset]: the two bytes of
    the header, the declared payload and the two bytes of the checksum. *)
Definition subframe_end `{Rs41Header} (frame : list Z) (offset : Z) : Z :=
  offset + subframe_len (subframe_at frame offset) + 4.

(** ** [RS41Decoder::rsCorrect] *)

(** [frame->rs_checksum[k]] on the raw frame, and the stores into the frame. *)
Definition frame_rs_checksum `{Rs41Header} (frame : list Z) (k : Z) : Z :=
  rd frame (offsetof_rs_checksum + k).

Definition set_frame_data `{Rs41Header} (frame : list Z) (k v : Z) : list Z :=
  wr frame (offsetof_data + k) v.

Definition set_frame_rs_checksum `{Rs41Header} (frame : list Z) (k v : Z) : list Z :=
  wr frame (offsetof_rs_checksum + k) v.

(** The decoder of the Reed-Solomon library, [correct_reed_solomon_decode(rs,
    rsBlock, RS41_REEDSOLOMON_N, rsBlock)]: from the block it is handed, the
    value it returns (negative when the block cannot be corrected) and the
    content of [rsBlock] after the call. *)
Definition rs_codec : Type := list Z -> Z * list Z.

(** The index of [frame->data] that holds symbol [i] of block [block]:
    [RS41_REEDSOLOMON_INTERLEAVING*i + block - 1]. *)
Definition rs_data_index `{Rs41Header} (block i : Z) : Z :=
  RS41_REEDSOLOMON_INTERLEAVING * i + block - 1.

(** [chunk_len], by the flag of the frame. *)
Definition rs_chunk_len `{Rs41Header} (frame : list Z) : Z :=
  if negb (extended_flag frame =? RS41_FLAG_EXTENDED)
  then Z.quot (RS41_DATA_LEN + 1) RS41_REEDSOLOMON_INTERLEAVING
  else RS41_REEDSOLOMON_K.

(** Deinterleave: the two loops that fill [rsBlock] from the frame. *)
Definition rs_deinterleave `{Rs41Header} (frame rsBlock : list Z) (chunk_len block : Z) : list Z :=
  let rsBlock :=
    foldl (fun blk i => wr blk i (frame_data frame (rs_data_index block i)))
          rsBlock (seqZ 0 chunk_len) in
  foldl (fun blk i => wr blk (RS41_REEDSOLOMON_K + i)
                         (frame_rs_checksum frame (i + RS41_REEDSOLOMON_T * block)))
        rsBlock (seqZ 0 RS41_REEDSOLOMON_T).

(** Reinterleave: the two loops that store [rsBlock] back into the frame. *)
Definition rs_reinterleave `{Rs41Header} (frame rsBlock : list Z) (chunk_len block : Z) : list Z :=
  let frame :=
    foldl (fun f i => set_frame_data f (rs_data_index block i) (rd rsBlock i))
          frame (seqZ 0 chunk_len) in
  foldl (fun f i => set_frame_rs_checksum f (i + RS41_REEDSOLOMON_T * block)
                                          (rd rsBlock (RS41_REEDSOLOMON_K + i)))
        frame (seqZ 0 RS41_REEDSOLOMON_T).

(** The state of the block loop: the frame, [rsBlock] and [valid]. *)
Record rs_state := {
  rs_frame : list Z;
  rs_block : list Z;
  rs_valid : bool
}.

(** The block handed to the decoder for [block], and what comes back. *)
Definition rs_decode_input `{Rs41Header} (chunk_len : Z) (s : rs_state) (block : Z) : list Z :=
  rs_deinterleave (rs_frame s) (rs_block s) chunk_len block.

(** The body of [for (block=0; block<RS41_REEDSOLOMON_INTERLEAVING; block++)]. *)
Definition rs_block_step `{Rs41Header} (m_rs : rs_codec) (chunk_len : Z)
  (s : rs_state) (block : Z) : rs_state :=
  (* Deinterleave *)
  let rsBlock := rs_decode_input chunk_len s block in
  (* Error correct *)
  let '(ret, rsBlock) := m_rs rsBlock in
  let valid := if ret <? 0 then false else rs_valid s in
  (* Reinterleave *)
  {| rs_frame := rs_reinterleave (rs_frame s) rsBlock chunk_len block;
     rs_block := rsBlock;
     rs_valid := valid |}.

(** The state on entry to the loop.  [stack] is what the memory of [rsBlock]
    holds before the function writes to it: the standard frame clears it, the
    extended frame does not. *)
Definition rs_entry `{Rs41Header} (stack frame : list Z) : rs_state :=
  {| rs_frame := frame;
     rs_block := if negb (extended_flag frame =? RS41_FLAG_EXTENDED)
                 then replicate (Z.to_nat RS41_REEDSOLOMON_N) 0
                 else stack;
     rs_valid := true |}.

(** The state of the loop when it is about to handle [block]. *)
Definition rs_before `{Rs41Header} (m_rs : rs_codec) (stack frame : list Z) (block : Z) : rs_state :=
  foldl (rs_block_step m_rs (rs_chunk_len frame)) (rs_entry stack frame) (seqZ 0 block).

(** [rsCorrect]: the frame after the loop, and the value returned. *)
Definition rsCorrect `{Rs41Header} (m_rs : rs_codec) (stack frame : list Z) : list Z * bool :=
  let s := rs_before m_rs stack frame RS41_REEDSOLOMON_INTERLEAVING in
  (rs_frame s, rs_valid s).

(** What the decoder returned for [block] during [rsCorrect]. *)
Definition rs_decode_result `{Rs41Header} (m_rs : rs_codec) (stack frame : list Z) (block : Z)
  : Z * list Z :=
  m_rs (rs_decode_input (rs_chunk_len frame) (rs_before m_rs stack frame block) block).

(** What the code needs of the constants and of the frame layout of [rs41.h]
    for its accesses to stay inside the frame and inside [rsBlock]: the parity
    bytes lie before the byte that precedes the payload, the payload lies
    inside the frame, and the interleaved codewords cover no more than that
    byte and the payload. *)
Record frame_layout_ok `{Rs41Header} : Prop := {
  layout_interleaving : 0 < RS41_REEDSOLOMON_INTERLEAVING;
  layout_t : 0 <= RS41_REEDSOLOMON_T;
  layout_k : 0 < RS41_REEDSOLOMON_K;
  layout_n : RS41_REEDSOLOMON_K + RS41_REEDSOLOMON_T <= RS41_REEDSOLOMON_N;
  layout_data_len : 0 <= RS41_DATA_LEN;
  layout_xdata_len : 0 <= RS41_XDATA_LEN;
  layout_chunk : Z.quot (RS41_DATA_LEN + 1) RS41_REEDSOLOMON_INTERLEAVING <= RS41_REEDSOLOMON_K;
  layout_codewords :
    RS41_REEDSOLOMON_INTERLEAVING * RS41_REEDSOLOMON_K <= RS41_DATA_LEN + RS41_XDATA_LEN + 1;
  layout_rs_checksum : 0 <= offsetof_rs_checksum;
  layout_rs_before_data :
    offsetof_rs_checksum + RS41_REEDSOLOMON_T * RS41_REEDSOLOMON_INTERLEAVING <= offsetof_data - 1;
  layout_data :
    offsetof_data + RS41_DATA_LEN + RS41_XDATA_LEN <= sizeof_RS41Frame
}.

(** The decoder writes its result into the buffer it was handed, which keeps
    its size. *)
Definition codec_keeps_size (m_rs : rs_codec) : Prop :=
  forall blk, length (snd (m_rs blk)) = length blk.

(** ** The default calibration table *)

(** Sane default calibration data, taken from a live radiosonde.  The bytes
    are those of the source, row by row; a zero byte is written [0]. *)
Definition _defaultCalibData : list Z :=
  [
    0xec; 0x5c; 0x80; 0x57; 0x03; 0; 0; 0x0e; 0; 0; 0; 0; 0; 0x53; 0x33; 0x32;
    0x32; 0x30; 0x36; 0x35; 0x30; 0xf7; 0x4e; 0; 0; 0x58; 0x02; 0x12; 0x05; 0xb4; 0x3c; 0xa4;
    0x06; 0x14; 0x87; 0x32; 0; 0; 0; 0xff; 0xff; 0; 0; 0; 0; 0x03; 0x1e; 0x23;
    0xe8; 0x03; 0x01; 0x04; 0; 0x07; 0; 0xbf; 0x02; 0x91; 0xb3; 0; 0x06; 0; 0x80; 0x3b;
    0x44; 0; 0x80; 0x89; 0x44; 0; 0; 0; 0; 0; 0; 0x3c; 0x42; 0x2a; 0xe9; 0x73;
    0xc3; 0x5f; 0x28; 0x40; 0x3e; 0xbb; 0x92; 0x09; 0x37; 0xdd; 0xd6; 0xa0; 0x3f; 0xc5; 0x52; 0xd6;
    0xbd; 0x54; 0xe4; 0xb5; 0x3b; 0; 0; 0; 0; 0; 0; 0; 0; 0; 0; 0;
    0; 0; 0; 0; 0; 0x33; 0x99; 0x30; 0x42; 0x6f; 0xd9; 0xa1; 0x40; 0xe1; 0x79; 0x29;
    0xbb; 0x52; 0x98; 0x0f; 0xc0; 0x5f; 0xc4; 0x1e; 0x41; 0xc3; 0x9f; 0x67; 0xc0; 0xe9; 0x6b; 0x59;
    0x42; 0x33; 0x9a; 0xba; 0xc2; 0x8e; 0xd2; 0x4e; 0x42; 0xc3; 0x7b; 0x1b; 0x42; 0xf8; 0x6f; 0x51;
    0x43; 0xf0; 0x37; 0xbd; 0xc3; 0xa8; 0xc5; 0x12; 0x41; 0x93; 0x3d; 0x9c; 0x41; 0xeb; 0x41; 0x16;
    0x43; 0x14; 0xe8; 0x16; 0xc3; 0x45; 0x28; 0x8c; 0xc3; 0x09; 0x4b; 0x36; 0x43; 0x4f; 0xf6; 0x4a;
    0x45; 0x6f; 0x3a; 0x7f; 0x45; 0x86; 0x91; 0x69; 0xc3; 0xf1; 0xaf; 0xac; 0x43; 0x8d; 0x37; 0x48;
    0x43; 0x7b; 0x1f; 0xc2; 0xc3; 0x87; 0x1a; 0x62; 0xc5; 0; 0; 0; 0; 0x54; 0xd7; 0x61;
    0x43; 0xf4; 0x0c; 0x69; 0xc3; 0; 0; 0; 0; 0; 0; 0; 0; 0; 0; 0;
    0; 0; 0; 0; 0; 0x89; 0x20; 0xba; 0xc2; 0; 0; 0; 0; 0; 0; 0;
    0; 0; 0; 0; 0; 0; 0; 0; 0; 0; 0; 0; 0; 0; 0; 0;
    0; 0; 0; 0; 0; 0; 0; 0; 0; 0; 0; 0; 0; 0; 0; 0;
    0; 0; 0; 0; 0; 0x2a; 0xe9; 0x73; 0xc3; 0x5f; 0x28; 0x40; 0x3e; 0xbb; 0x92; 0x09;
    0x37; 0x80; 0xda; 0xa5; 0x3f; 0xa6; 0x1d; 0xc0; 0xbc; 0x82; 0x9e; 0xb3; 0x3b; 0; 0; 0;
    0; 0; 0; 0; 0; 0; 0; 0; 0; 0; 0; 0; 0; 0; 0; 0;
    0; 0; 0xff; 0xff; 0xff; 0xc6; 0; 0x41; 0x69; 0x30; 0x42; 0; 0; 0; 0; 0;
    0xcd; 0xcc; 0xcc; 0x3d; 0xbd; 0xff; 0x4b; 0xbf; 0x47; 0x49; 0x9e; 0xbd; 0x66; 0x36; 0xb1; 0x33;
    0x5b; 0x39; 0x8b; 0xb7; 0x1b; 0x8a; 0xf1; 0x39; 0; 0xe0; 0xaa; 0x44; 0xf0; 0x85; 0x49; 0x3c;
    0; 0; 0; 0x3f; 0; 0; 0x90; 0x40; 0; 0; 0xa0; 0x3f; 0; 0; 0; 0;
    0x33; 0x33; 0x33; 0x3f; 0x68; 0x91; 0x2d; 0x3f; 0; 0; 0x80; 0x3f; 0; 0; 0; 0;
    0; 0; 0; 0; 0xe6; 0x96; 0x7e; 0x3f; 0x97; 0x82; 0x9b; 0xb8; 0xaa; 0x39; 0x23; 0x30;
    0xe4; 0x16; 0xcd; 0x29; 0xb5; 0x26; 0x5a; 0xa2; 0xfd; 0xeb; 0x02; 0x1a; 0xec; 0x51; 0x38; 0x3e;
    0x33; 0x33; 0x33; 0x3f; 0; 0; 0; 0; 0; 0; 0; 0; 0; 0; 0; 0;
    0; 0; 0; 0; 0; 0; 0; 0; 0; 0; 0; 0; 0; 0; 0; 0;
    0xf6; 0x7f; 0x74; 0x40; 0x3b; 0x36; 0x82; 0xbf; 0xe5; 0x2f; 0x98; 0x3d; 0; 0x01; 0; 0x01;
    0xac; 0xac; 0xba; 0xbe; 0x0c; 0xe6; 0xab; 0x3e; 0; 0; 0; 0x40; 0x08; 0x39; 0xad; 0x41;
    0x89; 0x04; 0xaf; 0x41; 0; 0; 0x40; 0x40; 0xff; 0xff; 0xff; 0xc6; 0xff; 0xff; 0xff; 0xc6;
    0xff; 0xff; 0xff; 0xc6; 0xff; 0xff; 0xff; 0xc6; 0x52; 0x53; 0x34; 0x31; 0x2d; 0x53; 0x47; 0;
    0; 0; 0x52; 0x53; 0x4d; 0x34; 0x31; 0x32; 0; 0; 0; 0; 0x53; 0x33; 0x31; 0x31;
    0x30; 0x33; 0x31; 0x34; 0; 0x30; 0x30; 0x30; 0x30; 0x30; 0x30; 0x30; 0x30; 0x30; 0x30; 0;
    0; 0; 0; 0x30; 0x30; 0x30; 0x30; 0x30; 0x30; 0x30; 0x30; 0; 0; 0x81; 0x23; 0;
    0; 0x1a; 0x02; 0; 0x02; 0x7b; 0xe5; 0xb5; 0x3f; 0xaa; 0; 0; 0; 0; 0; 0;
    0; 0; 0; 0; 0; 0; 0; 0; 0; 0; 0; 0; 0; 0; 0; 0;
    0; 0; 0; 0; 0; 0; 0; 0; 0; 0; 0; 0; 0; 0; 0; 0;
    0; 0; 0; 0; 0; 0; 0; 0; 0; 0; 0; 0; 0; 0; 0; 0;
    0; 0; 0; 0; 0; 0; 0; 0; 0; 0; 0; 0; 0; 0; 0; 0;
    0; 0; 0; 0; 0; 0; 0xd5; 0xca; 0xa4; 0x3d; 0x5d; 0xa3; 0x65; 0x39; 0x7f; 0x87;
    0x22; 0x39; 0; 0; 0; 0; 0; 0; 0; 0; 0x09; 0xfe; 0xb7; 0xbc; 0xc8; 0x96;
    0xe5; 0x3e; 0x31; 0x99; 0x1a; 0xbf; 0x12; 0xda; 0xda; 0x3e; 0xb6; 0x84; 0x68; 0xc1; 0x67; 0x55;
    0x57; 0x42; 0xd6; 0xc5; 0xaa; 0xc1; 0x84; 0x9e; 0xc7; 0xc1; 0xfd; 0xbc; 0x3e; 0x41; 0x1e; 0x16;
    0x4c; 0xc2; 0x7c; 0xb8; 0x8b; 0x41; 0xbb; 0x32; 0xf4; 0x41; 0; 0; 0; 0; 0; 0;
    0; 0; 0; 0; 0; 0; 0; 0; 0; 0; 0x03; 0; 0x01; 0; 0x14; 0;
    0xc8; 0; 0x46; 0; 0x3c; 0; 0x05; 0; 0x3c; 0; 0x18; 0x01; 0x9e; 0x62; 0xd5; 0xb8;
    0x6c; 0x9c; 0x07; 0xb1; 0; 0x3c; 0x88; 0x77; 0; 0; 0; 0; 0; 0; 0; 0;
    0xf3; 0x6a; 0xc0; 0xf1; 0x5b; 0x02; 0x07; 0; 0; 0x05; 0x6d; 0x01; 0x1b; 0x94; 0; 0 ].

(** ** Typed views of the subframes *)

Record RS41Subframe_Status := {
  frame_seq : Z;
  status_serial : list Z;
  frag_seq : Z;
  frag_data : list Z
}.

Record RS41Subframe_PTU := {
  temp_main : list Z;
  temp_ref1 : list Z;
  temp_ref2 : list Z;
  humidity_main : list Z;
  humidity_ref1 : list Z;
  humidity_ref2 : list Z;
  temp_humidity_main : list Z;
  temp_humidity_ref1 : list Z;
  temp_humidity_ref2 : list Z
}.

Record RS41Subframe_GPSPos := {
  gpspos_x : Z;
  gpspos_y : Z;
  gpspos_z : Z;
  gpspos_dx : Z;
  gpspos_dy : Z;
  gpspos_dz : Z
}.

Record RS41Subframe_GPSInfo := {
  gpsinfo_week : Z;
  gpsinfo_ms : Z
}.

Record RS41Subframe_XDATA := {
  ascii_data : list Z;
  xdata_len : Z
}.

(** ** Single-precision arithmetic

    A C [float] is an IEEE 754 binary32 number and every operation rounds to
    nearest, ties to even. *)

Definition float : Type := spec_float.

Definition fadd : float -> float -> float := SFadd 24 128.
Definition fsub : float -> float -> float := SFsub 24 128.
Definition fmul : float -> float -> float := SFmul 24 128.
Definition fdiv : float -> float -> float := SFdiv 24 128.

Declare Scope float_scope.
Delimit Scope float_scope with F.
Bind Scope float_scope with float.
Infix "+" := fadd : float_scope.
Infix "-" := fsub : float_scope.
Infix "*" := fmul : float_scope.
Infix "/" := fdiv : float_scope.

(** The conversion of an integer to [float]. *)
Definition float_of_Z (n : Z) : float := binary_normalize 24 128 n 0 false.

(** The macro [NAN] of [math.h]. *)
Definition NAN : float := S754_nan.

(** [x == 0], also written [!x], and [x > 0]. *)
Definition fis_zero (x : float) : bool := SFeqb x (float_of_Z 0).
Definition fis_pos (x : float) : bool := SFltb (float_of_Z 0) x.

Definition fis_nan (x : float) : bool :=
  match x with S754_nan => true | _ => false end.

(** [fmin] and [fmax] of [math.h]: a NaN argument is ignored. *)
Definition fmin (x y : float) : float :=
  if fis_nan x then y else if fis_nan y then x else if SFltb y x then y else x.

Definition fmax (x y : float) : float :=
  if fis_nan x then y else if fis_nan y then x else if SFltb x y then y else x.

(** [v / 100.0] for an integer [v], computed in [double] and stored into a
    [float]. *)
Definition double_to_float (d : spec_float) : float :=
  match d with
  | S754_finite s m e => binary_round 24 128 s m e
  | _ => d
  end.

Definition centi (v : Z) : float :=
  double_to_float (SFdiv 53 1024 (binary_normalize 53 1024 v 0 false)
                                 (binary_normalize 53 1024 100 0 false)).

(** Element [i] of an array of floats. *)
Definition fnth (a : list float) (i : Z) : float :=
  if i <? 0 then float_of_Z 0 else nth (Z.to_nat i) a (float_of_Z 0).

(** ** The calibration table, typed *)

(** The fields of [RS41Calibration] that the decoder reads. *)
Record RS41Calibration := {
  burstkill_timer : Z;
  t_ref : list float;
  t_calib_coeff : list float;
  t_temp_poly : list float;
  th_calib_coeff : list float;
  th_temp_poly : list float;
  rh_ref : list float;
  rh_cap_calib : list float;
  rh_calib_coeff : list (list float)
}.

(** ** The telemetry record *)

Record SondeData := {
  calibrated : bool;
  serial : list Z;
  burstkill : Z;
  seq : Z;
  info_temp : float;
  info_rh : float;
  info_pressure : float;
  info_dewpt : float;
  lat : float;
  lon : float;
  alt : float;
  spd : float;
  hdg : float;
  climb : float;
  time : Z;
  auxData : list Z
}.

(** The casts of [rs41.h]: a subframe seen as one of the typed subframes, and
    the bytes of the calibration table seen as [RS41Calibration]. *)
Class Rs41Views := {
  as_status : RS41Subframe -> RS41Subframe_Status;
  as_ptu : RS41Subframe -> RS41Subframe_PTU;
  as_gpspos : RS41Subframe -> RS41Subframe_GPSPos;
  as_gpsinfo : RS41Subframe -> RS41Subframe_GPSInfo;
  as_xdata : RS41Subframe -> RS41Subframe_XDATA;
  as_calibration : list Z -> RS41Calibration
}.

(** The functions of [utils.h], [decode/gps/ecef.h], [decode/gps/time.h] and
    [decode/xdata.hpp]. *)
Class Collaborators := {
  wv_sat_pressure : float -> float;
  dewpt : float -> float -> float;
  altitude_to_pressure : float -> float;
  ecef_to_lla : float -> float -> float -> float * float * float;
  ecef_to_spd_hdg : float -> float -> float -> float -> float -> float * float * float;
  gps_time_to_utc : Z -> Z -> Z;
  decodeXDATA : SondeData -> list Z -> Z -> list Z
}.

(** ** The decoder *)

Record RS41Decoder := {
  m_rs : option rs_codec;
  m_calibrated : bool;
  m_calibData : list Z;
  m_calibDataBitmap : list Z;
  m_sondeData : SondeData
}.

(** [memset(dst, c, n)] on a buffer of [n] bytes, and
    [memcpy(dst + off, src, n)]. *)
Definition memset (c n : Z) : list Z := replicate (Z.to_nat n) c.

Definition memcpy (dst : list Z) (off : Z) (src : list Z) (n : Z) : list Z :=
  foldl (fun buf i => wr buf (off + i) (rd src i)) dst (seqZ 0 n).

(** The bitmap as [init] and [setInput] leave it:
    [memset(m_calibDataBitmap, 0xFF, sizeof(m_calibDataBitmap))], then
    [m_calibDataBitmap[sizeof(m_calibDataBitmap)-1] &=
       ~((1 << (7 - (RS41_CALIB_FRAGCOUNT-1)%8)) - 1)]. *)
Definition fresh_bitmap `{Rs41Header} : list Z :=
  let bitmap := memset 0xFF sizeof_calibDataBitmap in
  let last := sizeof_calibDataBitmap - 1 in
  wr bitmap last
     (u8 (Z.land (rd bitmap last)
                 (Z.lnot (Z.shiftl 1 (7 - Z.rem (RS41_CALIB_FRAGCOUNT - 1) 8) - 1)))).

(** [RS41Decoder::init], for the members the decoding uses.  [blank] is the
    telemetry record as its constructor leaves it. *)
Definition init `{Rs41Header} (rs : option rs_codec) (blank : SondeData) : RS41Decoder := {|
  m_rs := rs;
  m_calibrated := false;
  m_calibData := memcpy (memset 0 sizeof_RS41Calibration) 0 _defaultCalibData
                        (Z.of_nat (length _defaultCalibData));
  m_calibDataBitmap := fresh_bitmap;
  m_sondeData := blank
|}.

(** ** [RS41Decoder::updateCalibData] *)

(** [frag_offset = status->frag_seq * RS41_CALIB_FRAGSIZE] *)
Definition frag_offset `{Rs41Header} (status : RS41Subframe_Status) : Z :=
  frag_seq status * RS41_CALIB_FRAGSIZE.

(** [m_calibDataBitmap[status->frag_seq/8] &= ~(1 << (7-status->frag_seq%8))] *)
Definition clear_fragment_bit (bitmap : list Z) (seq : Z) : list Z :=
  wr bitmap (Z.quot seq 8)
     (u8 (Z.land (rd bitmap (Z.quot seq 8)) (Z.lnot (Z.shiftl 1 (7 - Z.rem seq 8))))).

(** The loop [for (i=0; i<sizeof(m_calibDataBitmap); i++) if (m_calibDataBitmap[i]) return;]
    reaches its end. *)
Definition bitmap_clear `{Rs41Header} (bitmap : list Z) : bool :=
  forallb (fun i => rd bitmap i =? 0) (seqZ 0 sizeof_calibDataBitmap).

Definition updateCalibData `{Rs41Header} (d : RS41Decoder) (status : RS41Subframe_Status)
  : RS41Decoder :=
  (* Copy the fragment and update the bitmap of the fragments left *)
  let calibData := memcpy (m_calibData d) (frag_offset status) (frag_data status)
                          RS41_CALIB_FRAGSIZE in
  let bitmap := clear_fragment_bit (m_calibDataBitmap d) (frag_seq status) in
  (* Check if we have all the sub-segments populated *)
  {| m_rs := m_rs d;
     m_calibrated := if bitmap_clear bitmap then true else m_calibrated d;
     m_calibData := calibData;
     m_calibDataBitmap := bitmap;
     m_sondeData := m_sondeData d |}.

(** The bytes of the table that the copy of a fragment writes, and the byte
    of the bitmap that its bit lives in, lie inside the two buffers. *)
Definition fragment_in_bounds `{Rs41Header} (status : RS41Subframe_Status) : Prop :=
  (0 <= frag_offset status /\
   frag_offset status + RS41_CALIB_FRAGSIZE <= sizeof_RS41Calibration) /\
  0 <= Z.quot (frag_seq status) 8 < sizeof_calibDataBitmap.

(** ** The PTU computations *)

Definition u32 (x : Z) : Z := x mod 2 ^ 32.

(** [(uint32_t)b[0] | (uint32_t)b[1] << 8 | (uint32_t)b[2] << 16], the value
    of a channel before it is converted to [float]. *)
Definition adc_count (b : list Z) : Z :=
  u32 (Z.lor (Z.lor (u32 (rd b 0)) (u32 (Z.shiftl (u32 (rd b 1)) 8)))
             (u32 (Z.shiftl (u32 (rd b 2)) 16))).

Definition adc (b : list Z) : float := float_of_Z (adc_count b).

(** The loop [acc = 0; for (i=6; i>0; i--) { acc *= x; acc += coeff[i]; }]. *)
Definition calib_loop (coeff : list float) (x : float) : float :=
  foldl (fun acc i => (acc * x + fnth coeff i)%F) (float_of_Z 0) (reverse (seqZ 1 6)).

Section Telemetry.
Context `{Rs41Header} `{Collaborators}.
(** [m_calibData], seen as [RS41Calibration]. *)
Variable calib : RS41Calibration.

(** [RS41Decoder::temp] *)
Definition temp (ptu : RS41Subframe_PTU) : float :=
  let adc_main := adc (temp_main ptu) in
  let adc_ref1 := adc (temp_ref1 ptu) in
  let adc_ref2 := adc (temp_ref2 ptu) in
  (* If no reference or no calibration data, retern *)
  if fis_zero (adc_ref2 - adc_ref1) then NAN else
  (* Compute ADC gain and bias *)
  let adc_raw := ((adc_main - adc_ref1) / (adc_ref2 - adc_ref1))%F in
  (* Compute resistance *)
  let r_raw := (fnth (t_ref calib) 0
                + (fnth (t_ref calib) 1 - fnth (t_ref calib) 0) * adc_raw)%F in
  let r_t := (r_raw * fnth (t_calib_coeff calib) 0)%F in
  (* Compute temperature based on corrected resistance *)
  let t_uncal := (fnth (t_temp_poly calib) 0
                  + fnth (t_temp_poly calib) 1 * r_t
                  + fnth (t_temp_poly calib) 2 * r_t * r_t)%F in
  let t_cal := calib_loop (t_calib_coeff calib) t_uncal in
  (t_cal + t_uncal)%F.

(** [RS41Decoder::rh_temp] *)
Definition rh_temp (ptu : RS41Subframe_PTU) : float :=
  let adc_main := adc (temp_humidity_main ptu) in
  let adc_ref1 := adc (temp_humidity_ref1 ptu) in
  let adc_ref2 := adc (temp_humidity_ref2 ptu) in
  (* If no reference or no calibration data, retern *)
  if fis_zero (adc_ref2 - adc_ref1) then NAN else
  if fis_zero (fnth (t_ref calib) 0) || fis_zero (fnth (t_ref calib) 1) then NAN else
  (* Compute ADC gain and bias *)
  let adc_raw := ((adc_main - adc_ref1) / (adc_ref2 - adc_ref1))%F in
  (* Compute resistance *)
  let r_raw := (fnth (t_ref calib) 0
                + adc_raw * (fnth (t_ref calib) 1 - fnth (t_ref calib) 0))%F in
  let r_t := (r_raw * fnth (th_calib_coeff calib) 0)%F in
  (* Compute temperature based on corrected resistance *)
  (fnth (th_temp_poly calib) 0
   + fnth (th_temp_poly calib) 1 * r_t
   + fnth (th_temp_poly calib) 2 * r_t * r_t)%F.

(** The double loop of [rh] over the 7 x 6 coefficients; the state is
    [(rh_uncal, f1)] outside and [(rh_uncal, f2)] inside. *)
Definition rh_surface (c_cal rh_temp_cal : float) : float :=
  fst (foldl (fun '(rh_uncal, f1) i =>
                let '(rh_uncal, _) :=
                  foldl (fun '(rh_uncal, f2) j =>
                           ((rh_uncal + f1 * f2 * fnth (nth (Z.to_nat i) (rh_calib_coeff calib) []) j)%F,
                            (f2 * rh_temp_cal)%F))
                        (rh_uncal, float_of_Z 1) (seqZ 0 6) in
                (rh_uncal, (f1 * c_cal)%F))
             (float_of_Z 0, float_of_Z 1) (seqZ 0 7)).

(** [RS41Decoder::rh] *)
Definition rh (ptu : RS41Subframe_PTU) : float :=
  let adc_main := adc (humidity_main ptu) in
  let adc_ref1 := adc (humidity_ref1 ptu) in
  let adc_ref2 := adc (humidity_ref2 ptu) in
  if fis_zero (adc_ref2 - adc_ref1) then NAN else
  (* Get RH sensor temperature and actual temperature *)
  let rh_temp_uncal := rh_temp ptu in
  let t_temp := temp ptu in
  (* Compute RH calibrated temperature *)
  let rh_temp_cal := calib_loop (th_calib_coeff calib) rh_temp_uncal in
  let rh_temp_cal := (rh_temp_cal + rh_temp_uncal)%F in
  (* Get raw capacitance of the RH sensor *)
  let adc_raw := ((adc_main - adc_ref1) / (adc_ref2 - adc_ref1))%F in
  let c_raw := (fnth (rh_ref calib) 0
                + adc_raw * (fnth (rh_ref calib) 1 - fnth (rh_ref calib) 0))%F in
  let c_cal := ((c_raw / fnth (rh_cap_calib calib) 0 - float_of_Z 1)
                * fnth (rh_cap_calib calib) 1)%F in
  (* Derive raw RH% from capacitance and temperature response *)
  let rh_temp_cal := ((rh_temp_cal - float_of_Z 20) / float_of_Z 180)%F in
  let rh_uncal := rh_surface c_cal rh_temp_cal in
  (* Account for different temperature between air and RH sensor *)
  let rh_cal := (rh_uncal * wv_sat_pressure rh_temp_uncal / wv_sat_pressure t_temp)%F in
  fmax (float_of_Z 0) (fmin (float_of_Z 100) rh_cal).

(** [RS41Decoder::pressure] *)
Definition pressure (ptu : RS41Subframe_PTU) : float :=
  (* TODO *)
  float_of_Z 0.
End Telemetry.

(** The temperature in the words of the specification, with the 6th-degree
    calibration polynomial over the seven coefficients of the table,
    [c0 + c1 t + ... + c6 t^6], evaluated by Horner's method. *)
Definition horner (coeff : list float) (x : float) : float :=
  foldr (fun c acc => (acc * x + c)%F) (float_of_Z 0) coeff.

Definition temp_6th_degree (calib : RS41Calibration) (ptu : RS41Subframe_PTU) : float :=
  let adc_main := adc (temp_main ptu) in
  let adc_ref1 := adc (temp_ref1 ptu) in
  let adc_ref2 := adc (temp_ref2 ptu) in
  let adc_raw := ((adc_main - adc_ref1) / (adc_ref2 - adc_ref1))%F in
  let r_raw := (fnth (t_ref calib) 0
                + (fnth (t_ref calib) 1 - fnth (t_ref calib) 0) * adc_raw)%F in
  let r_t := (r_raw * fnth (t_calib_coeff calib) 0)%F in
  let t_uncal := (fnth (t_temp_poly calib) 0
                  + fnth (t_temp_poly calib) 1 * r_t
                  + fnth (t_temp_poly calib) 2 * r_t * r_t)%F in
  (horner (take 7 (t_calib_coeff calib)) t_uncal + t_uncal)%F.

(** ** [RS41Decoder::updateSondeData] *)

Section UpdateSondeData.
Context `{Rs41Header} `{Rs41Views} `{Collaborators}.

Definition updateSondeData (d : RS41Decoder) (subframe : RS41Subframe) : RS41Decoder :=
  let info := m_sondeData d in
  let hasPressureSensor := false in
  let type := subframe_type subframe in
  if type =? RS41_SFTYPE_INFO then
    let status := as_status subframe in
    let d := updateCalibData d status in
    let calib := as_calibration (m_calibData d) in
    {| m_rs := m_rs d;
       m_calibrated := m_calibrated d;
       m_calibData := m_calibData d;
       m_calibDataBitmap := m_calibDataBitmap d;
       m_sondeData :=
         {| calibrated := m_calibrated d;
            serial := wr (status_serial status) RS41_SERIAL_LEN 0;
            burstkill := if burstkill_timer calib =? 0xFFFF then -1
                         else burstkill_timer calib;
            seq := frame_seq status;
            info_temp := info_temp info; info_rh := info_rh info;
            info_pressure := info_pressure info; info_dewpt := info_dewpt info;
            lat := lat info; lon := lon info; alt := alt info;
            spd := spd info; hdg := hdg info; climb := climb info;
            time := time info; auxData := auxData info |} |}
  else if type =? RS41_SFTYPE_PTU then
    let ptu := as_ptu subframe in
    let calib := as_calibration (m_calibData d) in
    let new_temp := temp calib ptu in
    let new_rh := rh calib ptu in
    let '(hasPressureSensor, new_pressure) :=
      if fis_pos (pressure ptu) then (true, pressure ptu)  (* Pressure sensor is optional *)
      else (hasPressureSensor, info_pressure info) in
    {| m_rs := m_rs d;
       m_calibrated := m_calibrated d;
       m_calibData := m_calibData d;
       m_calibDataBitmap := m_calibDataBitmap d;
       m_sondeData :=
         {| calibrated := calibrated info; serial := serial info;
            burstkill := burstkill info; seq := seq info;
            info_temp := new_temp; info_rh := new_rh;
            info_pressure := new_pressure;
            info_dewpt := dewpt new_temp new_rh;
            lat := lat info; lon := lon info; alt := alt info;
            spd := spd info; hdg := hdg info; climb := climb info;
            time := time info; auxData := auxData info |} |}
  else if type =? RS41_SFTYPE_GPSPOS then
    let gpspos := as_gpspos subframe in
    let x := centi (gpspos_x gpspos) in
    let y := centi (gpspos_y gpspos) in
    let z := centi (gpspos_z gpspos) in
    let dx := centi (gpspos_dx gpspos) in
    let dy := centi (gpspos_dy gpspos) in
    let dz := centi (gpspos_dz gpspos) in
    let '(new_lat, new_lon, new_alt) := ecef_to_lla x y z in
    let '(new_spd, new_hdg, new_climb) := ecef_to_spd_hdg new_lat new_lon dx dy dz in
    {| m_rs := m_rs d;
       m_calibrated := m_calibrated d;
       m_calibData := m_calibData d;
       m_calibDataBitmap := m_calibDataBitmap d;
       m_sondeData :=
         {| calibrated := calibrated info; serial := serial info;
            burstkill := burstkill info; seq := seq info;
            info_temp := info_temp info; info_rh := info_rh info;
            info_pressure := if negb hasPressureSensor then altitude_to_pressure new_alt
                             else info_pressure info;
            info_dewpt := info_dewpt info;
            lat := new_lat; lon := new_lon; alt := new_alt;
            spd := new_spd; hdg := new_hdg; climb := new_climb;
            time := time info; auxData := auxData info |} |}
  else if type =? RS41_SFTYPE_GPSINFO then
    let gpsinfo := as_gpsinfo subframe in
    {| m_rs := m_rs d;
       m_calibrated := m_calibrated d;
       m_calibData := m_calibData d;
       m_calibDataBitmap := m_calibDataBitmap d;
       m_sondeData :=
         {| calibrated := calibrated info; serial := serial info;
            burstkill := burstkill info; seq := seq info;
            info_temp := info_temp info; info_rh := info_rh info;
            info_pressure := info_pressure info; info_dewpt := info_dewpt info;
            lat := lat info; lon := lon info; alt := alt info;
            spd := spd info; hdg := hdg info; climb := climb info;
            time := gps_time_to_utc (gpsinfo_week gpsinfo) (gpsinfo_ms gpsinfo);
            auxData := auxData info |} |}
  else if type =? RS41_SFTYPE_XDATA then
    let xdata := as_xdata subframe in
    {| m_rs := m_rs d;
       m_calibrated := m_calibrated d;
       m_calibData := m_calibData d;
       m_calibDataBitmap := m_calibDataBitmap d;
       m_sondeData :=
         {| calibrated := calibrated info; serial := serial info;
            burstkill := burstkill info; seq := seq info;
            info_temp := info_temp info; info_rh := info_rh info;
            info_pressure := info_pressure info; info_dewpt := info_dewpt info;
            lat := lat info; lon := lon info; alt := alt info;
            spd := spd info; hdg := hdg info; climb := climb info;
            time := time info;
            auxData := decodeXDATA info (ascii_data xdata) (xdata_len xdata) |} |}
  else d.
End UpdateSondeData.

(** ** [RS41Decoder::run] *)

Section Run.
Context `{Rs41Header} `{Rs41Views} `{Collaborators}.

(** The frame after [descramble(frame); if (m_rs) rsCorrect(frame);].  The
    value of [rsCorrect] is dropped. *)
Definition corrected_frame (d : RS41Decoder) (stack frame : list Z) : list Z :=
  let frame := descramble frame in
  match m_rs d with
  | Some rs => fst (rsCorrect rs stack frame)
  | None => frame
  end.

(** The body of [for (int i=0; i<numFrames; i++)]: the decoder after the
    frame and the record handed to [m_handler]; [None] if the subframe loop
    has not ended. *)
Definition run_frame (stack : list Z) (d : RS41Decoder) (frame : list Z)
  : option (RS41Decoder * SondeData) :=
  let frame := corrected_frame d stack frame in
  match parse_subframes updateSondeData frame d with
  | Some d => Some (d, m_sondeData d)
  | None => None
  end.

(** [run] on the frames that were read: the decoder after them and the
    records handed to [m_handler], one per frame; [outCount] is their
    number. *)
Fixpoint run (stack : list Z) (d : RS41Decoder) (frames : list (list Z))
  : option (RS41Decoder * list SondeData) :=
  match frames with
  | [] => Some (d, [])
  | frame :: frames =>
      match run_frame stack d frame with
      | Some (d, out) =>
          match run stack d frames with
          | Some (d, outs) => Some (d, out :: outs)
          | None => None
          end
      | None => None
      end
  end.
End Run.

(** The labels of the [switch] of [updateSondeData] are distinct, as C
    requires of [case] labels. *)
Definition sftypes_distinct `{Rs41Header} : Prop :=
  NoDup [RS41_SFTYPE_INFO; RS41_SFTYPE_PTU; RS41_SFTYPE_GPSPOS; RS41_SFTYPE_GPSINFO;
         RS41_SFTYPE_XDATA; RS41_SFTYPE_GPSRAW; RS41_SFTYPE_EMPTY].

(** The channels of a PTU subframe hold bytes. *)
Definition ptu_bytes (ptu : RS41Subframe_PTU) : Prop :=
  Forall (Forall is_byte)
    [temp_main ptu; temp_ref1 ptu; temp_ref2 ptu;
     humidity_main ptu; humidity_ref1 ptu; humidity_ref2 ptu;
     temp_humidity_main ptu; temp_humidity_ref1 ptu; temp_humidity_ref2 ptu].

(** The steps of the temperature computation in the words of the
    specification: the normalized ratio of the channels, the two-point linear
    interpolation and the polynomial of the 2nd degree. *)
Definition adc_ratio (main ref1 ref2 : list Z) : float :=
  ((adc main - adc ref1) / (adc ref2 - adc ref1))%F.

Definition interpolate (lo hi ratio : float) : float :=
  (lo + (hi - lo) * ratio)%F.

Definition poly2 (p : list float) (x : float) : float :=
  (fnth p 0 + fnth p 1 * x + fnth p 2 * x * x)%F.

(** The coefficients [coeff[1] .. coeff[6]] of a calibration array. *)
Definition correction_coeff (coeff : list float) : list float :=
  fnth coeff <$> seqZ 1 6.

(** A table and a PTU subframe on which every step of [temp] is exact: the
    references are 0 and 1, the gain is 1, the resistance polynomial is the
    identity, and of the correction coefficients only [t_calib_coeff[6]] is
    not zero.  The channels read main = 2, ref1 = 0, ref2 = 1. *)
Definition unit_calibration : RS41Calibration := {|
  burstkill_timer := 0xFFFF;
  t_ref := [float_of_Z 0; float_of_Z 1];
  t_calib_coeff := [float_of_Z 1; float_of_Z 0; float_of_Z 0; float_of_Z 0;
                    float_of_Z 0; float_of_Z 0; float_of_Z 1];
  t_temp_poly := [float_of_Z 0; float_of_Z 1; float_of_Z 0];
  th_calib_coeff := [float_of_Z 1; float_of_Z 0; float_of_Z 0; float_of_Z 0;
                     float_of_Z 0; float_of_Z 0; float_of_Z 0];
  th_temp_poly := [float_of_Z 0; float_of_Z 1; float_of_Z 0];
  rh_ref := [float_of_Z 0; float_of_Z 1];
  rh_cap_calib := [float_of_Z 1; float_of_Z 1];
  rh_calib_coeff := []
|}.

Definition sample_ptu : RS41Subframe_PTU := {|
  temp_main := [2; 0; 0]; temp_ref1 := [0; 0; 0]; temp_ref2 := [1; 0; 0];
  humidity_main := [5; 0; 0]; humidity_ref1 := [7; 1; 0]; humidity_ref2 := [7; 1; 0];
  temp_humidity_main := [3; 0; 0]; temp_humidity_ref1 := [9; 9; 9];
  temp_humidity_ref2 := [9; 9; 9]
|}.

(** ** The completion bitmap, bit by bit *)

(** The bit of fragment [k]: bit [7 - k mod 8] of byte [k / 8]; set while the
    fragment is missing. *)
Definition fragment_missing (bitmap : list Z) (k : Z) : bool :=
  Z.testbit (rd bitmap (k / 8)) (7 - k mod 8).

(** The bitmap has one bit per fragment and no byte to spare. *)
Definition bitmap_fits `{Rs41Header} : Prop :=
  0 < RS41_CALIB_FRAGCOUNT /\
  8 * (sizeof_calibDataBitmap - 1) < RS41_CALIB_FRAGCOUNT <= 8 * sizeof_calibDataBitmap.

(** The decoder after the first [n] status subframes of a list. *)
Definition calibration_after `{Rs41Header} (d : RS41Decoder)
  (statuses : list RS41Subframe_Status) (n : nat) : RS41Decoder :=
  foldl updateCalibData d (take n statuses).

(** ** Sample inputs *)

Definition blank_sonde : SondeData := {|
  calibrated := false; serial := []; burstkill := 0; seq := 0;
  info_temp := float_of_Z 0; info_rh := float_of_Z 0;
  info_pressure := float_of_Z 0; info_dewpt := float_of_Z 0;
  lat := float_of_Z 0; lon := float_of_Z 0; alt := float_of_Z 0;
  spd := float_of_Z 0; hdg := float_of_Z 0; climb := float_of_Z 0;
  time := 0; auxData := []
|}.

(** The status subframe that carries fragment [k], filled with the byte [k]. *)
Definition sample_status (k : Z) : RS41Subframe_Status := {|
  frame_seq := k;
  status_serial := [0x53; 0x32; 0x30; 0x39; 0x33; 0x32; 0x38; 0x33];
  frag_seq := k;
  frag_data := replicate 16 k
|}.

(** The 51 fragments of a table, in the order 0, 7, 14, ... modulo 51. *)
Definition shuffled_fragments : list RS41Subframe_Status :=
  (fun k => sample_status ((7 * k) mod 51)) <$> seqZ 0 51.

(** A Reed-Solomon decoder that gives every block up and leaves it alone, and
    one that reports success and clears the first symbol. *)
Definition failing_codec : rs_codec := fun blk => (-1, blk).
Definition clearing_codec : rs_codec := fun blk => (231, wr blk 0 0).

(** Little-endian fields of a subframe, unsigned and signed. *)
Definition le_unsigned (bytes : list Z) : Z :=
  foldr (fun b acc => b + 256 * acc) 0 bytes.

Definition le_signed (bytes : list Z) : Z :=
  let v := le_unsigned bytes in
  let bound := 256 ^ Z.of_nat (length bytes) in
  if v <? bound / 2 then v else v - bound.

Definition field (data : list Z) (off len : nat) : list Z := take len (drop off data).

(** Views that place the fields where the RS41 subframes carry them; the
    table is not decoded from its bytes but taken to be [unit_calibration]. *)
Definition sample_views : Rs41Views := {|
  as_status s := {|
    frame_seq := le_unsigned (field (subframe_data s) 0 2);
    status_serial := field (subframe_data s) 2 8;
    frag_seq := rd (subframe_data s) 23;
    frag_data := field (subframe_data s) 24 16 |};
  as_ptu s := {|
    temp_main := field (subframe_data s) 0 3;
    temp_ref1 := field (subframe_data s) 3 3;
    temp_ref2 := field (subframe_data s) 6 3;
    humidity_main := field (subframe_data s) 9 3;
    humidity_ref1 := field (subframe_data s) 12 3;
    humidity_ref2 := field (subframe_data s) 15 3;
    temp_humidity_main := field (subframe_data s) 18 3;
    temp_humidity_ref1 := field (subframe_data s) 21 3;
    temp_humidity_ref2 := field (subframe_data s) 24 3 |};
  as_gpspos s := {|
    gpspos_x := le_signed (field (subframe_data s) 0 4);
    gpspos_y := le_signed (field (subframe_data s) 4 4);
    gpspos_z := le_signed (field (subframe_data s) 8 4);
    gpspos_dx := le_signed (field (subframe_data s) 12 2);
    gpspos_dy := le_signed (field (subframe_data s) 14 2);
    gpspos_dz := le_signed (field (subframe_data s) 16 2) |};
  as_gpsinfo s := {|
    gpsinfo_week := le_unsigned (field (subframe_data s) 0 2);
    gpsinfo_ms := le_unsigned (field (subframe_data s) 2 4) |};
  as_xdata s := {|
    ascii_data := drop 1 (subframe_data s);
    xdata_len := subframe_len s |};
  as_calibration _ := unit_calibration
|}.

(** Stand-ins for the functions of the other libraries. *)
Definition sample_collaborators : Collaborators := {|
  wv_sat_pressure t := t;
  dewpt t _ := t;
  altitude_to_pressure a := (float_of_Z 1000 - a)%F;
  ecef_to_lla x y z := (x, y, z);
  ecef_to_spd_hdg _ _ dx dy dz := (dx, dy, dz);
  gps_time_to_utc week ms := 315964800 + week * 604800 + ms / 1000;
  decodeXDATA _ ascii _ := ascii
|}.

(** The bytes of a subframe on the air: type, length, payload, checksum. *)
Definition subframe_bytes (s : RS41Subframe) : list Z :=
  subframe_type s :: subframe_len s :: take (Z.to_nat (subframe_len s) + 2) (subframe_data s).

(** A corrected standard frame: 56 bytes of header, the flag, then a GPS
    time subframe, a PTU subframe whose checksum has a bit wrong, a GPS
    position subframe, and an empty subframe that claims 255 bytes and so
    would end beyond the payload, with a sealed GPS time subframe inside it. *)
Definition sample_gpsinfo : RS41Subframe := sealed_subframe 0x7C [0x2C; 0x08; 0x10; 0x27; 0; 0].

Definition sample_bad_ptu : RS41Subframe :=
  corrupt_subframe
    (sealed_subframe 0x7A [2;0;0; 0;0;0; 1;0;0; 5;0;0; 1;0;0; 9;0;0; 3;0;0; 1;0;0; 1;0;0]) 3.

Definition sample_gpspos : RS41Subframe :=
  sealed_subframe 0x7B [0x40; 0x42; 0x0F; 0; 0x80; 0x84; 0x1E; 0; 0x10; 0x27; 0; 0;
                        0x64; 0; 0x9C; 0xFF; 0; 0].

Definition sample_payload_frame : list Z :=
  let head := replicate 56 0 ++ [0x0F] in
  let body := subframe_bytes sample_gpsinfo ++ subframe_bytes sample_bad_ptu
              ++ subframe_bytes sample_gpspos
              ++ [0x76; 0xFF] ++ subframe_bytes sample_gpsinfo in
  head ++ body ++ replicate (518 - length head - length body) 0.

(** A sealed PTU subframe whose humidity references are equal. *)
Definition sample_ptu_subframe : RS41Subframe :=
  sealed_subframe 0x7A [2;0;0; 0;0;0; 1;0;0; 5;0;0; 9;0;0; 9;0;0; 3;0;0; 1;0;0; 4;0;0].

(** ** [RS41Decoder::setInput] and the read of [run] *)

(** [setInput], for the members the decoding uses: the record is reset
    ([blank] is the record as [SondeData::init] leaves it), the bitmap is
    made fresh and the flag is lowered; the table is left as it is. *)
Definition setInput `{Rs41Header} (blank : SondeData) (d : RS41Decoder) : RS41Decoder := {|
  m_rs := m_rs d;
  m_calibrated := false;
  m_calibData := m_calibData d;
  m_calibDataBitmap := fresh_bitmap;
  m_sondeData := blank
|}.

(** [(RS41Frame* )(m_in->readBuf + i*sizeof(RS41Frame))], as the bytes of
    that frame. *)
Definition frame_at `{Rs41Header} (readBuf : list Z) (i : Z) : list Z :=
  take (Z.to_nat sizeof_RS41Frame) (drop (Z.to_nat (i * sizeof_RS41Frame)) readBuf).

(** [run] from the value [count] of [m_in->read()] and the buffer that was
    read: the decoder afterwards, the value returned and the records handed to
    [m_handler]. *)
Definition run_read `{Rs41Header} `{Rs41Views} `{Collaborators}
  (stack : list Z) (d : RS41Decoder) (count : Z) (readBuf : list Z)
  : option (RS41Decoder * Z * list SondeData) :=
  if count <? 0 then Some (d, -1, []) else
  let numFrames := Z.quot count sizeof_RS41Frame in
  match run stack d (frame_at readBuf <$> seqZ 0 numFrames) with
  | Some (d, outs) => Some (d, Z.of_nat (length outs), outs)
  | None => None
  end.

(** The decoder of the library leaves bytes in the block. *)
Definition codec_returns_bytes (codec : rs_codec) : Prop :=
  forall blk, Forall is_byte (snd (codec blk)).

(** The subframe types that [updateSondeData] has a case for. *)
Definition handled_type `{Rs41Header} (type : Z) : bool :=
  (type =? RS41_SFTYPE_INFO) || (type =? RS41_SFTYPE_PTU) || (type =? RS41_SFTYPE_GPSPOS)
  || (type =? RS41_SFTYPE_GPSINFO) || (type =? RS41_SFTYPE_XDATA).

(** The subframes of a frame that [run] applies. *)
Definition applied_subframes `{Rs41Header} (frame : list Z) : list RS41Subframe :=
  List.filter crcCheck (in_bounds_subframes frame).

(** The decoder of the library, when the decoder has one, leaves bytes. *)
Definition rs_ready (d : RS41Decoder) : Prop :=
  forall codec, m_rs d = Some codec -> codec_returns_bytes codec.

(** A buffer of two frames for [run]: the sample frame, scrambled or not,
    twice, and 100 bytes of a third frame. *)
Definition sample_read_buffer : list Z :=
  sample_frame ++ sample_frame ++ replicate 100 0x55.

(** The bytes a subframe takes in the payload: header, payload, checksum. *)
Definition subframe_size (s : RS41Subframe) : Z := subframe_len s + 4.

(** The data of the last status subframe of a list that carries fragment
    [k], if there is one. *)
Definition last_fragment (statuses : list RS41Subframe_Status) (k : Z) : option (list Z) :=
  foldl (fun acc s => if frag_seq s =? k then Some (frag_data s) else acc) None statuses.

(** The copy of the fragment stays inside the table. *)
Definition fragment_fits `{Rs41Header} (d : RS41Decoder) (status : RS41Subframe_Status) : Prop :=
  0 <= frag_seq status /\
  (frag_seq status + 1) * RS41_CALIB_FRAGSIZE <= Z.of_nat (length (m_calibData d)).


(** The bytes on the air of a frame: the bytes that [descramble] turns into
    the frame. *)
Definition on_air (frame : list Z) : list Z :=
  (fun '(i, b) => reverse8 (Z.lxor (Z.lxor 0xFF b) (rd _prn (i mod RS41_PRN_PERIOD))))
    <$> zip (seqZ 0 (Z.of_nat (length frame))) frame.

(** A standard frame that carries a raw GPS subframe and an empty subframe
    and nothing else. *)
Definition sample_idle_frame : list Z :=
  let head := replicate 56 0 ++ [0x0F] in
  let body := subframe_bytes (sealed_subframe 0x7D [1; 2; 3])
              ++ subframe_bytes (sealed_subframe 0x76 [0; 0]) in
  head ++ body ++ replicate (518 - length head - length body) 0.

(** The table and the bitmap of the decoder have the sizes of the members
    [m_calibData] and [m_calibDataBitmap]. *)
Definition buffers_sized `{Rs41Header} (d : RS41Decoder) : Prop :=
  Z.of_nat (length (m_calibData d)) = sizeof_RS41Calibration /\
  Z.of_nat (length (m_calibDataBitmap d)) = sizeof_calibDataBitmap.

(** The status subframes among the subframes that [run] applies to a frame
    carry fragment numbers whose copy and whose bit stay inside the table and
    the bitmap. *)
Definition fragments_in_bounds `{Rs41Header} `{Rs41Views} (frame : list Z) : Prop :=
  Forall (fun s => subframe_type s = RS41_SFTYPE_INFO -> fragment_in_bounds (as_status s))
         (applied_subframes frame).

(** A sealed status subframe that carries fragment 5 of the table, and a
    standard frame with that subframe and a GPS time subframe. *)
Definition sample_status_subframe : RS41Subframe :=
  sealed_subframe 0x79
    ([0x10; 0x00] ++ [0x53; 0x32; 0x30; 0x39; 0x33; 0x32; 0x38; 0x33]
     ++ replicate 13 0 ++ [5] ++ replicate 16 0xAB).

Definition sample_status_frame : list Z :=
  let head := replicate 56 0 ++ [0x0F] in
  let body := subframe_bytes sample_status_subframe ++ subframe_bytes sample_gpsinfo in
  head ++ body ++ replicate (518 - length head - length body) 0.

(** A sealed PTU subframe whose temperature references are equal, whose
    humidity references differ and whose references for the temperature of
    the humidity sensor are equal, and a standard frame that carries it
    between a GPS time and a GPS position subframe. *)
Definition sample_degenerate_ptu : RS41Subframe :=
  sealed_subframe 0x7A [2;0;0; 4;0;0; 4;0;0; 5;0;0; 1;0;0; 9;0;0; 3;0;0; 7;0;0; 7;0;0].

Definition sample_degenerate_frame : list Z :=
  let head := replicate 56 0 ++ [0x0F] in
  let body := subframe_bytes sample_gpsinfo ++ subframe_bytes sample_degenerate_ptu
              ++ subframe_bytes sample_gpspos in
  head ++ body ++ replicate (518 - length head - length body) 0.
(** * Properties *)

(** ** Buffers *)

(** Decides a goal built from integer comparisons by cases on each of them. *)
Ltac zcases :=
  repeat match goal with
  | |- context [?a <=? ?b] => destruct (Z.leb_spec a b)
  | |- context [?a <? ?b] => destruct (Z.ltb_spec a b)
  | |- context [?a =? ?b] => destruct (Z.eqb_spec a b)
  end; cbn; try reflexivity; try lia.

Lemma rd_wr_eq buf i v :
  0 <= i < Z.of_nat (length buf) -> rd (wr buf i v) i = v.
Proof.
  intros Hi. unfold rd, wr.
  destruct (i <? 0) eqn:E; [lia|].
  rewrite list_lookup_insert_eq by lia. reflexivity.
Qed.

Lemma rd_wr_ne buf i j v : i <> j -> rd (wr buf i v) j = rd buf j.
Proof.
  intros Hne. unfold rd, wr.
  destruct (i <? 0) eqn:Ei; [reflexivity|].
  destruct (j <? 0) eqn:Ej; [reflexivity|].
  rewrite list_lookup_insert_ne by lia. reflexivity.
Qed.

Lemma length_wr buf i v : length (wr buf i v) = length buf.
Proof. unfold wr. destruct (i <? 0); [reflexivity|apply length_insert]. Qed.

(** ** Descrambling *)

Lemma descramble_tmp_bits b j :
  0 <= j < 8 -> Z.testbit (descramble_tmp b) j = Z.testbit b (7 - j).
Proof.
  intros Hj. unfold descramble_tmp.
  assert (Hs : seqZ 0 8 = [0;1;2;3;4;5;6;7]) by reflexivity.
  rewrite Hs. cbn [foldl]. unfold descramble_bit, u8.
  change 256 with (2 ^ 8).
  repeat (rewrite ?Z.mod_pow2_bits_low, ?Z.lor_spec by lia).
  assert (Hb : forall k, 0 <= k < 8 ->
    Z.testbit (Z.shiftl (Z.land (Z.shiftr b (7 - k)) 1) k) j
    = (j =? k) && Z.testbit b (7 - k)).
  { intros k Hk. rewrite Z.shiftl_spec by lia.
    destruct (Z.eqb_spec j k) as [->|Hne].
    - rewrite Z.sub_diag, Z.land_spec, Z.shiftr_spec by lia.
      change (Z.testbit 1 0) with true. rewrite andb_true_r. reflexivity.
    - destruct (Z.ltb_spec j k).
      + rewrite Z.testbit_neg_r by lia. reflexivity.
      + rewrite Z.land_spec.
        replace (Z.testbit 1 (j - k)) with false; [apply andb_false_r|].
        symmetry. apply (Z.bits_above_log2 1 (j - k)); simpl; lia. }
  rewrite !Hb by lia. rewrite Z.bits_0.
  assert (Hc : j = 0 \/ j = 1 \/ j = 2 \/ j = 3 \/ j = 4 \/ j = 5 \/ j = 6 \/ j = 7) by lia.
  destruct Hc as [->|[->|[->|[->|[->|[->|[->| ->]]]]]]]; cbn [Z.eqb Pos.eqb andb orb];
    rewrite ?orb_false_r; reflexivity.
Qed.

Lemma is_byteb_spec b : is_byteb b = true <-> is_byte b.
Proof. unfold is_byteb, is_byte. rewrite andb_true_iff. lia. Qed.

Lemma Forall_is_byte l : forallb is_byteb l = true -> Forall is_byte l.
Proof.
  intros Hl. apply Forall_forall. intros x Hx.
  apply is_byteb_spec. rewrite forallb_forall in Hl. apply Hl.
  apply list_elem_of_In, Hx.
Qed.

Lemma rd_is_byte buf i : Forall is_byte buf -> is_byte (rd buf i).
Proof.
  intros Hb. unfold rd. destruct (i <? 0); [unfold is_byte; lia|].
  destruct (buf !! Z.to_nat i) as [x|] eqn:E; cbn; [|unfold is_byte; lia].
  eapply Forall_lookup_1; eauto.
Qed.

Lemma byte_high_bit b n : is_byte b -> 8 <= n -> Z.testbit b n = false.
Proof.
  intros [Hl Hu] Hn. destruct (Z.eq_dec b 0) as [->|Hz]; [apply Z.bits_0|].
  apply Z.bits_above_log2; [lia|].
  assert (Z.log2 b < 8) by (apply Z.log2_lt_pow2; lia). lia.
Qed.

Lemma u8_byte b : is_byte b -> u8 b = b.
Proof. intros Hb. unfold u8. apply Z.mod_small. exact Hb. Qed.

Lemma lxor_is_byte a b : is_byte a -> is_byte b -> is_byte (Z.lxor a b).
Proof.
  intros Ha Hb.
  assert (Hn : 0 <= Z.lxor a b) by (apply Z.lxor_nonneg; unfold is_byte in *; lia).
  assert (Hm : Z.lxor a b mod 2 ^ 8 = Z.lxor a b).
  { apply Z.bits_inj'. intros n Hn'. destruct (Z.ltb_spec n 8).
    - rewrite Z.mod_pow2_bits_low by lia. reflexivity.
    - rewrite Z.mod_pow2_bits_high by lia.
      rewrite Z.lxor_spec, !byte_high_bit by assumption. reflexivity. }
  unfold is_byte. rewrite <- Hm. apply Z.mod_pos_bound. lia.
Qed.

(** A loop that rewrites position [i] from its own old content, for
    [i = 0 .. n-1], leaves the length alone and touches each position once. *)
Lemma pointwise_loop (g : Z -> Z -> Z) (buf : list Z) (n : nat) :
  (n <= length buf)%nat ->
  let out := foldl (fun f i => wr f i (g i (rd f i))) buf (seqZ 0 (Z.of_nat n)) in
  length out = length buf /\
  forall i, rd out i = if (0 <=? i) && (i <? Z.of_nat n) then g i (rd buf i) else rd buf i.
Proof.
  induction n as [|n IH]; intros Hn.
  - change (Z.of_nat 0) with 0. cbn. split; [reflexivity|]. intros i.
    destruct ((0 <=? i) && (i <? 0)) eqn:E; [lia|reflexivity].
  - rewrite seqZ_S, foldl_app. cbn [foldl].
    destruct IH as [IHl IHr]; [lia|]. cbn zeta in *.
    set (mid := foldl _ buf (seqZ 0 (Z.of_nat n))) in *.
    split; [rewrite length_wr; exact IHl|].
    intros i. rewrite Z.add_0_l.
    destruct (Z.eq_dec i (Z.of_nat n)) as [->|Hne].
    + rewrite rd_wr_eq by lia. rewrite IHr.
      replace ((0 <=? Z.of_nat n) && (Z.of_nat n <? Z.of_nat n)) with false by zcases.
      replace ((0 <=? Z.of_nat n) && (Z.of_nat n <? Z.of_nat (S n))) with true by zcases.
      reflexivity.
    + rewrite rd_wr_ne by lia. rewrite IHr.
      replace ((0 <=? i) && (i <? Z.of_nat (S n))) with ((0 <=? i) && (i <? Z.of_nat n)) by zcases.
      reflexivity.
Qed.

Lemma descramble_tmp_reverse8 b : is_byte b -> descramble_tmp b = reverse8 b.
Proof.
  intros Hb.
  assert (Hall : forallb (fun x => descramble_tmp x =? reverse8 x) (seqZ 0 256) = true)
    by (vm_compute; reflexivity).
  rewrite forallb_forall in Hall. apply Z.eqb_eq, Hall.
  apply list_elem_of_In, elem_of_seqZ. unfold is_byte in Hb. lia.
Qed.

Lemma reverse8_is_byte b : is_byte b -> is_byte (reverse8 b).
Proof.
  intros Hb.
  assert (Hall : forallb (fun x => is_byteb (reverse8 x)) (seqZ 0 256) = true)
    by (vm_compute; reflexivity).
  rewrite forallb_forall in Hall. apply is_byteb_spec, Hall.
  apply list_elem_of_In, elem_of_seqZ. unfold is_byte in Hb. lia.
Qed.

Lemma reverse8_bits b j :
  is_byte b -> 0 <= j < 8 -> Z.testbit (reverse8 b) j = Z.testbit b (7 - j).
Proof.
  intros Hb Hj. rewrite <- descramble_tmp_reverse8 by assumption.
  apply descramble_tmp_bits, Hj.
Qed.

Lemma reverse8_involutive b : is_byte b -> reverse8 (reverse8 b) = b.
Proof.
  intros Hb. apply Z.bits_inj'. intros n Hn.
  destruct (Z.ltb_spec n 8).
  - rewrite !reverse8_bits by (auto using reverse8_is_byte; lia). f_equal. lia.
  - rewrite !byte_high_bit by auto using reverse8_is_byte. reflexivity.
Qed.

Lemma prn_bytes : Forall is_byte _prn.
Proof. apply Forall_is_byte. vm_compute. reflexivity. Qed.

(** C4. For a raw frame of [sizeof(RS41Frame)] bytes, [descramble] keeps the
    length and replaces the byte [b] at every position [i] by
    [0xFF xor reverse8 b xor _prn[i mod 64]], where bit [j] of [reverse8 b] is
    bit [7-j] of [b]; the result is a total function of the frame, so the
    transform is deterministic and has no error outcome. *)
Theorem C4_descramble_bytes `{Rs41Header} (rawFrame : list Z) :
  Z.of_nat (length rawFrame) = sizeof_RS41Frame ->
  Forall is_byte rawFrame ->
  length (descramble rawFrame) = length rawFrame /\
  forall i, 0 <= i < sizeof_RS41Frame ->
    rd (descramble rawFrame) i
      = Z.lxor (Z.lxor 0xFF (reverse8 (rd rawFrame i))) (rd _prn (i mod 64)) /\
    is_byte (rd (descramble rawFrame) i) /\
    (forall j, 0 <= j < 8 ->
       Z.testbit (reverse8 (rd rawFrame i)) j = Z.testbit (rd rawFrame i) (7 - j)).
Proof.
  intros Hlen Hbytes. unfold descramble, descramble_step.
  rewrite <- Hlen.
  destruct (pointwise_loop
    (fun i b => u8 (Z.lxor (Z.lxor 0xFF (descramble_tmp b)) (rd _prn (i mod RS41_PRN_PERIOD))))
    rawFrame (length rawFrame)) as [Hl Hr]; [lia|].
  cbn zeta in Hl, Hr. split; [exact Hl|].
  intros i Hi. rewrite Hr.
  replace ((0 <=? i) && (i <? Z.of_nat (length rawFrame))) with true by zcases.
  pose proof (rd_is_byte rawFrame i Hbytes) as Hb.
  rewrite descramble_tmp_reverse8 by exact Hb.
  assert (Hx : is_byte (Z.lxor (Z.lxor 0xFF (reverse8 (rd rawFrame i)))
                               (rd _prn (i mod RS41_PRN_PERIOD)))).
  { apply lxor_is_byte; [apply lxor_is_byte|].
    - unfold is_byte; lia.
    - apply reverse8_is_byte, Hb.
    - apply rd_is_byte, prn_bytes. }
  rewrite u8_byte by exact Hx.
  split; [reflexivity|]. split; [exact Hx|].
  intros j Hj. apply reverse8_bits; assumption.
Qed.

Lemma C4_descramble_bytes_witness :
  length (descramble (H := rs41) sample_frame) = length sample_frame /\
  forall i, 0 <= i < 518 ->
    rd (descramble (H := rs41) sample_frame) i
      = Z.lxor (Z.lxor 0xFF (reverse8 (rd sample_frame i))) (rd _prn (i mod 64)) /\
    is_byte (rd (descramble (H := rs41) sample_frame) i) /\
    (forall j, 0 <= j < 8 ->
       Z.testbit (reverse8 (rd sample_frame i)) j = Z.testbit (rd sample_frame i) (7 - j)).
Proof.
  apply (C4_descramble_bytes (H := rs41) sample_frame).
  - vm_compute. reflexivity.
  - apply Forall_is_byte. vm_compute. reflexivity.
Defined.

(** ** The checksum *)

Definition is_u16 (c : Z) : Prop := 0 <= c < 65536.

Lemma high_bit n x k : 0 <= x < 2 ^ n -> n <= k -> Z.testbit x k = false.
Proof.
  intros [Hl Hu] Hk. destruct (Z.eq_dec x 0) as [->|Hz]; [apply Z.bits_0|].
  destruct (Z.ltb_spec n 0).
  - rewrite Z.pow_neg_r in Hu by lia. lia.
  - apply Z.bits_above_log2; [lia|].
    assert (Z.log2 x < n) by (apply Z.log2_lt_pow2; lia). lia.
Qed.

Lemma low_bits_eq n x y :
  0 <= n -> 0 <= x < 2 ^ n -> 0 <= y < 2 ^ n ->
  (forall k, 0 <= k < n -> Z.testbit x k = Z.testbit y k) -> x = y.
Proof.
  intros Hn Hx Hy Hbits. apply Z.bits_inj'. intros k Hk.
  destruct (Z.ltb_spec k n); [apply Hbits; lia|].
  rewrite !(high_bit n) by (assumption || lia). reflexivity.
Qed.

Lemma lxor_bound n a b :
  0 <= n -> 0 <= a < 2 ^ n -> 0 <= b < 2 ^ n -> 0 <= Z.lxor a b < 2 ^ n.
Proof.
  intros Hn Ha Hb.
  assert (Hm : Z.lxor a b mod 2 ^ n = Z.lxor a b).
  { apply Z.bits_inj'. intros k Hk. destruct (Z.ltb_spec k n).
    - rewrite Z.mod_pow2_bits_low by lia. reflexivity.
    - rewrite Z.mod_pow2_bits_high by lia.
      rewrite Z.lxor_spec, !(high_bit n) by (assumption || lia). reflexivity. }
  rewrite <- Hm. apply Z.mod_pos_bound. lia.
Qed.

Lemma lor_bound n a b :
  0 <= n -> 0 <= a < 2 ^ n -> 0 <= b < 2 ^ n -> 0 <= Z.lor a b < 2 ^ n.
Proof.
  intros Hn Ha Hb.
  assert (Hm : Z.lor a b mod 2 ^ n = Z.lor a b).
  { apply Z.bits_inj'. intros k Hk. destruct (Z.ltb_spec k n).
    - rewrite Z.mod_pow2_bits_low by lia. reflexivity.
    - rewrite Z.mod_pow2_bits_high by lia.
      rewrite Z.lor_spec, !(high_bit n) by (assumption || lia). reflexivity. }
  rewrite <- Hm. apply Z.mod_pos_bound. lia.
Qed.

Lemma lxor_cancel_l a x y : Z.lxor a x = Z.lxor a y -> x = y.
Proof.
  intros E. assert (E' : Z.lxor a (Z.lxor a x) = Z.lxor a (Z.lxor a y)) by (f_equal; exact E).
  rewrite <- !Z.lxor_assoc, Z.lxor_nilpotent, !Z.lxor_0_l in E'. exact E'.
Qed.

Lemma u16_range x : is_u16 (u16 x).
Proof. unfold is_u16, u16. apply Z.mod_pos_bound. lia. Qed.

Lemma u16_small x : is_u16 x -> u16 x = x.
Proof. intros Hx. apply Z.mod_small, Hx. Qed.

Lemma crc16_shift_range poly crc : is_u16 (crc16_shift poly crc).
Proof. unfold crc16_shift. destruct (Z.testbit crc 15); apply u16_range. Qed.

(** Bit [k] of the shifted register, for a polynomial of 16 bits. *)
Lemma crc16_shift_bits poly crc k :
  0 <= k < 16 ->
  Z.testbit (crc16_shift poly crc) k
  = xorb (Z.testbit crc (k - 1)) (Z.testbit crc 15 && Z.testbit poly k).
Proof.
  intros Hk. unfold crc16_shift, u16. change 65536 with (2 ^ 16).
  destruct (Z.testbit crc 15) eqn:E.
  - rewrite Z.mod_pow2_bits_low, Z.lxor_spec, Z.shiftl_spec by lia. reflexivity.
  - rewrite Z.mod_pow2_bits_low, Z.shiftl_spec by lia. cbn [andb]. rewrite xorb_false_r.
    reflexivity.
Qed.

(** The shift loses nothing when the polynomial is odd: the bit that left
    the register is the low bit of the result. *)
Lemma crc16_shift_inj poly c1 c2 :
  Z.testbit poly 0 = true -> is_u16 c1 -> is_u16 c2 ->
  crc16_shift poly c1 = crc16_shift poly c2 -> c1 = c2.
Proof.
  intros Hodd H1 H2 E.
  assert (Hb : forall k, 0 <= k < 16 ->
    xorb (Z.testbit c1 (k - 1)) (Z.testbit c1 15 && Z.testbit poly k)
    = xorb (Z.testbit c2 (k - 1)) (Z.testbit c2 15 && Z.testbit poly k)).
  { intros k Hk. rewrite <- !crc16_shift_bits by lia. rewrite E. reflexivity. }
  assert (Htop : Z.testbit c1 15 = Z.testbit c2 15).
  { pose proof (Hb 0 ltac:(lia)) as H0.
    rewrite Hodd, (Z.testbit_neg_r c1), (Z.testbit_neg_r c2) in H0 by lia.
    destruct (Z.testbit c1 15), (Z.testbit c2 15); cbn in H0; congruence. }
  apply (low_bits_eq 16); [lia|exact H1|exact H2|].
  intros k Hk. destruct (Z.eq_dec k 15) as [->|Hne]; [exact Htop|].
  specialize (Hb (k + 1) ltac:(lia)). rewrite Htop in Hb.
  replace (k + 1 - 1) with k in Hb by lia.
  destruct (Z.testbit c1 k), (Z.testbit c2 k),
    (Z.testbit c2 15 && Z.testbit poly (k + 1)); cbn in Hb; congruence.
Qed.

Lemma iter_shift_range poly n crc : is_u16 crc -> is_u16 (Nat.iter n (crc16_shift poly) crc).
Proof. intros Hc. destruct n; [exact Hc|]. cbn. apply crc16_shift_range. Qed.

Lemma iter_shift_inj poly n c1 c2 :
  Z.testbit poly 0 = true -> is_u16 c1 -> is_u16 c2 ->
  Nat.iter n (crc16_shift poly) c1 = Nat.iter n (crc16_shift poly) c2 -> c1 = c2.
Proof.
  intros Hodd H1 H2. induction n as [|n IH]; [trivial|].
  cbn. intros E. apply IH.
  eapply crc16_shift_inj; eauto using iter_shift_range.
Qed.

Lemma crc16_byte_range poly crc b : is_u16 (crc16_byte poly crc b).
Proof. unfold crc16_byte. apply iter_shift_range, u16_range. Qed.

Lemma shifted_byte_u16 b : is_byte b -> is_u16 (Z.shiftl b 8).
Proof. unfold is_byte, is_u16. intros Hb. rewrite Z.shiftl_mul_pow2 by lia. lia. Qed.

Lemma crc16_byte_inj_crc poly b c1 c2 :
  Z.testbit poly 0 = true -> is_byte b -> is_u16 c1 -> is_u16 c2 ->
  crc16_byte poly c1 b = crc16_byte poly c2 b -> c1 = c2.
Proof.
  intros Hodd Hb H1 H2 E. unfold crc16_byte in E.
  apply iter_shift_inj in E; [|exact Hodd|apply u16_range..].
  pose proof (shifted_byte_u16 b Hb) as Hs.
  rewrite !u16_small in E by (apply (lxor_bound 16); (assumption || lia)).
  rewrite (Z.lxor_comm c1), (Z.lxor_comm c2) in E.
  eapply lxor_cancel_l, E.
Qed.

Lemma crc16_byte_inj_byte poly crc b1 b2 :
  Z.testbit poly 0 = true -> is_u16 crc -> is_byte b1 -> is_byte b2 ->
  crc16_byte poly crc b1 = crc16_byte poly crc b2 -> b1 = b2.
Proof.
  intros Hodd Hc H1 H2 E. unfold crc16_byte in E.
  apply iter_shift_inj in E; [|exact Hodd|apply u16_range..].
  pose proof (shifted_byte_u16 b1 H1). pose proof (shifted_byte_u16 b2 H2).
  rewrite !u16_small in E by (apply (lxor_bound 16); (assumption || lia)).
  apply lxor_cancel_l in E. rewrite !Z.shiftl_mul_pow2 in E by lia. lia.
Qed.

Lemma crc16_fold_range poly crc l : is_u16 crc -> is_u16 (foldl (crc16_byte poly) crc l).
Proof.
  revert crc. induction l as [|b l IH]; intros crc Hc; cbn; [exact Hc|].
  apply IH, crc16_byte_range.
Qed.

(** Two registers that differ still differ after the same bytes. *)
Lemma crc16_fold_inj poly l c1 c2 :
  Z.testbit poly 0 = true -> Forall is_byte l -> is_u16 c1 -> is_u16 c2 ->
  foldl (crc16_byte poly) c1 l = foldl (crc16_byte poly) c2 l -> c1 = c2.
Proof.
  intros Hodd Hl. revert c1 c2. induction Hl as [|b l Hb Hl IH]; intros c1 c2 H1 H2 E.
  - exact E.
  - cbn in E. apply IH in E; [|apply crc16_byte_range..].
    eapply crc16_byte_inj_crc; eauto.
Qed.

(** One changed byte changes the checksum. *)
Lemma crc16_fold_one_byte poly init l1 b b' l2 :
  Z.testbit poly 0 = true -> is_u16 init ->
  Forall is_byte l1 -> Forall is_byte l2 -> is_byte b -> is_byte b' -> b <> b' ->
  foldl (crc16_byte poly) init (l1 ++ b :: l2)
  <> foldl (crc16_byte poly) init (l1 ++ b' :: l2).
Proof.
  intros Hodd Hi H1 H2 Hb Hb' Hne E.
  rewrite !foldl_app in E. cbn [foldl] in E.
  apply crc16_fold_inj in E; [|assumption|assumption|apply crc16_byte_range..].
  apply crc16_byte_inj_byte in E; auto using crc16_fold_range.
Qed.

Lemma rd_app_l l t i : 0 <= i < Z.of_nat (length l) -> rd (l ++ t) i = rd l i.
Proof.
  intros Hi. unfold rd. destruct (i <? 0); [reflexivity|].
  rewrite lookup_app_l by lia. reflexivity.
Qed.

Lemma rd_app_r l t i : 0 <= i -> rd (l ++ t) (Z.of_nat (length l) + i) = rd t i.
Proof.
  intros Hi. unfold rd.
  destruct (Z.ltb_spec (Z.of_nat (length l) + i) 0); [lia|].
  destruct (Z.ltb_spec i 0); [lia|].
  rewrite lookup_app_r by lia. do 2 f_equal. lia.
Qed.

Lemma rd_lookup l (n : nat) x : l !! n = Some x -> rd l (Z.of_nat n) = x.
Proof.
  intros E. unfold rd. destruct (Z.ltb_spec (Z.of_nat n) 0); [lia|].
  rewrite Nat2Z.id, E. reflexivity.
Qed.

(** Reading the first [length l] positions gives [l] back. *)
Lemma rd_fmap_prefix l t : rd (l ++ t) <$> seqZ 0 (Z.of_nat (length l)) = l.
Proof.
  apply list_eq. intros n. rewrite list_lookup_fmap.
  destruct (l !! n) as [x|] eqn:E.
  - pose proof (lookup_lt_Some _ _ _ E) as Hn.
    rewrite lookup_seqZ_lt by lia. cbn. f_equal.
    rewrite rd_app_l by lia. apply rd_lookup, E.
  - pose proof (lookup_ge_None_1 _ _ E) as Hn.
    rewrite lookup_seqZ_ge by lia. reflexivity.
Qed.

Lemma lor_shift_add x y : is_byte x -> 0 <= y -> Z.lor x (Z.shiftl y 8) = x + 256 * y.
Proof.
  intros Hx Hy.
  assert (Hd : Z.land x (Z.shiftl y 8) = 0).
  { apply Z.bits_inj'. intros n Hn. rewrite Z.land_spec, Z.bits_0.
    destruct (Z.ltb_spec n 8).
    - rewrite Z.shiftl_spec_low by lia. apply andb_false_r.
    - rewrite byte_high_bit by (assumption || lia). reflexivity. }
  rewrite <- Z.lxor_lor, <- Z.add_nocarry_lxor by exact Hd.
  rewrite Z.shiftl_mul_pow2 by lia. lia.
Qed.

Lemma rd_trailer l a b :
  rd (l ++ [a; b]) (Z.of_nat (length l)) = a /\
  rd (l ++ [a; b]) (Z.of_nat (length l) + 1) = b.
Proof.
  split.
  - rewrite <- (Z.add_0_r (Z.of_nat (length l))). rewrite rd_app_r by lia. reflexivity.
  - rewrite rd_app_r by lia. reflexivity.
Qed.

(** The two bytes of the trailer, low byte first, are the checksum. *)
Lemma le16_join crc :
  is_u16 crc -> u16 (Z.lor (crc mod 256) (Z.shiftl (crc / 256) 8)) = crc.
Proof.
  intros Hc. unfold is_u16 in Hc.
  rewrite lor_shift_add.
  - replace (crc mod 256 + 256 * (crc / 256)) with crc
      by (pose proof (Z.div_mod crc 256); lia).
    apply u16_small, Hc.
  - unfold is_byte. apply Z.mod_pos_bound. lia.
  - apply Z.div_pos; lia.
Qed.

Lemma length_flip_bit buf k : length (flip_bit buf k) = length buf.
Proof. apply length_wr. Qed.

Lemma flip_bit_app l t k :
  0 <= k < 8 * Z.of_nat (length l) -> flip_bit (l ++ t) k = flip_bit l k ++ t.
Proof.
  intros Hk. unfold flip_bit, wr.
  assert (0 <= k / 8 < Z.of_nat (length l)) by (split; [apply Z.div_pos|apply Z.div_lt_upper_bound]; lia).
  destruct (Z.ltb_spec (k / 8) 0); [lia|].
  rewrite rd_app_l by lia. apply insert_app_l. lia.
Qed.

Lemma bit_mask_byte j : 0 <= j < 8 -> is_byte (Z.shiftl 1 j) /\ Z.shiftl 1 j <> 0.
Proof.
  intros Hj. rewrite Z.shiftl_1_l. unfold is_byte.
  assert (2 ^ j < 2 ^ 8) by (apply Z.pow_lt_mono_r; lia).
  assert (0 < 2 ^ j) by (apply Z.pow_pos_nonneg; lia). lia.
Qed.

(** The flipped buffer is the old one with one byte replaced by another. *)
Lemma flip_bit_split l k :
  Forall is_byte l -> 0 <= k < 8 * Z.of_nat (length l) ->
  exists l1 b b' l2,
    l = l1 ++ b :: l2 /\ flip_bit l k = l1 ++ b' :: l2 /\
    is_byte b /\ is_byte b' /\ b <> b' /\ Forall is_byte l1 /\ Forall is_byte l2.
Proof.
  intros Hl Hk.
  assert (Hi : 0 <= k / 8 < Z.of_nat (length l))
    by (split; [apply Z.div_pos|apply Z.div_lt_upper_bound]; lia).
  destruct (lookup_lt_is_Some_2 l (Z.to_nat (k / 8)) ltac:(lia)) as [b Eb].
  pose proof (take_drop_middle _ _ _ Eb) as Hsplit.
  assert (Hrd : rd l (k / 8) = b).
  { rewrite <- (Z2Nat.id (k / 8)) by lia. apply rd_lookup, Eb. }
  destruct (bit_mask_byte (k mod 8)) as [Hm Hnz]; [apply Z.mod_pos_bound; lia|].
  assert (Hb : is_byte b) by (eapply Forall_lookup_1; eauto).
  exists (take (Z.to_nat (k / 8)) l), b, (Z.lxor b (Z.shiftl 1 (k mod 8))),
         (drop (S (Z.to_nat (k / 8))) l).
  split; [symmetry; exact Hsplit|]. split.
  - unfold flip_bit, wr. destruct (Z.ltb_spec (k / 8) 0); [lia|].
    rewrite Hrd. apply insert_take_drop. lia.
  - split; [exact Hb|]. split; [apply lxor_is_byte; assumption|]. split.
    + intros E. apply Hnz. apply (lxor_cancel_l b). rewrite Z.lxor_0_r. symmetry. exact E.
    + split; [apply Forall_take, Hl|apply Forall_drop, Hl].
Qed.

(** C5. [crcCheck] holds exactly when the CCITT-FALSE CRC-16 (polynomial
    0x1021, initial value 0xFFFF) of the [len] payload bytes is the number
    that the two bytes after the payload spell low byte first.  Hence a
    subframe sealed with its own checksum passes, and the same subframe with
    any one payload bit inverted and the trailer kept fails. *)
Theorem C5_crcCheck_ccitt_false (subframe : RS41Subframe) (ty : Z) (payload : list Z) (k : Z) :
  Forall is_byte (subframe_data subframe) ->
  Forall is_byte payload ->
  Z.of_nat (length payload) < 256 ->
  0 <= k < 8 * Z.of_nat (length payload) ->
  (crcCheck subframe = true <->
     crc16 0x1021 0xFFFF (subframe_data subframe) (subframe_len subframe)
     = rd (subframe_data subframe) (subframe_len subframe)
       + 256 * rd (subframe_data subframe) (subframe_len subframe + 1)) /\
  crcCheck (sealed_subframe ty payload) = true /\
  crcCheck (corrupt_subframe (sealed_subframe ty payload) k) = false.
Proof.
  intros Hdata Hpay Hlen Hk.
  assert (Hinit : is_u16 CCITT_FALSE_INIT) by (unfold is_u16, CCITT_FALSE_INIT; lia).
  set (crc := crc16 CCITT_FALSE_POLY CCITT_FALSE_INIT payload (Z.of_nat (length payload))).
  assert (Hcrc : is_u16 crc) by (apply crc16_fold_range, Hinit).
  assert (Hfold : crc = foldl (crc16_byte CCITT_FALSE_POLY) CCITT_FALSE_INIT payload).
  { unfold crc, crc16. rewrite <- (app_nil_r payload) at 1. rewrite rd_fmap_prefix. reflexivity. }
  split; [|split].
  - unfold crcCheck. rewrite Z.eqb_eq.
    pose proof (rd_is_byte _ (subframe_len subframe) Hdata) as Hlo.
    pose proof (rd_is_byte _ (subframe_len subframe + 1) Hdata) as Hhi.
    rewrite lor_shift_add by (unfold is_byte in *; tauto || lia).
    rewrite u16_small by (unfold is_byte, is_u16 in *; lia). reflexivity.
  - unfold crcCheck, sealed_subframe. cbn [subframe_data subframe_len]. fold crc.
    destruct (rd_trailer payload (crc mod 256) (crc / 256)) as [-> ->].
    rewrite le16_join by exact Hcrc. apply Z.eqb_eq.
    unfold crc16. rewrite rd_fmap_prefix. symmetry. exact Hfold.
  - unfold crcCheck, corrupt_subframe, sealed_subframe.
    cbn [subframe_data subframe_len]. fold crc.
    rewrite flip_bit_app by exact Hk.
    rewrite <- (length_flip_bit payload k).
    destruct (rd_trailer (flip_bit payload k) (crc mod 256) (crc / 256)) as [-> ->].
    rewrite le16_join by exact Hcrc. apply Z.eqb_neq.
    unfold crc16. rewrite rd_fmap_prefix. rewrite Hfold.
    destruct (flip_bit_split payload k Hpay Hk)
      as (l1 & b & b' & l2 & E1 & E2 & Hb & Hb' & Hne & H1 & H2).
    rewrite E2, E1.
    intros E. eapply crc16_fold_one_byte; [..|symmetry; exact E]; eauto.
Qed.

Lemma C5_crcCheck_ccitt_false_witness :
  (crcCheck (sealed_subframe 0x7A [1; 2; 3]) = true <->
     crc16 0x1021 0xFFFF (subframe_data (sealed_subframe 0x7A [1; 2; 3])) 3
     = rd (subframe_data (sealed_subframe 0x7A [1; 2; 3])) 3
       + 256 * rd (subframe_data (sealed_subframe 0x7A [1; 2; 3])) (3 + 1)) /\
  crcCheck (sealed_subframe 0x7C [0x12; 0x34; 0x56; 0x78]) = true /\
  crcCheck (corrupt_subframe (sealed_subframe 0x7C [0x12; 0x34; 0x56; 0x78]) 13) = false.
Proof.
  apply (C5_crcCheck_ccitt_false (sealed_subframe 0x7A [1; 2; 3]) 0x7C [0x12; 0x34; 0x56; 0x78] 13).
  - apply Forall_is_byte. vm_compute. reflexivity.
  - apply Forall_is_byte. vm_compute. reflexivity.
  - cbn. lia.
  - cbn. lia.
Defined.

(** ** The subframe loop *)

Section SubframeLoopFacts.
Context `{Rs41Header} {St : Type} (update : St -> RS41Subframe -> St).

Lemma subframe_len_nonneg frame offset :
  Forall is_byte frame -> 0 <= subframe_len (subframe_at frame offset) < 256.
Proof. intros Hb. cbn. apply rd_is_byte, Hb. Qed.

(** With fuel for the bytes that are left, the loop ends, and it has
    applied, in order, the subframes of the walk whose checksum holds. *)
Lemma subframe_loop_filter fuel frame offset (st : St) :
  Forall is_byte frame ->
  Z.max 0 (bytesLeft frame - offset) < Z.of_nat fuel ->
  subframe_loop update fuel frame offset st
  = Some (foldl update st (List.filter crcCheck (frame_subframes fuel frame offset))).
Proof.
  intros Hb. revert offset st. induction fuel as [|fuel IH]; intros offset st Hf; [lia|].
  cbn [subframe_loop frame_subframes].
  destruct (Z.ltb_spec offset (bytesLeft frame)) as [Hlt|Hge]; [|reflexivity].
  pose proof (subframe_len_nonneg frame offset Hb) as Hlen.
  set (sf := subframe_at frame offset) in *.
  replace (offset + (subframe_len sf + 4)) with (offset + subframe_len sf + 4) by lia.
  destruct (Z.gtb_spec (offset + subframe_len sf + 4) (bytesLeft frame)) as [Hout|Hin].
  - destruct (Z.leb_spec (offset + subframe_len sf + 4) (bytesLeft frame)); [lia|].
    reflexivity.
  - destruct (Z.leb_spec (offset + subframe_len sf + 4) (bytesLeft frame)); [|lia].
    cbn [List.filter]. destruct (crcCheck sf); cbn [negb foldl]; apply IH; lia.
Qed.

(** More fuel than the bytes that are left does not change the walk. *)
Lemma frame_subframes_fuel fuel1 fuel2 frame offset :
  Forall is_byte frame ->
  Z.max 0 (bytesLeft frame - offset) < Z.of_nat fuel1 ->
  Z.max 0 (bytesLeft frame - offset) < Z.of_nat fuel2 ->
  frame_subframes fuel1 frame offset = frame_subframes fuel2 frame offset.
Proof.
  intros Hb. revert fuel2 offset.
  induction fuel1 as [|fuel1 IH]; intros fuel2 offset H1 H2; [lia|].
  destruct fuel2 as [|fuel2]; [lia|].
  cbn [frame_subframes].
  destruct (Z.ltb_spec offset (bytesLeft frame)) as [Hlt|Hge]; [|reflexivity].
  pose proof (subframe_len_nonneg frame offset Hb) as Hlen.
  destruct (Z.leb_spec (offset + subframe_len (subframe_at frame offset) + 4) (bytesLeft frame));
    [|reflexivity].
  f_equal. apply IH; lia.
Qed.
End SubframeLoopFacts.

(** C1. On a frame of bytes the subframe loop ends, and the decoder state it
    leaves is the old one updated, in order, with exactly the subframes that
    end within [bytesLeft] (the data length, plus the extension length iff the
    flag says extended) and whose checksum holds.  At a subframe that would
    end beyond the bound the loop stops at once with the state reached so far;
    at a subframe within the bound whose checksum fails the state is kept and
    the loop goes on at the next boundary; otherwise the subframe is applied
    and the loop goes on at the next boundary. *)
Theorem C1_subframe_applied_iff_in_bounds_and_crc
  `{Rs41Header} {St : Type} (update : St -> RS41Subframe -> St)
  (frame : list Z) (st : St) (fuel : nat) (offset : Z) :
  Forall is_byte frame ->
  offset < bytesLeft frame ->
  (* the whole frame *)
  parse_subframes update frame st
    = Some (foldl update st (List.filter crcCheck (in_bounds_subframes frame))) /\
  (forall subframe,
     In subframe (default [] (parse_subframes (fun log s => log ++ [s]) frame []))
     <-> In subframe (in_bounds_subframes frame) /\ crcCheck subframe = true) /\
  (* one turn of the loop at [offset] *)
  (subframe_end frame offset > bytesLeft frame ->
     subframe_loop update (S fuel) frame offset st = Some st /\
     frame_subframes (S fuel) frame offset = []) /\
  (subframe_end frame offset <= bytesLeft frame ->
     frame_subframes (S fuel) frame offset
       = subframe_at frame offset :: frame_subframes fuel frame (subframe_end frame offset) /\
     (crcCheck (subframe_at frame offset) = false ->
        subframe_loop update (S fuel) frame offset st
        = subframe_loop update fuel frame (subframe_end frame offset) st) /\
     (crcCheck (subframe_at frame offset) = true ->
        subframe_loop update (S fuel) frame offset st
        = subframe_loop update fuel frame (subframe_end frame offset)
            (update st (subframe_at frame offset)))).
Proof.
  intros Hb Hoff.
  assert (Hall : forall T (u : T -> RS41Subframe -> T) (s : T),
    parse_subframes u frame s
    = Some (foldl u s (List.filter crcCheck (in_bounds_subframes frame)))).
  { intros T u s. unfold parse_subframes, in_bounds_subframes.
    apply subframe_loop_filter; [exact Hb|lia]. }
  split; [apply Hall|]. split.
  { intros subframe. rewrite Hall. cbn [default].
    assert (Hlog : forall l acc : list RS41Subframe,
      foldl (fun log s => log ++ [s]) acc l = acc ++ l).
    { induction l as [|x l IH]; intros acc; cbn; [symmetry; apply app_nil_r|].
      rewrite IH, <- app_assoc. reflexivity. }
    rewrite Hlog. cbn [app]. apply filter_In. }
  unfold subframe_end. cbn [subframe_loop frame_subframes].
  destruct (Z.ltb_spec offset (bytesLeft frame)) as [_|]; [|lia].
  replace (offset + (subframe_len (subframe_at frame offset) + 4))
    with (offset + subframe_len (subframe_at frame offset) + 4) by lia.
  split.
  - intros Hout.
    destruct (Z.gtb_spec (offset + subframe_len (subframe_at frame offset) + 4) (bytesLeft frame));
      [|lia].
    destruct (Z.leb_spec (offset + subframe_len (subframe_at frame offset) + 4) (bytesLeft frame));
      [lia|].
    split; reflexivity.
  - intros Hin.
    destruct (Z.gtb_spec (offset + subframe_len (subframe_at frame offset) + 4) (bytesLeft frame));
      [lia|].
    destruct (Z.leb_spec (offset + subframe_len (subframe_at frame offset) + 4) (bytesLeft frame));
      [|lia].
    split; [reflexivity|]. split; intros ->; reflexivity.
Qed.

(** ** Reed-Solomon blocks *)

Lemma rs41_layout_ok : frame_layout_ok (H := rs41).
Proof. split; vm_compute; congruence. Qed.

(** A loop that stores [val i] at position [idx i] for [i = 0 .. n-1], the
    positions being distinct and inside the buffer. *)
Lemma scatter_loop (idx val : Z -> Z) (buf : list Z) (n : nat) :
  (forall i, 0 <= i < Z.of_nat n -> 0 <= idx i < Z.of_nat (length buf)) ->
  (forall i j, 0 <= i < Z.of_nat n -> 0 <= j < Z.of_nat n -> idx i = idx j -> i = j) ->
  let out := foldl (fun f i => wr f (idx i) (val i)) buf (seqZ 0 (Z.of_nat n)) in
  length out = length buf /\
  (forall i, 0 <= i < Z.of_nat n -> rd out (idx i) = val i) /\
  (forall p, (forall i, 0 <= i < Z.of_nat n -> idx i <> p) -> rd out p = rd buf p).
Proof.
  induction n as [|n IH]; intros Hin Hinj.
  - change (Z.of_nat 0) with 0. cbn. split; [reflexivity|]. split; [lia|reflexivity].
  - rewrite seqZ_S, foldl_app. cbn [foldl]. rewrite Z.add_0_l.
    destruct IH as (IHl & IHw & IHo); [intros; apply Hin; lia|intros; apply Hinj; lia|].
    cbn zeta in *. set (mid := foldl _ buf (seqZ 0 (Z.of_nat n))) in *.
    split; [rewrite length_wr; exact IHl|]. split.
    + intros i Hi. destruct (Z.eq_dec i (Z.of_nat n)) as [->|Hne].
      * apply rd_wr_eq. rewrite IHl. apply Hin. lia.
      * rewrite rd_wr_ne; [apply IHw; lia|].
        intros E. apply Hinj in E; lia.
    + intros p Hp. rewrite rd_wr_ne by (apply Hp; lia).
      apply IHo. intros i Hi. apply Hp. lia.
Qed.

Lemma scatter_loop_Z (idx val : Z -> Z) (buf : list Z) (n : Z) :
  (forall i, 0 <= i < n -> 0 <= idx i < Z.of_nat (length buf)) ->
  (forall i j, 0 <= i < n -> 0 <= j < n -> idx i = idx j -> i = j) ->
  let out := foldl (fun f i => wr f (idx i) (val i)) buf (seqZ 0 n) in
  length out = length buf /\
  (forall i, 0 <= i < n -> rd out (idx i) = val i) /\
  (forall p, (forall i, 0 <= i < n -> idx i <> p) -> rd out p = rd buf p).
Proof.
  intros Hin Hinj. destruct (Z.ltb_spec n 0) as [Hneg|Hpos].
  - assert (E : seqZ 0 n = []).
    { apply length_zero_iff_nil. rewrite length_seqZ. lia. }
    rewrite E. cbn. split; [reflexivity|]. split; [lia|reflexivity].
  - rewrite <- (Z2Nat.id n) by lia.
    apply scatter_loop; rewrite Z2Nat.id by lia; assumption.
Qed.

Section ReedSolomonFacts.
Context `{Rs41Header}.
Hypothesis layout : frame_layout_ok.

Lemma rs_data_index_inj block i j : rs_data_index block i = rs_data_index block j -> i = j.
Proof.
  pose proof (layout_interleaving layout). unfold rs_data_index. intros E.
  assert (RS41_REEDSOLOMON_INTERLEAVING * (i - j) = 0) by lia. nia.
Qed.

(** Symbols of different blocks live at different indices. *)
Lemma rs_data_index_block b1 b2 i j :
  0 <= b1 < RS41_REEDSOLOMON_INTERLEAVING -> 0 <= b2 < RS41_REEDSOLOMON_INTERLEAVING ->
  rs_data_index b1 i = rs_data_index b2 j -> b1 = b2.
Proof.
  unfold rs_data_index. intros H1 H2 E.
  pose proof (layout_interleaving layout).
  assert (RS41_REEDSOLOMON_INTERLEAVING * (j - i) = b1 - b2) by lia.
  destruct (Z.lt_trichotomy i j) as [Hlt|[Heq|Hgt]]; nia.
Qed.

Lemma rs_chunk_len_bounds frame :
  0 <= rs_chunk_len frame <= RS41_REEDSOLOMON_K /\
  RS41_REEDSOLOMON_INTERLEAVING * rs_chunk_len frame <= bytesLeft frame + 1.
Proof.
  destruct layout. unfold rs_chunk_len, bytesLeft.
  destruct (extended_flag frame =? RS41_FLAG_EXTENDED); cbn [negb].
  - lia.
  - rewrite Z.quot_div_nonneg in * by lia.
    pose proof (Z.mul_div_le (RS41_DATA_LEN + 1) RS41_REEDSOLOMON_INTERLEAVING
                  layout_interleaving0) as Hm.
    assert (Hd : 0 <= (RS41_DATA_LEN + 1) / RS41_REEDSOLOMON_INTERLEAVING)
      by (apply Z.div_pos; lia).
    split; [split; assumption|]. rewrite Z.add_0_r. exact Hm.
Qed.

Lemma rs_data_index_range frame block i :
  0 <= block < RS41_REEDSOLOMON_INTERLEAVING -> 0 <= i < rs_chunk_len frame ->
  -1 <= rs_data_index block i < bytesLeft frame.
Proof.
  intros Hb Hi. pose proof (rs_chunk_len_bounds frame) as [_ Hc].
  unfold rs_data_index. nia.
Qed.

Lemma bytesLeft_bound frame :
  RS41_DATA_LEN <= bytesLeft frame <= RS41_DATA_LEN + RS41_XDATA_LEN.
Proof.
  destruct layout. unfold bytesLeft.
  destruct (extended_flag frame =? RS41_FLAG_EXTENDED); lia.
Qed.

Lemma rs_chunk_len_ok frame :
  0 <= rs_chunk_len frame <= RS41_REEDSOLOMON_K /\
  RS41_REEDSOLOMON_INTERLEAVING * rs_chunk_len frame
    <= RS41_DATA_LEN + RS41_XDATA_LEN + 1.
Proof.
  pose proof (rs_chunk_len_bounds frame) as [Hc Hb].
  pose proof (bytesLeft_bound frame). split; [exact Hc|lia].
Qed.
End ReedSolomonFacts.

Section ReedSolomonLoops.
Context `{Rs41Header}.
Hypothesis layout : frame_layout_ok.

Variables (frame rsBlock : list Z) (chunk_len block : Z).
Hypothesis frame_size : Z.of_nat (length frame) = sizeof_RS41Frame.
Hypothesis chunk_ok :
  0 <= chunk_len <= RS41_REEDSOLOMON_K /\
  RS41_REEDSOLOMON_INTERLEAVING * chunk_len <= RS41_DATA_LEN + RS41_XDATA_LEN + 1.
Hypothesis block_ok : 0 <= block < RS41_REEDSOLOMON_INTERLEAVING.

(** Deinterleaving fills [rsBlock] with the symbols and the parity bytes of
    the block and keeps its size. *)
Lemma rs_deinterleave_spec :
  Z.of_nat (length rsBlock) = RS41_REEDSOLOMON_N ->
  length (rs_deinterleave frame rsBlock chunk_len block) = length rsBlock /\
  (forall i, 0 <= i < chunk_len ->
     rd (rs_deinterleave frame rsBlock chunk_len block) i
     = frame_data frame (rs_data_index block i)) /\
  (forall i, 0 <= i < RS41_REEDSOLOMON_T ->
     rd (rs_deinterleave frame rsBlock chunk_len block) (RS41_REEDSOLOMON_K + i)
     = frame_rs_checksum frame (i + RS41_REEDSOLOMON_T * block)).
Proof.
  intros Hn. destruct layout. unfold rs_deinterleave.
  destruct (scatter_loop_Z (fun i => i)
              (fun i => frame_data frame (rs_data_index block i)) rsBlock chunk_len)
    as (L1 & W1 & O1); [lia|lia|].
  cbn zeta in *. set (b1 := foldl _ rsBlock (seqZ 0 chunk_len)) in *.
  destruct (scatter_loop_Z (fun i => RS41_REEDSOLOMON_K + i)
              (fun i => frame_rs_checksum frame (i + RS41_REEDSOLOMON_T * block))
              b1 RS41_REEDSOLOMON_T)
    as (L2 & W2 & O2); [lia|lia|].
  cbn zeta in *. split; [congruence|]. split.
  - intros i Hi. rewrite O2 by lia. apply W1, Hi.
  - intros i Hi. apply W2, Hi.
Qed.

(** Reinterleaving stores the symbols and the parity bytes of the block
    back, and touches nothing else. *)
Lemma rs_reinterleave_spec :
  length (rs_reinterleave frame rsBlock chunk_len block) = length frame /\
  (forall i, 0 <= i < chunk_len ->
     frame_data (rs_reinterleave frame rsBlock chunk_len block) (rs_data_index block i)
     = rd rsBlock i) /\
  (forall i, 0 <= i < RS41_REEDSOLOMON_T ->
     frame_rs_checksum (rs_reinterleave frame rsBlock chunk_len block)
                       (i + RS41_REEDSOLOMON_T * block)
     = rd rsBlock (RS41_REEDSOLOMON_K + i)) /\
  (forall p,
     (forall i, 0 <= i < chunk_len -> offsetof_data + rs_data_index block i <> p) ->
     (forall i, 0 <= i < RS41_REEDSOLOMON_T ->
        offsetof_rs_checksum + (i + RS41_REEDSOLOMON_T * block) <> p) ->
     rd (rs_reinterleave frame rsBlock chunk_len block) p = rd frame p).
Proof.
  pose proof (rs_data_index_inj layout block) as Hinj.
  destruct layout. unfold rs_reinterleave, set_frame_data, set_frame_rs_checksum.
  assert (Hidx : forall i, 0 <= i < chunk_len ->
    -1 <= rs_data_index block i < RS41_DATA_LEN + RS41_XDATA_LEN)
    by (intros i Hi; unfold rs_data_index; nia).
  assert (Hpar : forall i, 0 <= i < RS41_REEDSOLOMON_T ->
    0 <= i + RS41_REEDSOLOMON_T * block
      < RS41_REEDSOLOMON_T * RS41_REEDSOLOMON_INTERLEAVING)
    by (intros i Hi; nia).
  destruct (scatter_loop_Z (fun i => offsetof_data + rs_data_index block i)
              (fun i => rd rsBlock i) frame chunk_len)
    as (L1 & W1 & O1).
  { intros i Hi. specialize (Hidx i Hi). lia. }
  { intros i j Hi Hj E. apply Hinj. lia. }
  cbn zeta in *. set (f1 := foldl _ frame (seqZ 0 chunk_len)) in *.
  destruct (scatter_loop_Z (fun i => offsetof_rs_checksum + (i + RS41_REEDSOLOMON_T * block))
              (fun i => rd rsBlock (RS41_REEDSOLOMON_K + i)) f1 RS41_REEDSOLOMON_T)
    as (L2 & W2 & O2).
  { intros i Hi. specialize (Hpar i Hi). lia. }
  { intros i j Hi Hj E. lia. }
  cbn zeta in *. split; [congruence|]. split; [|split].
  - intros i Hi. unfold frame_data. rewrite O2.
    + apply W1, Hi.
    + intros j Hj. specialize (Hidx i Hi). specialize (Hpar j Hj). lia.
  - intros i Hi. unfold frame_rs_checksum. apply W2, Hi.
  - intros p Hd Hp. rewrite O2 by exact Hp. apply O1, Hd.
Qed.
End ReedSolomonLoops.

Section RsCorrectFacts.
Context `{Rs41Header}.
Hypothesis layout : frame_layout_ok.

Variables (m_rs : rs_codec) (stack frame : list Z).
Hypothesis frame_size : Z.of_nat (length frame) = sizeof_RS41Frame.
Hypothesis stack_size : Z.of_nat (length stack) = RS41_REEDSOLOMON_N.
Hypothesis keeps : codec_keeps_size m_rs.

Let chunk_len := rs_chunk_len frame.
Let before := rs_before m_rs stack frame.
Let result := rs_decode_result m_rs stack frame.

Let chunk_len_ok := rs_chunk_len_ok layout frame.

(** A block's write-back leaves the symbols and parity bytes of the other
    blocks alone. *)
Lemma rs_reinterleave_other f blk n b :
  Z.of_nat (length f) = sizeof_RS41Frame ->
  0 <= n < RS41_REEDSOLOMON_INTERLEAVING ->
  0 <= b < RS41_REEDSOLOMON_INTERLEAVING -> b <> n ->
  (forall i, 0 <= i < chunk_len ->
     frame_data (rs_reinterleave f blk chunk_len n) (rs_data_index b i)
     = frame_data f (rs_data_index b i)) /\
  (forall i, 0 <= i < RS41_REEDSOLOMON_T ->
     frame_rs_checksum (rs_reinterleave f blk chunk_len n) (i + RS41_REEDSOLOMON_T * b)
     = frame_rs_checksum f (i + RS41_REEDSOLOMON_T * b)).
Proof.
  intros Hf Hn Hb Hne.
  destruct (rs_reinterleave_spec layout f blk chunk_len n Hf chunk_len_ok Hn)
    as (_ & _ & _ & Hother).
  pose proof chunk_len_ok as [Hc1 Hc2].
  pose proof (layout_rs_before_data layout). pose proof (layout_rs_checksum layout).
  pose proof (layout_interleaving layout). pose proof (layout_t layout).
  assert (Hidx : forall b' i, 0 <= b' < RS41_REEDSOLOMON_INTERLEAVING -> 0 <= i < chunk_len ->
    -1 <= rs_data_index b' i) by (intros b' i ? ?; unfold rs_data_index; nia).
  assert (Hpar : forall b' i, 0 <= b' < RS41_REEDSOLOMON_INTERLEAVING ->
    0 <= i < RS41_REEDSOLOMON_T ->
    0 <= i + RS41_REEDSOLOMON_T * b' < RS41_REEDSOLOMON_T * RS41_REEDSOLOMON_INTERLEAVING)
    by (intros b' i ? ?; nia).
  split; intros i Hi.
  - unfold frame_data. apply Hother.
    + intros j Hj E. apply Hne. symmetry.
      apply (rs_data_index_block layout n b j i Hn Hb). lia.
    + intros j Hj. specialize (Hidx b i Hb Hi). specialize (Hpar n j Hn Hj). lia.
  - unfold frame_rs_checksum. apply Hother.
    + intros j Hj. specialize (Hidx n j Hn Hj). specialize (Hpar b i Hb Hi). lia.
    + intros j Hj E. apply Hne.
      assert (RS41_REEDSOLOMON_T * (b - n) = j - i) by lia.
      destruct (Z.lt_trichotomy b n) as [?|[?|?]]; [nia|assumption|nia].
Qed.

Lemma rs_before_succ (n : nat) :
  before (Z.of_nat (S n))
  = rs_block_step m_rs chunk_len (before (Z.of_nat n)) (Z.of_nat n).
Proof.
  unfold before, rs_before. rewrite seqZ_S, foldl_app. cbn [foldl].
  rewrite Z.add_0_l. reflexivity.
Qed.

Lemma rs_block_step_result (n : Z) :
  rs_block_step m_rs chunk_len (before n) n
  = {| rs_frame := rs_reinterleave (rs_frame (before n)) (snd (result n)) chunk_len n;
       rs_block := snd (result n);
       rs_valid := if fst (result n) <? 0 then false else rs_valid (before n) |}.
Proof.
  unfold rs_block_step, result, rs_decode_result. fold chunk_len. fold before.
  destruct (m_rs (rs_decode_input chunk_len (before n) n)) as [ret blk]. reflexivity.
Qed.

(** The state of the loop before block [n]: the blocks below [n] hold what
    the decoder returned for them, the blocks from [n] on are as received,
    and [valid] tells whether a decode has failed so far. *)
Lemma rs_loop_invariant (n : nat) :
  Z.of_nat n <= RS41_REEDSOLOMON_INTERLEAVING ->
  let s := before (Z.of_nat n) in
  Z.of_nat (length (rs_frame s)) = sizeof_RS41Frame /\
  Z.of_nat (length (rs_block s)) = RS41_REEDSOLOMON_N /\
  (rs_valid s = false <-> exists b, 0 <= b < Z.of_nat n /\ fst (result b) < 0) /\
  (forall b i, 0 <= b < Z.of_nat n -> 0 <= i < chunk_len ->
     frame_data (rs_frame s) (rs_data_index b i) = rd (snd (result b)) i) /\
  (forall b i, 0 <= b < Z.of_nat n -> 0 <= i < RS41_REEDSOLOMON_T ->
     frame_rs_checksum (rs_frame s) (i + RS41_REEDSOLOMON_T * b)
     = rd (snd (result b)) (RS41_REEDSOLOMON_K + i)) /\
  (forall b i, Z.of_nat n <= b < RS41_REEDSOLOMON_INTERLEAVING -> 0 <= i < chunk_len ->
     frame_data (rs_frame s) (rs_data_index b i) = frame_data frame (rs_data_index b i)) /\
  (forall b i, Z.of_nat n <= b < RS41_REEDSOLOMON_INTERLEAVING ->
     0 <= i < RS41_REEDSOLOMON_T ->
     frame_rs_checksum (rs_frame s) (i + RS41_REEDSOLOMON_T * b)
     = frame_rs_checksum frame (i + RS41_REEDSOLOMON_T * b)).
Proof.
  induction n as [|n IH]; intros Hn; cbn zeta.
  - change (Z.of_nat 0) with 0. unfold before, rs_before. cbn [seqZ foldl].
    change (seqZ 0 0) with (@nil Z). cbn [foldl rs_entry rs_frame rs_block rs_valid].
    split; [exact frame_size|]. split.
    { destruct (negb _); [|exact stack_size].
      rewrite length_replicate, Z2Nat.id; [reflexivity|].
      pose proof (layout_n layout). pose proof (layout_k layout).
      pose proof (layout_t layout). lia. }
    split; [split; [discriminate|intros (b & Hb & _); lia]|].
    repeat split; intros; try lia; reflexivity.
  - destruct IH as (Lf & Lb & Hv & Hd & Hp & Hd' & Hp'); [lia|]. cbn zeta in *.
    rewrite rs_before_succ, rs_block_step_result.
    cbn [rs_frame rs_block rs_valid].
    set (s := before (Z.of_nat n)) in *. set (r := result (Z.of_nat n)) in *.
    assert (Hblock : 0 <= Z.of_nat n < RS41_REEDSOLOMON_INTERLEAVING) by lia.
    destruct (rs_reinterleave_spec layout (rs_frame s) (snd r) chunk_len (Z.of_nat n)
                Lf chunk_len_ok Hblock) as (L & Wd & Wp & _).
    split; [lia|]. split.
    { unfold r, result, rs_decode_result. rewrite keeps. fold chunk_len. fold before.
      unfold rs_decode_input.
      destruct (rs_deinterleave_spec layout (rs_frame (before (Z.of_nat n)))
                  (rs_block (before (Z.of_nat n))) chunk_len (Z.of_nat n)
                  chunk_len_ok Lb) as (Ld & _). fold s in Ld |- *. lia. }
    split.
    { destruct (Z.ltb_spec (fst r) 0) as [Hneg|Hok].
      - split; [intros _; exists (Z.of_nat n); split; [lia|exact Hneg]|reflexivity].
      - rewrite Hv. split; intros (b & Hb & Hr).
        + exists b. split; [lia|exact Hr].
        + exists b. split; [|exact Hr].
          destruct (Z.eq_dec b (Z.of_nat n)) as [->|]; [fold r in Hr; lia|lia]. }
    split; [|split; [|split]].
    + intros b i Hb Hi. destruct (Z.eq_dec b (Z.of_nat n)) as [->|Hne].
      * apply Wd, Hi.
      * destruct (rs_reinterleave_other (rs_frame s) (snd r) (Z.of_nat n) b Lf Hblock
                    ltac:(lia) Hne) as [Od _].
        rewrite Od by exact Hi. apply Hd; lia.
    + intros b i Hb Hi. destruct (Z.eq_dec b (Z.of_nat n)) as [->|Hne].
      * apply Wp, Hi.
      * destruct (rs_reinterleave_other (rs_frame s) (snd r) (Z.of_nat n) b Lf Hblock
                    ltac:(lia) Hne) as [_ Op].
        rewrite Op by exact Hi. apply Hp; lia.
    + intros b i Hb Hi.
      destruct (rs_reinterleave_other (rs_frame s) (snd r) (Z.of_nat n) b Lf Hblock
                  ltac:(lia) ltac:(lia)) as [Od _].
      rewrite Od by exact Hi. apply Hd'; lia.
    + intros b i Hb Hi.
      destruct (rs_reinterleave_other (rs_frame s) (snd r) (Z.of_nat n) b Lf Hblock
                  ltac:(lia) ltac:(lia)) as [_ Op].
      rewrite Op by exact Hi. apply Hp'; lia.
Qed.
End RsCorrectFacts.

(** ** Single-precision conversions *)

Lemma digits2_pos_iter_xO (k m : positive) :
  digits2_pos (Pos.iter xO m k) = (digits2_pos m + k)%positive.
Proof.
  induction k as [|k IH] using Pos.peano_ind.
  - cbn. lia.
  - rewrite Pos.iter_succ. cbn [digits2_pos]. rewrite IH. lia.
Qed.

Lemma digits2_pos_bound (m : positive) :
  forall k, 0 <= k -> Z.pos m < 2 ^ k -> Z.pos (digits2_pos m) <= k.
Proof.
  induction m as [m IH|m IH|]; intros k Hk Hm; cbn [digits2_pos].
  - assert (k <> 0) by (intros ->; cbn in Hm; lia).
    assert (Z.pos m < 2 ^ (k - 1)).
    { replace k with (Z.succ (k - 1)) in Hm by lia. rewrite Z.pow_succ_r in Hm by lia. lia. }
    specialize (IH (k - 1) ltac:(lia) ltac:(assumption)). lia.
  - assert (k <> 0) by (intros ->; cbn in Hm; lia).
    assert (Z.pos m < 2 ^ (k - 1)).
    { replace k with (Z.succ (k - 1)) in Hm by lia. rewrite Z.pow_succ_r in Hm by lia. lia. }
    specialize (IH (k - 1) ltac:(lia) ltac:(assumption)). lia.
  - assert (k <> 0) by (intros ->; cbn in Hm; lia). lia.
Qed.

(** A mantissa of exactly 24 digits with an exponent in range needs no
    rounding. *)
Lemma binary_round_aux_exact s m e :
  Z.pos (digits2_pos m) = 24 -> -149 <= e <= 104 ->
  binary_round_aux 24 128 s (Z.pos m) e loc_Exact = S754_finite s m e.
Proof.
  intros Hd He. unfold binary_round_aux, shr_fexp, Zdigits2, fexp, emin.
  rewrite Hd.
  replace (Z.max (24 + e - 24) (3 - 128 - 24) - e) with 0 by lia.
  cbn [shr shr_record_of_loc shr_m loc_of_shr_record round_nearest_even shr_r shr_s].
  rewrite Hd.
  replace (Z.max (24 + e - 24) (3 - 128 - 24) - e) with 0 by lia.
  cbn [shr shr_m].
  destruct (Z.leb_spec e (128 - 24)); [reflexivity|lia].
Qed.

(** An integer of at most 24 bits converts to zero or to a finite float. *)
Lemma float_of_Z_finite n :
  0 <= n < 2 ^ 24 ->
  float_of_Z n = S754_zero false \/ exists m e, float_of_Z n = S754_finite false m e.
Proof.
  intros Hn. destruct n as [|p|p]; [left; reflexivity| |lia]. right.
  unfold float_of_Z, binary_normalize, binary_round.
  pose proof (digits2_pos_bound p 24 ltac:(lia) ltac:(lia)) as Hd.
  unfold fexp, emin.
  replace (Z.max (Z.pos (digits2_pos p) + 0 - 24) (3 - 128 - 24))
    with (Z.pos (digits2_pos p) - 24) by lia.
  unfold shl_align.
  destruct (Z.pos (digits2_pos p) - 24 - 0) as [|q|q] eqn:Eq; [| lia |].
  - rewrite binary_round_aux_exact by lia. eauto.
  - rewrite binary_round_aux_exact; [eauto| |lia].
    rewrite digits2_pos_iter_xO. lia.
Qed.

Lemma adc_count_range b : Forall is_byte b -> 0 <= adc_count b < 2 ^ 24.
Proof.
  intros Hb. unfold adc_count, u32.
  pose proof (rd_is_byte b 0 Hb) as H0. pose proof (rd_is_byte b 1 Hb) as H1.
  pose proof (rd_is_byte b 2 Hb) as H2. unfold is_byte in *.
  rewrite (Z.mod_small (rd b 0)), (Z.mod_small (rd b 1)), (Z.mod_small (rd b 2)) by lia.
  rewrite !Z.shiftl_mul_pow2 by lia.
  rewrite (Z.mod_small (rd b 1 * 2 ^ 8)), (Z.mod_small (rd b 2 * 2 ^ 16)) by lia.
  pose proof (fun x y => lor_bound 24 x y ltac:(lia)) as Hor.
  assert (0 <= Z.lor (Z.lor (rd b 0) (rd b 1 * 2 ^ 8)) (rd b 2 * 2 ^ 16) < 2 ^ 24)
    by (apply Hor; [apply Hor|]; lia).
  rewrite Z.mod_small; lia.
Qed.

(** Equal channels have a zero span: [adc_ref2 - adc_ref1 == 0] holds. *)
Lemma equal_channels_zero_span ref1 ref2 :
  Forall is_byte ref1 -> Forall is_byte ref2 ->
  adc_count ref1 = adc_count ref2 ->
  fis_zero (adc ref2 - adc ref1)%F = true.
Proof.
  intros H1 H2 E. unfold adc. rewrite E.
  destruct (float_of_Z_finite (adc_count ref2) (adc_count_range ref2 H2))
    as [->|(m & e & ->)]; [reflexivity|].
  unfold fsub, SFsub. cbn [cond_Zopp]. rewrite Z.sub_diag. reflexivity.
Qed.

(** ** Telemetry *)

Section TelemetryFacts.
Context `{Rs41Header} `{Rs41Views} `{Collaborators}.

Lemma pressure_not_positive ptu : fis_pos (pressure ptu) = false.
Proof. reflexivity. Qed.

Lemma sftypes_ne :
  sftypes_distinct ->
  RS41_SFTYPE_INFO <> RS41_SFTYPE_PTU /\ RS41_SFTYPE_INFO <> RS41_SFTYPE_GPSPOS /\
  RS41_SFTYPE_PTU <> RS41_SFTYPE_GPSPOS.
Proof.
  unfold sftypes_distinct. rewrite !NoDup_cons, !elem_of_cons. intuition congruence.
Qed.

(** Only the GPS position case writes the pressure. *)
Lemma updateSondeData_pressure_kept d subframe :
  subframe_type subframe <> RS41_SFTYPE_GPSPOS ->
  info_pressure (m_sondeData (updateSondeData d subframe)) = info_pressure (m_sondeData d).
Proof.
  intros Hty. unfold updateSondeData.
  destruct (subframe_type subframe =? RS41_SFTYPE_INFO); [reflexivity|].
  destruct (subframe_type subframe =? RS41_SFTYPE_PTU); [reflexivity|].
  destruct (Z.eqb_spec (subframe_type subframe) RS41_SFTYPE_GPSPOS); [contradiction|].
  destruct (subframe_type subframe =? RS41_SFTYPE_GPSINFO); [reflexivity|].
  destruct (subframe_type subframe =? RS41_SFTYPE_XDATA); reflexivity.
Qed.

Lemma updateSondeData_gpspos d subframe :
  sftypes_distinct ->
  subframe_type subframe = RS41_SFTYPE_GPSPOS ->
  info_pressure (m_sondeData (updateSondeData d subframe))
  = altitude_to_pressure (alt (m_sondeData (updateSondeData d subframe))).
Proof.
  intros Hd Hty. destruct (sftypes_ne Hd) as (_ & Hne1 & Hne2).
  unfold updateSondeData. rewrite Hty.
  destruct (Z.eqb_spec RS41_SFTYPE_GPSPOS RS41_SFTYPE_INFO); [congruence|].
  destruct (Z.eqb_spec RS41_SFTYPE_GPSPOS RS41_SFTYPE_PTU); [congruence|].
  rewrite Z.eqb_refl.
  destruct (ecef_to_lla _ _ _) as [[la lo] al].
  destruct (ecef_to_spd_hdg _ _ _ _ _) as [[sp hd] cl]. reflexivity.
Qed.

Lemma updateSondeData_ptu d subframe :
  sftypes_distinct ->
  subframe_type subframe = RS41_SFTYPE_PTU ->
  let calib := as_calibration (m_calibData d) in
  let info := m_sondeData (updateSondeData d subframe) in
  info_temp info = temp calib (as_ptu subframe) /\
  info_rh info = rh calib (as_ptu subframe) /\
  info_dewpt info = dewpt (info_temp info) (info_rh info).
Proof.
  intros Hd Hty. destruct (sftypes_ne Hd) as (Hne1 & _ & _).
  unfold updateSondeData. rewrite Hty.
  destruct (Z.eqb_spec RS41_SFTYPE_PTU RS41_SFTYPE_INFO); [congruence|].
  rewrite Z.eqb_refl. cbn. repeat split; reflexivity.
Qed.

(** A run of updates none of which is a GPS position keeps the pressure. *)
Lemma fold_pressure_kept subframes d :
  Forall (fun s => subframe_type s <> RS41_SFTYPE_GPSPOS) subframes ->
  info_pressure (m_sondeData (foldl updateSondeData d subframes))
  = info_pressure (m_sondeData d).
Proof.
  intros Hs. revert d. induction Hs as [|s l Hs Hl IH]; intros d; cbn; [reflexivity|].
  rewrite IH. apply updateSondeData_pressure_kept, Hs.
Qed.
End TelemetryFacts.

(** C9. [pressure] never returns a positive value, so no PTU subframe writes
    the pressure field: a subframe of any type other than GPS position leaves
    it as it was, a GPS position subframe sets it to the estimate from the new
    altitude, and a frame whose applied subframes hold no GPS position leaves
    it as it was. *)
Theorem C9_pressure_only_from_altitude
  `{Rs41Header} `{Rs41Views} `{Collaborators}
  (d : RS41Decoder) (ptu : RS41Subframe_PTU) (subframe : RS41Subframe) (frame : list Z) :
  sftypes_distinct ->
  Forall is_byte frame ->
  fis_pos (pressure ptu) = false /\
  (subframe_type subframe <> RS41_SFTYPE_GPSPOS ->
     info_pressure (m_sondeData (updateSondeData d subframe))
     = info_pressure (m_sondeData d)) /\
  (subframe_type subframe = RS41_SFTYPE_GPSPOS ->
     info_pressure (m_sondeData (updateSondeData d subframe))
     = altitude_to_pressure (alt (m_sondeData (updateSondeData d subframe)))) /\
  ((forall s, In s (in_bounds_subframes frame) -> crcCheck s = true ->
              subframe_type s <> RS41_SFTYPE_GPSPOS) ->
   exists d', parse_subframes updateSondeData frame d = Some d' /\
              info_pressure (m_sondeData d') = info_pressure (m_sondeData d)).
Proof.
  intros Hd Hb. split; [reflexivity|]. split; [apply updateSondeData_pressure_kept|].
  split; [apply updateSondeData_gpspos, Hd|].
  intros Hno. eexists. split.
  - unfold parse_subframes, in_bounds_subframes. apply subframe_loop_filter; [exact Hb|lia].
  - apply fold_pressure_kept. apply Forall_forall. intros s Hs.
    apply list_elem_of_In, filter_In in Hs. destruct Hs as [Hin Hcrc].
    apply Hno; assumption.
Qed.

(** The loop of the correction is Horner's scheme on the coefficients
    [coeff[1] .. coeff[6]], lowest first. *)
Lemma calib_loop_horner coeff x :
  calib_loop coeff x = horner (correction_coeff coeff) x.
Proof.
  unfold calib_loop, horner, correction_coeff.
  change (seqZ 1 6) with [1; 2; 3; 4; 5; 6].
  change (reverse [1; 2; 3; 4; 5; 6]) with [6; 5; 4; 3; 2; 1].
  reflexivity.
Qed.

(** C7 as stated fails: on [unit_calibration] and [sample_ptu] the estimate
    [t_uncal] is 2 and the code returns 2 + 1 * 2^5 = 34, while the correction
    by a polynomial of the 6th degree over the coefficients of the table
    gives 2 + (1 + 1 * 2^6) = 67. *)
Lemma C7_not_sixth_degree :
  temp unit_calibration sample_ptu = float_of_Z 34 /\
  temp_6th_degree unit_calibration sample_ptu = float_of_Z 67 /\
  temp unit_calibration sample_ptu <> temp_6th_degree unit_calibration sample_ptu.
Proof.
  assert (E1 : temp unit_calibration sample_ptu = float_of_Z 34) by (vm_compute; reflexivity).
  assert (E2 : temp_6th_degree unit_calibration sample_ptu = float_of_Z 67)
    by (vm_compute; reflexivity).
  split; [exact E1|]. split; [exact E2|]. rewrite E1, E2. vm_compute. discriminate.
Qed.

(** C7, amended.  With a reference span that is not zero, [temp] maps the
    normalized ratio of the channels to a resistance by two-point linear
    interpolation between [t_ref[0]] and [t_ref[1]] times the gain
    [t_calib_coeff[0]], evaluates the polynomial of the 2nd degree
    [t_temp_poly] to get [t_uncal], and returns the sum of the correction and
    [t_uncal]; the correction is Horner's evaluation at [t_uncal] of the
    polynomial of the 5th degree whose six coefficients are
    [t_calib_coeff[1] .. t_calib_coeff[6]]. *)
Theorem C7_temp_fifth_degree_correction (calib : RS41Calibration) (ptu : RS41Subframe_PTU) :
  fis_zero (adc (temp_ref2 ptu) - adc (temp_ref1 ptu))%F = false ->
  let ratio := adc_ratio (temp_main ptu) (temp_ref1 ptu) (temp_ref2 ptu) in
  let r_t := (interpolate (fnth (t_ref calib) 0) (fnth (t_ref calib) 1) ratio
              * fnth (t_calib_coeff calib) 0)%F in
  let t_uncal := poly2 (t_temp_poly calib) r_t in
  length (correction_coeff (t_calib_coeff calib)) = 6%nat /\
  temp calib ptu = (horner (correction_coeff (t_calib_coeff calib)) t_uncal + t_uncal)%F.
Proof.
  intros Hspan. cbn zeta. split; [reflexivity|].
  unfold temp. rewrite Hspan.
  rewrite calib_loop_horner. reflexivity.
Qed.

Lemma C7_temp_fifth_degree_correction_witness :
  temp unit_calibration sample_ptu
  = (horner (correction_coeff (t_calib_coeff unit_calibration)) (float_of_Z 2)
     + float_of_Z 2)%F.
Proof.
  pose proof (C7_temp_fifth_degree_correction unit_calibration sample_ptu) as Hw.
  cbn zeta in Hw. destruct Hw as [_ Hw]; [vm_compute; reflexivity|].
  rewrite Hw. vm_compute. reflexivity.
Defined.

(** ** The calibration assembler *)

Lemma land_byte_l b m : is_byte b -> is_byte (Z.land b m).
Proof.
  intros Hb. unfold is_byte in *.
  assert (Hm : Z.land b m mod 2 ^ 8 = Z.land b m).
  { apply Z.bits_inj'. intros k Hk. destruct (Z.ltb_spec k 8).
    - rewrite Z.mod_pow2_bits_low by lia. reflexivity.
    - rewrite Z.mod_pow2_bits_high by lia.
      rewrite Z.land_spec, (high_bit 8 b) by (assumption || lia). reflexivity. }
  rewrite <- Hm. apply Z.mod_pos_bound. lia.
Qed.

Lemma Forall_wr buf i v : Forall is_byte buf -> is_byte v -> Forall is_byte (wr buf i v).
Proof.
  intros Hb Hv. unfold wr. destruct (i <? 0); [exact Hb|].
  apply Forall_insert; assumption.
Qed.

Lemma byte_zero_bits b :
  is_byte b -> (forall j, 0 <= j < 8 -> Z.testbit b j = false) -> b = 0.
Proof.
  intros Hb Hj. apply (low_bits_eq 8); [lia|exact Hb|lia|].
  intros k Hk. rewrite Z.bits_0. apply Hj, Hk.
Qed.

(** The position of a fragment's bit, and the fragment of a bit. *)
Lemma fragment_of_bit i j :
  0 <= j < 8 -> (8 * i + (7 - j)) / 8 = i /\ 7 - (8 * i + (7 - j)) mod 8 = j.
Proof.
  intros Hj.
  assert (E : 8 * i + (7 - j) = (7 - j) + i * 8) by lia. rewrite E.
  rewrite Z.div_add, Z.mod_add by lia.
  rewrite Z.div_small, Z.mod_small by lia. lia.
Qed.

Section BitmapFacts.
Context `{Rs41Header}.
Hypothesis fits : bitmap_fits.

Let size := sizeof_calibDataBitmap.

Lemma size_pos : 0 < size.
Proof. destruct fits as [? [? ?]]. unfold size. lia. Qed.

Lemma fresh_bitmap_shape :
  Z.of_nat (length fresh_bitmap) = size /\ Forall is_byte fresh_bitmap.
Proof.
  pose proof size_pos. unfold fresh_bitmap, memset. split.
  - rewrite length_wr, length_replicate. fold size. lia.
  - apply Forall_wr.
    + apply Forall_replicate. unfold is_byte. lia.
    + unfold u8. apply Z.mod_pos_bound. lia.
Qed.

Lemma rd_replicate n c i : 0 <= i < Z.of_nat n -> rd (replicate n c) i = c.
Proof.
  intros Hi. unfold rd. destruct (Z.ltb_spec i 0); [lia|].
  rewrite lookup_replicate_2 by lia. reflexivity.
Qed.

(** In the fresh bitmap the bits of the fragments are set and the bits
    beyond the fragment count are clear. *)
Lemma fresh_bitmap_bits k :
  0 <= k < 8 * size ->
  fragment_missing fresh_bitmap k = (k <? RS41_CALIB_FRAGCOUNT).
Proof.
  intros Hk. pose proof size_pos as Hs. destruct fits as [Hc [Hlo Hhi]]. fold size in Hlo, Hhi.
  unfold fragment_missing, fresh_bitmap, memset. fold size.
  assert (Hq : 0 <= k / 8 < size)
    by (split; [apply Z.div_pos|apply Z.div_lt_upper_bound]; lia).
  pose proof (Z.mod_pos_bound k 8 ltac:(lia)) as Hm.
  pose proof (Z.div_mod k 8 ltac:(lia)) as Hdm.
  destruct (Z.eq_dec (k / 8) (size - 1)) as [E|Hne].
  - rewrite E, rd_wr_eq by (rewrite length_replicate; lia).
    rewrite rd_replicate by lia.
    rewrite Z.rem_mod_nonneg by lia.
    set (r := (RS41_CALIB_FRAGCOUNT - 1) mod 8).
    pose proof (Z.mod_pos_bound (RS41_CALIB_FRAGCOUNT - 1) 8 ltac:(lia)) as Hr. fold r in Hr.
    assert (Hcount : RS41_CALIB_FRAGCOUNT - 1 = 8 * (size - 1) + r).
    { pose proof (Z.div_mod (RS41_CALIB_FRAGCOUNT - 1) 8 ltac:(lia)) as Hd. fold r in Hd.
      assert ((RS41_CALIB_FRAGCOUNT - 1) / 8 = size - 1); [|lia].
      symmetry.
      apply Z.div_unique with (r := RS41_CALIB_FRAGCOUNT - 1 - 8 * (size - 1)); lia. }
    unfold u8. change 256 with (2 ^ 8).
    rewrite Z.mod_pow2_bits_low, Z.land_spec, Z.lnot_spec by lia.
    rewrite Z.shiftl_1_l, Z.sub_1_r, <- Z.ones_equiv.
    change 255 with (Z.ones 8).
    rewrite Z.ones_spec_low by lia. cbn [andb].
    destruct (Z.ltb_spec (7 - k mod 8) (7 - r)).
    + rewrite Z.ones_spec_low by lia. cbn. symmetry. apply Z.ltb_ge. lia.
    + rewrite Z.ones_spec_high by lia. cbn. symmetry. apply Z.ltb_lt. lia.
  - rewrite rd_wr_ne by lia. rewrite rd_replicate by lia.
    change 255 with (Z.ones 8). rewrite Z.ones_spec_low by lia.
    symmetry. apply Z.ltb_lt. lia.
Qed.

(** Clearing the bit of fragment [f] clears that bit and no other. *)
Lemma clear_fragment_bit_spec bitmap f :
  Z.of_nat (length bitmap) = size -> Forall is_byte bitmap -> 0 <= f < 8 * size ->
  Z.of_nat (length (clear_fragment_bit bitmap f)) = size /\
  Forall is_byte (clear_fragment_bit bitmap f) /\
  forall k, 0 <= k < 8 * size ->
    fragment_missing (clear_fragment_bit bitmap f) k
    = fragment_missing bitmap k && negb (k =? f).
Proof.
  intros Hl Hb Hf. unfold clear_fragment_bit.
  rewrite Z.quot_div_nonneg, Z.rem_mod_nonneg by lia.
  assert (Hq : 0 <= f / 8 < size)
    by (split; [apply Z.div_pos|apply Z.div_lt_upper_bound]; lia).
  pose proof (Z.mod_pos_bound f 8 ltac:(lia)) as Hm.
  pose proof (Z.div_mod f 8 ltac:(lia)) as Hdm.
  pose proof (rd_is_byte bitmap (f / 8) Hb) as Hbyte.
  assert (Hnew : is_byte (Z.land (rd bitmap (f / 8)) (Z.lnot (Z.shiftl 1 (7 - f mod 8)))))
    by (apply land_byte_l, Hbyte).
  rewrite (u8_byte _ Hnew).
  split; [rewrite length_wr; exact Hl|]. split; [apply Forall_wr; assumption|].
  intros k Hk. unfold fragment_missing.
  pose proof (Z.mod_pos_bound k 8 ltac:(lia)) as Hkm.
  pose proof (Z.div_mod k 8 ltac:(lia)) as Hkd.
  destruct (Z.eq_dec (k / 8) (f / 8)) as [E|Hne].
  - rewrite E, rd_wr_eq by lia.
    rewrite Z.land_spec, Z.lnot_spec, Z.shiftl_1_l, Z.pow2_bits_eqb by lia.
    f_equal. f_equal.
    destruct (Z.eqb_spec (7 - f mod 8) (7 - k mod 8)), (Z.eqb_spec k f); (reflexivity || lia).
  - rewrite rd_wr_ne by lia.
    destruct (Z.eqb_spec k f) as [->|]; [contradiction|].
    cbn. rewrite andb_true_r. reflexivity.
Qed.

(** The check of the bitmap holds exactly when no bit is set. *)
Lemma bitmap_clear_spec bitmap :
  Z.of_nat (length bitmap) = size -> Forall is_byte bitmap ->
  (bitmap_clear bitmap = true <-> Forall (fun b => b = 0) bitmap) /\
  (bitmap_clear bitmap = true <->
     forall k, 0 <= k < 8 * size -> fragment_missing bitmap k = false).
Proof.
  intros Hl Hb. unfold bitmap_clear. fold size.
  assert (Hrd : forallb (fun i => rd bitmap i =? 0) (seqZ 0 size) = true <->
                forall i, 0 <= i < size -> rd bitmap i = 0).
  { rewrite forallb_forall. split.
    - intros Hall i Hi. apply Z.eqb_eq, Hall, list_elem_of_In, elem_of_seqZ. lia.
    - intros Hall i Hi. apply list_elem_of_In, elem_of_seqZ in Hi. apply Z.eqb_eq, Hall. lia. }
  rewrite Hrd. split.
  - rewrite Forall_lookup. split.
    + intros Hall n b E. pose proof (lookup_lt_Some _ _ _ E).
      rewrite <- (rd_lookup _ _ _ E). apply Hall. lia.
    + intros Hall i Hi. unfold rd. destruct (Z.ltb_spec i 0); [lia|].
      destruct (bitmap !! Z.to_nat i) as [b|] eqn:E; [|reflexivity].
      cbn. eapply Hall, E.
  - split.
    + intros Hall k Hk. unfold fragment_missing. rewrite Hall; [apply Z.bits_0|].
      split; [apply Z.div_pos|apply Z.div_lt_upper_bound]; lia.
    + intros Hall i Hi. apply byte_zero_bits; [apply rd_is_byte, Hb|].
      intros j Hj. specialize (Hall (8 * i + (7 - j)) ltac:(lia)).
      unfold fragment_missing in Hall.
      destruct (fragment_of_bit i j Hj) as [E1 E2]. rewrite E1, E2 in Hall. exact Hall.
Qed.
End BitmapFacts.

Section AssemblerFacts.
Context `{Rs41Header}.
Hypothesis fits : bitmap_fits.

Variable d0 : RS41Decoder.
Hypothesis not_calibrated : m_calibrated d0 = false.
Hypothesis bitmap_fresh : m_calibDataBitmap d0 = fresh_bitmap.

Let size := sizeof_calibDataBitmap.

(** After any run of fragments the bitmap holds the fragments not yet
    seen, and the flag is set exactly when the check of the bitmap holds. *)
Lemma assembler_invariant (statuses : list RS41Subframe_Status) :
  Forall (fun s => 0 <= frag_seq s < RS41_CALIB_FRAGCOUNT) statuses ->
  let d := foldl updateCalibData d0 statuses in
  Z.of_nat (length (m_calibDataBitmap d)) = size /\
  Forall is_byte (m_calibDataBitmap d) /\
  (forall k, 0 <= k < 8 * size ->
     fragment_missing (m_calibDataBitmap d) k = true <->
     k < RS41_CALIB_FRAGCOUNT /\ k ∉ frag_seq <$> statuses) /\
  (m_calibrated d = true <-> bitmap_clear (m_calibDataBitmap d) = true).
Proof.
  destruct fits as [Hc [Hlo Hhi]]. fold size in Hlo, Hhi.
  induction statuses as [|s l IH] using rev_ind; intros Hs; cbn zeta.
  - cbn [foldl]. rewrite bitmap_fresh.
    destruct (fresh_bitmap_shape fits) as [Hl Hb]. fold size in Hl.
    split; [exact Hl|]. split; [exact Hb|]. split.
    + intros k Hk. rewrite (fresh_bitmap_bits fits) by exact Hk.
      rewrite Z.ltb_lt. cbn. split; [intros ?; split; [assumption|apply not_elem_of_nil]|tauto].
    + rewrite not_calibrated. split; [discriminate|]. intros Hclear.
      pose proof (proj1 (proj2 (bitmap_clear_spec _ Hl Hb)) Hclear) as Hnone.
      specialize (Hnone 0 ltac:(fold size; lia)). clear Hclear. rename Hnone into Hclear.
      rewrite (fresh_bitmap_bits fits) in Hclear by (fold size; lia).
      apply Z.ltb_ge in Hclear. lia.
  - apply Forall_app in Hs. destruct Hs as [Hl Hs]. rewrite Forall_singleton in Hs.
    destruct (IH Hl) as (Ll & Lb & Lbits & Lflag). cbn zeta in *.
    rewrite foldl_app. cbn [foldl].
    set (d := foldl updateCalibData d0 l) in *.
    unfold updateCalibData. cbn [m_calibDataBitmap m_calibrated].
    destruct (clear_fragment_bit_spec (m_calibDataBitmap d) (frag_seq s) Ll Lb
                ltac:(fold size; lia)) as (Nl & Nb & Nbits).
    fold size in Nl, Nbits.
    split; [exact Nl|]. split; [exact Nb|].
    assert (Hbits : forall k, 0 <= k < 8 * size ->
      fragment_missing (clear_fragment_bit (m_calibDataBitmap d) (frag_seq s)) k = true <->
      k < RS41_CALIB_FRAGCOUNT /\ k ∉ frag_seq <$> l ++ [s]).
    { intros k Hk. rewrite Nbits by exact Hk.
      rewrite andb_true_iff, Lbits by exact Hk.
      rewrite fmap_app, not_elem_of_app. cbn. rewrite list_elem_of_singleton.
      destruct (Z.eqb_spec k (frag_seq s)); cbn; intuition congruence. }
    split; [exact Hbits|].
    destruct (bitmap_clear (clear_fragment_bit _ _)) eqn:Eclear; [tauto|].
    split; [|discriminate]. intros Hcal. apply Lflag in Hcal.
    pose proof (proj1 (proj2 (bitmap_clear_spec _ Ll Lb)) Hcal) as Hnone.
    clear Hcal. rename Hnone into Hcal. fold size in Hcal.
    assert (Hnew : bitmap_clear (clear_fragment_bit (m_calibDataBitmap d) (frag_seq s)) = true).
    { apply (proj2 (proj2 (bitmap_clear_spec _ Nl Nb))). fold size. intros k Hk.
      rewrite Nbits, Hcal by exact Hk. reflexivity. }
    congruence.
Qed.

(** The flag is set exactly when every fragment has been seen. *)
Lemma assembler_complete (statuses : list RS41Subframe_Status) :
  Forall (fun s => 0 <= frag_seq s < RS41_CALIB_FRAGCOUNT) statuses ->
  let d := foldl updateCalibData d0 statuses in
  (m_calibrated d = true <-> Forall (fun b => b = 0) (m_calibDataBitmap d)) /\
  (m_calibrated d = true <->
     forall k, 0 <= k < RS41_CALIB_FRAGCOUNT -> k ∈ frag_seq <$> statuses).
Proof.
  intros Hs. destruct (assembler_invariant statuses Hs) as (Ll & Lb & Lbits & Lflag).
  cbn zeta in *. set (d := foldl updateCalibData d0 statuses) in *.
  destruct (bitmap_clear_spec _ Ll Lb) as [Hzero Hmiss]. fold size in Hmiss.
  destruct fits as [Hc [Hlo Hhi]]. fold size in Hlo, Hhi.
  split; [rewrite Lflag; exact Hzero|].
  rewrite Lflag, Hmiss. split.
  - intros Hall k Hk. specialize (Hall k ltac:(lia)).
    destruct (decide (k ∈ frag_seq <$> statuses)) as [Hin|Hout]; [exact Hin|].
    assert (Hset : fragment_missing (m_calibDataBitmap d) k = true)
      by (apply Lbits; [lia|split; [lia|exact Hout]]).
    congruence.
  - intros Hall k Hk.
    destruct (fragment_missing (m_calibDataBitmap d) k) eqn:E; [|reflexivity].
    apply Lbits in E; [|exact Hk]. destruct E as [Hlt Hout].
    exfalso. apply Hout, Hall. lia.
Qed.
End AssemblerFacts.

(** Distinct numbers below [n] cover [0, n) only when there are [n] of them. *)
Lemma cover_needs_all (l : list Z) (n : Z) :
  0 <= n -> (forall k, 0 <= k < n -> k ∈ l) -> n <= Z.of_nat (length l).
Proof.
  intros Hn Hcover.
  assert (Hsub : seqZ 0 n ⊆+ l).
  { apply NoDup_submseteq; [apply NoDup_seqZ|].
    intros k Hk. apply elem_of_seqZ in Hk. apply Hcover. lia. }
  apply submseteq_length in Hsub. rewrite length_seqZ in Hsub. lia.
Qed.

Lemma distinct_cover (l : list Z) (n : Z) :
  NoDup l -> Forall (fun k => 0 <= k < n) l -> Z.of_nat (length l) = n ->
  forall k, 0 <= k < n -> k ∈ l.
Proof.
  intros Hnd Hr Hlen k Hk.
  assert (Hsub : l ⊆+ seqZ 0 n).
  { apply NoDup_submseteq; [exact Hnd|].
    intros x Hx. apply elem_of_seqZ. rewrite Forall_forall in Hr. specialize (Hr x Hx). lia. }
  apply submseteq_length_Permutation in Hsub; [|rewrite length_seqZ; lia].
  rewrite Hsub. apply elem_of_seqZ. lia.
Qed.

(** C2. From a decoder whose flag is down and whose bitmap is fresh, and for
    any run of status subframes with fragment numbers below the fragment
    count: after every prefix the flag is up exactly when every byte of the
    bitmap is zero, which is exactly when every fragment occurs in the prefix.
    So when the run brings each fragment once, in any order, the flag is down
    after every proper prefix and up from the last fragment on; and when some
    fragment does not occur in the run, the flag stays down. *)
Theorem C2_calibrated_iff_all_fragments
  `{Rs41Header} (d : RS41Decoder) (statuses : list RS41Subframe_Status) :
  bitmap_fits ->
  m_calibrated d = false ->
  m_calibDataBitmap d = fresh_bitmap ->
  Forall (fun s => 0 <= frag_seq s < RS41_CALIB_FRAGCOUNT) statuses ->
  (forall n,
     let dn := calibration_after d statuses n in
     (m_calibrated dn = true <-> Forall (fun b => b = 0) (m_calibDataBitmap dn)) /\
     (m_calibrated dn = true <->
        forall k, 0 <= k < RS41_CALIB_FRAGCOUNT -> k ∈ frag_seq <$> take n statuses)) /\
  (NoDup (frag_seq <$> statuses) ->
   Z.of_nat (length statuses) = RS41_CALIB_FRAGCOUNT ->
   forall n, m_calibrated (calibration_after d statuses n) = true
             <-> RS41_CALIB_FRAGCOUNT <= Z.of_nat n) /\
  ((exists k, 0 <= k < RS41_CALIB_FRAGCOUNT /\ k ∉ frag_seq <$> statuses) ->
   forall n, m_calibrated (calibration_after d statuses n) = false).
Proof.
  intros Hfit Hflag Hbm Hs.
  assert (Hprefix : forall n, Forall (fun s => 0 <= frag_seq s < RS41_CALIB_FRAGCOUNT)
                                     (take n statuses)) by (intros n; apply Forall_take, Hs).
  assert (Hmain : forall n,
     let dn := calibration_after d statuses n in
     (m_calibrated dn = true <-> Forall (fun b => b = 0) (m_calibDataBitmap dn)) /\
     (m_calibrated dn = true <->
        forall k, 0 <= k < RS41_CALIB_FRAGCOUNT -> k ∈ frag_seq <$> take n statuses)).
  { intros n. apply (assembler_complete Hfit d Hflag Hbm), Hprefix. }
  split; [exact Hmain|]. split.
  - intros Hnd Hlen n. destruct (Hmain n) as [_ ->].
    destruct Hfit as [Hc _]. split.
    + intros Hcover. apply cover_needs_all in Hcover; [|lia].
      rewrite length_fmap, length_take in Hcover. lia.
    + intros Hn. rewrite take_ge by lia.
      apply distinct_cover; [exact Hnd| |rewrite length_fmap; exact Hlen].
      apply Forall_fmap. exact Hs.
  - intros (k & Hk & Hout) n.
    destruct (m_calibrated (calibration_after d statuses n)) eqn:E; [|reflexivity].
    exfalso. apply Hout. pose proof (proj1 (proj2 (Hmain n)) E k Hk) as Hin'.
    clear E. rename Hin' into E.
    apply list_elem_of_fmap in E. destruct E as (s & -> & Hin).
    apply list_elem_of_fmap. exists s. split; [reflexivity|].
    exact (subseteq_take n statuses s Hin).
Qed.

Lemma Forall_frag_seq_check `{Rs41Header} (statuses : list RS41Subframe_Status) :
  forallb (fun s => (0 <=? frag_seq s) && (frag_seq s <? RS41_CALIB_FRAGCOUNT)) statuses = true ->
  Forall (fun s => 0 <= frag_seq s < RS41_CALIB_FRAGCOUNT) statuses.
Proof.
  intros Hall. apply Forall_forall. intros s Hs. rewrite forallb_forall in Hall.
  apply list_elem_of_In, Hall in Hs. lia.
Qed.

Lemma C2_calibrated_iff_all_fragments_witness :
  m_calibrated (calibration_after (H := rs41) (init (H := rs41) None blank_sonde)
                                  shuffled_fragments 50) = false /\
  m_calibrated (calibration_after (H := rs41) (init (H := rs41) None blank_sonde)
                                  shuffled_fragments 51) = true.
Proof.
  destruct (C2_calibrated_iff_all_fragments (H := rs41)
              (init (H := rs41) None blank_sonde) shuffled_fragments)
    as (_ & Hperm & _).
  - split; vm_compute; intuition congruence.
  - reflexivity.
  - reflexivity.
  - apply Forall_frag_seq_check. vm_compute. reflexivity.
  - assert (Hnd : NoDup (frag_seq <$> shuffled_fragments))
      by (refine (bool_decide_unpack _ _); vm_compute; exact I).
    specialize (Hperm Hnd eq_refl). split.
    + destruct (m_calibrated _) eqn:E; [|reflexivity].
      apply Hperm in E. cbn in E. lia.
    + apply Hperm. cbn. lia.
Defined.

(** A header keeps every fragment number of eight bits inside the table and
    the bitmap only if the table has 256 fragment slots and the bitmap 32
    bytes. *)
Lemma fragment_bounds_need_256_slots `{Rs41Header} :
  0 < RS41_CALIB_FRAGSIZE ->
  (forall status, 0 <= frag_seq status < 256 -> fragment_in_bounds status) ->
  256 * RS41_CALIB_FRAGSIZE <= sizeof_RS41Calibration /\ 32 <= sizeof_calibDataBitmap.
Proof.
  intros Hsize Hall.
  destruct (Hall (sample_status 255) ltac:(cbn; lia)) as [[_ Htable] [_ Hbitmap]].
  unfold frag_offset in Htable. cbn [frag_seq sample_status] in Htable, Hbitmap.
  change (Z.quot 255 8) with 31 in Hbitmap. lia.
Qed.

(** C10, at its failing input.  With the constants of the RS41 protocol a
    status subframe that carries the fragment number 255 makes
    [updateCalibData] copy 16 bytes to offset 4080 of the 816 bytes of the
    table and clear a bit in byte 31 of the 7 bytes of the bitmap: both
    accesses are outside their buffer.  The first fragment number beyond the
    table, 51, already writes at offset 816. *)
Theorem C10_fragment_number_unchecked :
  frag_offset (H := rs41) (sample_status 255) = 4080 /\
  Z.quot (frag_seq (sample_status 255)) 8 = 31 /\
  ~ fragment_in_bounds (H := rs41) (sample_status 255) /\
  ~ fragment_in_bounds (H := rs41) (sample_status 51) /\
  (forall k, 0 <= k < 51 -> fragment_in_bounds (H := rs41) (sample_status k)).
Proof.
  split; [reflexivity|]. split; [reflexivity|].
  unfold fragment_in_bounds, frag_offset. cbn [frag_seq sample_status].
  change (@RS41_CALIB_FRAGSIZE rs41) with 16.
  change (@sizeof_RS41Calibration rs41) with 816.
  change (@sizeof_calibDataBitmap rs41) with 7.
  split; [change (Z.quot 255 8) with 31; lia|]. split; [lia|].
  intros k Hk. rewrite Z.quot_div_nonneg by lia.
  assert (0 <= k / 8 < 7) by (split; [apply Z.div_pos|apply Z.div_lt_upper_bound]; lia).
  lia.
Qed.

(** C3 as stated fails: symbol 0 of block 0 is at index -1 of the payload,
    the byte before it, which in the RS41 frame is the extended-data flag. *)
Lemma C3_first_symbol_before_payload :
  rs_data_index (H := rs41) 0 0 = -1 /\
  rd (rs_deinterleave (H := rs41) sample_frame (replicate 255 0)
                      (rs_chunk_len (H := rs41) sample_frame) 0) 0
  = extended_flag (H := rs41) sample_frame /\
  ~ (forall block i,
       0 <= block < RS41_REEDSOLOMON_INTERLEAVING (Rs41Header := rs41) ->
       0 <= i < rs_chunk_len (H := rs41) sample_frame ->
       0 <= rs_data_index (H := rs41) block i < bytesLeft (H := rs41) sample_frame).
Proof.
  split; [reflexivity|]. split; [vm_compute; reflexivity|].
  intros Hall. specialize (Hall 0 0).
  assert (Hc : rs_chunk_len (H := rs41) sample_frame = 132) by (vm_compute; reflexivity).
  rewrite Hc in Hall. change (@RS41_REEDSOLOMON_INTERLEAVING rs41) with 2 in Hall.
  change (rs_data_index (H := rs41) 0 0) with (-1) in Hall. lia.
Qed.

(** C3, amended.  For every block [b] and every symbol [i] below the chunk
    length, deinterleaving reads and reinterleaving writes the payload at
    index [interleaving * i + b - 1].  That index is -1, the byte just before
    the payload, exactly for [b = 0] and [i = 0]; every other one lies in
    [0, payload length), and all of them lie inside the frame. *)
Theorem C3_symbol_index_bounds
  `{Rs41Header} (frame rsBlock : list Z) (block i : Z) :
  frame_layout_ok ->
  Z.of_nat (length frame) = sizeof_RS41Frame ->
  Z.of_nat (length rsBlock) = RS41_REEDSOLOMON_N ->
  0 <= block < RS41_REEDSOLOMON_INTERLEAVING ->
  0 <= i < rs_chunk_len frame ->
  let index := RS41_REEDSOLOMON_INTERLEAVING * i + block - 1 in
  rd (rs_deinterleave frame rsBlock (rs_chunk_len frame) block) i = frame_data frame index /\
  frame_data (rs_reinterleave frame rsBlock (rs_chunk_len frame) block) index = rd rsBlock i /\
  -1 <= index < bytesLeft frame /\
  (index = -1 <-> block = 0 /\ i = 0) /\
  0 <= offsetof_data + index < sizeof_RS41Frame.
Proof.
  intros Hlay Hf Hb Hblock Hi. cbn zeta.
  change (RS41_REEDSOLOMON_INTERLEAVING * i + block - 1) with (rs_data_index block i).
  pose proof (rs_chunk_len_ok Hlay frame) as Hchunk.
  pose proof (rs_data_index_range Hlay frame block i Hblock Hi) as Hrange.
  pose proof (bytesLeft_bound Hlay frame) as Hleft.
  destruct (rs_deinterleave_spec Hlay frame rsBlock (rs_chunk_len frame) block Hchunk Hb)
    as (_ & Hread & _).
  destruct (rs_reinterleave_spec Hlay frame rsBlock (rs_chunk_len frame) block Hf Hchunk Hblock)
    as (_ & Hwrite & _).
  split; [apply Hread, Hi|]. split; [apply Hwrite, Hi|]. split; [exact Hrange|].
  pose proof (layout_interleaving Hlay). pose proof (layout_rs_before_data Hlay).
  pose proof (layout_rs_checksum Hlay). pose proof (layout_t Hlay).
  pose proof (layout_data Hlay).
  split.
  - unfold rs_data_index. split; [|intros [-> ->]; lia].
    intros E. assert (RS41_REEDSOLOMON_INTERLEAVING * i + block = 0) by lia. nia.
  - assert (0 <= RS41_REEDSOLOMON_T * RS41_REEDSOLOMON_INTERLEAVING) by nia. lia.
Qed.

Lemma C3_symbol_index_bounds_witness :
  rd (rs_deinterleave (H := rs41) sample_frame (replicate 255 0)
                      (rs_chunk_len (H := rs41) sample_frame) 1) 5
  = frame_data (H := rs41) sample_frame 10 /\
  -1 <= 2 * 5 + 1 - 1 < bytesLeft (H := rs41) sample_frame.
Proof.
  destruct (C3_symbol_index_bounds (H := rs41) sample_frame (replicate 255 0) 1 5)
    as (Hread & _ & Hrange & _).
  - exact rs41_layout_ok.
  - reflexivity.
  - reflexivity.
  - cbn. lia.
  - vm_compute. intuition congruence.
  - split; [exact Hread|exact Hrange].
Defined.

(** C8. [rsCorrect] returns false exactly when the decoder failed on at
    least one block.  Whatever the decoder returned, every block is handed to
    it with the symbols and the parity bytes that were received, and what it
    leaves in [rsBlock] is stored back at the positions of that block.  [run]
    drops the returned value and goes on to the subframes of the frame. *)
Theorem C8_uncorrectable_block_is_not_fatal
  `{Rs41Header} `{Rs41Views} `{Collaborators}
  (codec : rs_codec) (stack frame : list Z) (d : RS41Decoder) (raw : list Z) :
  frame_layout_ok ->
  Z.of_nat (length frame) = sizeof_RS41Frame ->
  Z.of_nat (length stack) = RS41_REEDSOLOMON_N ->
  codec_keeps_size codec ->
  m_rs d = Some codec ->
  let result := rs_decode_result codec stack frame in
  let input b := rs_decode_input (rs_chunk_len frame) (rs_before codec stack frame b) b in
  (snd (rsCorrect codec stack frame) = false <->
     exists b, 0 <= b < RS41_REEDSOLOMON_INTERLEAVING /\ fst (result b) < 0) /\
  (forall b, 0 <= b < RS41_REEDSOLOMON_INTERLEAVING ->
     (forall i, 0 <= i < rs_chunk_len frame ->
        rd (input b) i = frame_data frame (rs_data_index b i) /\
        frame_data (fst (rsCorrect codec stack frame)) (rs_data_index b i)
        = rd (snd (result b)) i) /\
     (forall i, 0 <= i < RS41_REEDSOLOMON_T ->
        rd (input b) (RS41_REEDSOLOMON_K + i)
        = frame_rs_checksum frame (i + RS41_REEDSOLOMON_T * b) /\
        frame_rs_checksum (fst (rsCorrect codec stack frame)) (i + RS41_REEDSOLOMON_T * b)
        = rd (snd (result b)) (RS41_REEDSOLOMON_K + i))) /\
  run_frame stack d raw
  = match parse_subframes updateSondeData
            (fst (rsCorrect codec stack (descramble raw))) d with
    | Some d' => Some (d', m_sondeData d')
    | None => None
    end.
Proof.
  intros Hlay Hf Hs Hkeep Hrs. cbn zeta.
  pose proof (layout_interleaving Hlay) as Hi.
  pose proof (rs_loop_invariant Hlay codec stack frame Hf Hs Hkeep
                (Z.to_nat RS41_REEDSOLOMON_INTERLEAVING) ltac:(lia)) as Hend.
  cbn zeta in Hend. rewrite Z2Nat.id in Hend by lia.
  destruct Hend as (_ & _ & Hvalid & Hdata & Hparity & _ & _).
  split; [exact Hvalid|]. split.
  - intros b Hb.
    pose proof (rs_loop_invariant Hlay codec stack frame Hf Hs Hkeep
                  (Z.to_nat b) ltac:(lia)) as Hat.
    cbn zeta in Hat. rewrite Z2Nat.id in Hat by lia.
    destruct Hat as (Lf & Lb & _ & _ & _ & Hd' & Hp').
    destruct (rs_deinterleave_spec Hlay (rs_frame (rs_before codec stack frame b))
                (rs_block (rs_before codec stack frame b)) (rs_chunk_len frame) b
                (rs_chunk_len_ok Hlay frame) Lb) as (_ & Rd & Rp).
    split; intros i Hi'.
    + split; [|apply Hdata; assumption].
      unfold rs_decode_input. rewrite Rd by exact Hi'. apply Hd'; lia.
    + split; [|apply Hparity; assumption].
      unfold rs_decode_input. rewrite Rp by exact Hi'. apply Hp'; lia.
  - unfold run_frame, corrected_frame. rewrite Hrs. reflexivity.
Qed.

(** ** The theorems on sample inputs *)

Lemma rs41_sftypes_distinct : sftypes_distinct (H := rs41).
Proof. refine (bool_decide_unpack _ _). vm_compute. exact I. Qed.

Lemma ptu_bytes_check ptu :
  forallb (forallb is_byteb)
    [temp_main ptu; temp_ref1 ptu; temp_ref2 ptu;
     humidity_main ptu; humidity_ref1 ptu; humidity_ref2 ptu;
     temp_humidity_main ptu; temp_humidity_ref1 ptu; temp_humidity_ref2 ptu] = true ->
  ptu_bytes ptu.
Proof.
  intros Hall. unfold ptu_bytes. apply Forall_forall. intros ch Hch.
  apply Forall_is_byte. rewrite forallb_forall in Hall. apply Hall, list_elem_of_In, Hch.
Qed.

Lemma C1_subframe_applied_iff_in_bounds_and_crc_witness :
  parse_subframes (H := rs41) (fun log s => log ++ [subframe_type s]) sample_payload_frame []
  = Some [0x7C; 0x7B] /\
  subframe_type <$> in_bounds_subframes (H := rs41) sample_payload_frame = [0x7C; 0x7A; 0x7B].
Proof.
  destruct (C1_subframe_applied_iff_in_bounds_and_crc (H := rs41)
              (fun log s => log ++ [subframe_type s]) sample_payload_frame [] 0%nat 0)
    as (Hparse & _).
  - apply Forall_is_byte. vm_compute. reflexivity.
  - vm_compute. reflexivity.
  - rewrite Hparse. split; vm_compute; reflexivity.
Defined.

Lemma C9_pressure_only_from_altitude_witness :
  fis_pos (pressure sample_ptu) = false /\
  info_pressure (m_sondeData (updateSondeData (H := rs41) (H0 := sample_views)
                                (H1 := sample_collaborators)
                                (init (H := rs41) None blank_sonde) sample_bad_ptu))
  = info_pressure blank_sonde.
Proof.
  destruct (C9_pressure_only_from_altitude (H := rs41) (H0 := sample_views)
              (H1 := sample_collaborators)
              (init (H := rs41) None blank_sonde) sample_ptu sample_bad_ptu
              sample_payload_frame)
    as (Hstub & Hkept & _).
  - exact rs41_sftypes_distinct.
  - apply Forall_is_byte. vm_compute. reflexivity.
  - split; [exact Hstub|]. apply Hkept. vm_compute. discriminate.
Defined.

Lemma C8_uncorrectable_block_is_not_fatal_witness :
  snd (rsCorrect (H := rs41) failing_codec (replicate 255 7) sample_frame) = false /\
  frame_data (H := rs41)
    (fst (rsCorrect (H := rs41) failing_codec (replicate 255 7) sample_frame))
    (rs_data_index (H := rs41) 1 5)
  = rd (snd (rs_decode_result (H := rs41) failing_codec (replicate 255 7) sample_frame 1)) 5.
Proof.
  destruct (C8_uncorrectable_block_is_not_fatal (H := rs41) (H0 := sample_views)
              (H1 := sample_collaborators) failing_codec (replicate 255 7) sample_frame
              (init (H := rs41) (Some failing_codec) blank_sonde) sample_frame)
    as (Hvalid & Hblocks & _).
  - exact rs41_layout_ok.
  - reflexivity.
  - reflexivity.
  - intros blk. reflexivity.
  - reflexivity.
  - split.
    + apply Hvalid. exists 0. split; [cbn; lia|]. vm_compute. reflexivity.
    + destruct (Hblocks 1 ltac:(cbn; lia)) as [Hdata _].
      apply (Hdata 5). vm_compute. intuition congruence.
Defined.

(** * Further properties of the decoder *)

(** ** Frames and the record *)

Lemma length_memcpy dst off src n : length (memcpy dst off src n) = length dst.
Proof.
  unfold memcpy. generalize (seqZ 0 n). intros l. revert dst.
  induction l as [|i l IH]; intros dst; cbn; [reflexivity|].
  rewrite IH. apply length_wr.
Qed.

Section UpdateFacts.
Context `{Rs41Header} `{Rs41Views} `{Collaborators}.

Lemma updateSondeData_unhandled d subframe :
  handled_type (subframe_type subframe) = false -> updateSondeData d subframe = d.
Proof.
  unfold handled_type, updateSondeData. rewrite !orb_false_iff.
  intros ((((-> & ->) & ->) & ->) & ->). reflexivity.
Qed.

Lemma updateSondeData_m_rs d subframe : m_rs (updateSondeData d subframe) = m_rs d.
Proof.
  unfold updateSondeData.
  destruct (subframe_type subframe =? RS41_SFTYPE_INFO); [reflexivity|].
  destruct (subframe_type subframe =? RS41_SFTYPE_PTU); [reflexivity|].
  destruct (subframe_type subframe =? RS41_SFTYPE_GPSPOS).
  { destruct (ecef_to_lla _ _ _) as [[la lo] al].
    destruct (ecef_to_spd_hdg _ _ _ _ _) as [[sp hd] cl]. reflexivity. }
  destruct (subframe_type subframe =? RS41_SFTYPE_GPSINFO); [reflexivity|].
  destruct (subframe_type subframe =? RS41_SFTYPE_XDATA); reflexivity.
Qed.

(** Only a status subframe touches the flag, the table and the bitmap. *)
Lemma updateSondeData_calibration_kept d subframe :
  subframe_type subframe <> RS41_SFTYPE_INFO ->
  m_calibrated (updateSondeData d subframe) = m_calibrated d /\
  m_calibData (updateSondeData d subframe) = m_calibData d /\
  m_calibDataBitmap (updateSondeData d subframe) = m_calibDataBitmap d.
Proof.
  intros Hty. unfold updateSondeData.
  destruct (Z.eqb_spec (subframe_type subframe) RS41_SFTYPE_INFO); [contradiction|].
  destruct (subframe_type subframe =? RS41_SFTYPE_PTU); [auto|].
  destruct (subframe_type subframe =? RS41_SFTYPE_GPSPOS).
  { destruct (ecef_to_lla _ _ _) as [[la lo] al].
    destruct (ecef_to_spd_hdg _ _ _ _ _) as [[sp hd] cl]. auto. }
  destruct (subframe_type subframe =? RS41_SFTYPE_GPSINFO); [auto|].
  destruct (subframe_type subframe =? RS41_SFTYPE_XDATA); auto.
Qed.

(** The flag never goes down in [updateSondeData]. *)
Lemma updateSondeData_calibrated_mono d subframe :
  m_calibrated d = true -> m_calibrated (updateSondeData d subframe) = true.
Proof.
  intros Hc. destruct (Z.eq_dec (subframe_type subframe) RS41_SFTYPE_INFO) as [E|Hne].
  - unfold updateSondeData. rewrite E, Z.eqb_refl. cbn [m_calibrated].
    unfold updateCalibData. cbn [m_calibrated]. rewrite Hc.
    destruct (bitmap_clear _); reflexivity.
  - rewrite (proj1 (updateSondeData_calibration_kept d subframe Hne)). exact Hc.
Qed.

Lemma parse_subframes_applied frame d :
  Forall is_byte frame ->
  parse_subframes updateSondeData frame d
  = Some (foldl updateSondeData d (applied_subframes frame)).
Proof.
  intros Hb. unfold parse_subframes, applied_subframes, in_bounds_subframes.
  apply subframe_loop_filter; [exact Hb|lia].
Qed.
End UpdateFacts.

(** ** What [run] hands to the subframe loop *)

Lemma Forall_rd_ext (P : Z -> Prop) (buf : list Z) :
  (forall i, 0 <= i < Z.of_nat (length buf) -> P (rd buf i)) -> Forall P buf.
Proof.
  intros Hall. apply Forall_lookup. intros n x E.
  pose proof (lookup_lt_Some _ _ _ E). rewrite <- (rd_lookup _ _ _ E). apply Hall. lia.
Qed.

(** Whatever the buffer holds, a descrambled frame holds bytes. *)
Lemma descramble_is_bytes `{Rs41Header} (rawFrame : list Z) :
  Z.of_nat (length rawFrame) = sizeof_RS41Frame -> Forall is_byte (descramble rawFrame).
Proof.
  intros Hlen. unfold descramble, descramble_step. rewrite <- Hlen.
  destruct (pointwise_loop
    (fun i b => u8 (Z.lxor (Z.lxor 0xFF (descramble_tmp b)) (rd _prn (i mod RS41_PRN_PERIOD))))
    rawFrame (length rawFrame)) as [Hl Hr]; [lia|].
  cbn zeta in Hl, Hr. apply Forall_rd_ext. intros i Hi. rewrite Hr.
  replace ((0 <=? i) && (i <? Z.of_nat (length rawFrame))) with true by (rewrite Hl in Hi; zcases).
  unfold u8, is_byte. apply Z.mod_pos_bound. lia.
Qed.

Section RsBytes.
Context `{Rs41Header}.
Variable codec : rs_codec.
Hypothesis bytes_out : codec_returns_bytes codec.

Lemma foldl_wr_bytes (idx val : Z -> Z) (l : list Z) (buf : list Z) :
  (forall i, is_byte (val i)) -> Forall is_byte buf ->
  Forall is_byte (foldl (fun f i => wr f (idx i) (val i)) buf l).
Proof.
  intros Hv. revert buf. induction l as [|i l IH]; intros buf Hb; cbn; [exact Hb|].
  apply IH, Forall_wr; [exact Hb|apply Hv].
Qed.

Lemma rs_block_step_bytes chunk_len s block :
  Forall is_byte (rs_frame s) -> Forall is_byte (rs_frame (rs_block_step codec chunk_len s block)).
Proof.
  intros Hb. unfold rs_block_step.
  pose proof (bytes_out (rs_decode_input chunk_len s block)) as Hout.
  destruct (codec (rs_decode_input chunk_len s block)) as [ret blk]. cbn [snd] in Hout.
  cbn [rs_frame]. unfold rs_reinterleave, set_frame_data, set_frame_rs_checksum.
  apply (foldl_wr_bytes (fun i => offsetof_rs_checksum + (i + RS41_REEDSOLOMON_T * block))
           (fun i => rd blk (RS41_REEDSOLOMON_K + i))); [intros i; apply rd_is_byte, Hout|].
  apply (foldl_wr_bytes (fun i => offsetof_data + rs_data_index block i)
           (fun i => rd blk i)); [intros i; apply rd_is_byte, Hout|exact Hb].
Qed.

Lemma rsCorrect_bytes stack frame :
  Forall is_byte frame -> Forall is_byte (fst (rsCorrect codec stack frame)).
Proof.
  intros Hb. unfold rsCorrect, rs_before. cbn [fst].
  assert (Hgen : forall l s, Forall is_byte (rs_frame s) ->
    Forall is_byte (rs_frame (foldl (rs_block_step codec (rs_chunk_len frame)) s l))).
  { induction l as [|b l IH]; intros s Hs; cbn; [exact Hs|].
    apply IH, rs_block_step_bytes, Hs. }
  apply Hgen. exact Hb.
Qed.
End RsBytes.

Section RunFacts.
Context `{Rs41Header} `{Rs41Views} `{Collaborators}.

Lemma corrected_frame_bytes d stack raw :
  rs_ready d -> Z.of_nat (length raw) = sizeof_RS41Frame ->
  Forall is_byte (corrected_frame d stack raw).
Proof.
  intros Hrs Hlen. unfold corrected_frame.
  pose proof (descramble_is_bytes raw Hlen) as Hd.
  destruct (m_rs d) as [codec|] eqn:E; [|exact Hd].
  apply rsCorrect_bytes; [apply Hrs, E|exact Hd].
Qed.

Lemma foldl_update_m_rs subframes d : m_rs (foldl updateSondeData d subframes) = m_rs d.
Proof.
  revert d. induction subframes as [|s l IH]; intros d; cbn; [reflexivity|].
  rewrite IH. apply updateSondeData_m_rs.
Qed.

Lemma run_frame_applied stack d raw :
  rs_ready d -> Z.of_nat (length raw) = sizeof_RS41Frame ->
  let d' := foldl updateSondeData d (applied_subframes (corrected_frame d stack raw)) in
  run_frame stack d raw = Some (d', m_sondeData d') /\ rs_ready d'.
Proof.
  intros Hrs Hlen. cbn zeta. unfold run_frame.
  rewrite parse_subframes_applied by (apply corrected_frame_bytes; assumption).
  split; [reflexivity|]. unfold rs_ready. rewrite foldl_update_m_rs. exact Hrs.
Qed.

Lemma run_total stack frames : forall d,
  rs_ready d -> Forall (fun raw => Z.of_nat (length raw) = sizeof_RS41Frame) frames ->
  exists d' outs, run stack d frames = Some (d', outs) /\ length outs = length frames /\
                  rs_ready d'.
Proof.
  induction frames as [|raw frames IH]; intros d Hrs Hf.
  - exists d, []. cbn. auto.
  - apply Forall_cons in Hf. destruct Hf as [Hraw Hf].
    destruct (run_frame_applied stack d raw Hrs Hraw) as [E Hrs']. cbn zeta in E, Hrs'.
    destruct (IH _ Hrs' Hf) as (d' & outs & Erun & Hlen & Hready).
    eexists d', (_ :: outs). cbn [run]. rewrite E, Erun. cbn. auto.
Qed.
End RunFacts.

Section RunTheorems.
Context `{Rs41Header} `{Rs41Views} `{Collaborators}.

Lemma length_frame_at readBuf i :
  0 <= sizeof_RS41Frame -> 0 <= i ->
  (i + 1) * sizeof_RS41Frame <= Z.of_nat (length readBuf) ->
  Z.of_nat (length (frame_at readBuf i)) = sizeof_RS41Frame.
Proof.
  intros Hs Hi Hfit. unfold frame_at. rewrite length_take, length_drop. nia.
Qed.

(** X1. From a read of [count >= 0] bytes [run] returns [count / sizeof
    (RS41Frame)], the number of whole frames, and hands that many records to
    the handler, whatever the bytes are; the bytes of a last partial frame are
    not decoded.  A negative [count] gives -1, no record, and the decoder as
    it was. *)
Theorem X1_run_one_record_per_whole_frame
  (stack : list Z) (d : RS41Decoder) (count : Z) (readBuf : list Z) :
  0 < sizeof_RS41Frame ->
  rs_ready d ->
  0 <= count <= Z.of_nat (length readBuf) ->
  (exists d' outs,
     run_read stack d count readBuf = Some (d', count / sizeof_RS41Frame, outs) /\
     Z.of_nat (length outs) = count / sizeof_RS41Frame) /\
  (forall c, c < 0 -> run_read stack d c readBuf = Some (d, -1, [])).
Proof.
  intros Hs Hrs Hc. split.
  - unfold run_read. destruct (Z.ltb_spec count 0); [lia|].
    rewrite Z.quot_div_nonneg by lia.
    pose proof (Z.div_pos count sizeof_RS41Frame ltac:(lia) Hs) as Hn.
    pose proof (Z.mul_div_le count sizeof_RS41Frame Hs) as Hle.
    set (n := count / sizeof_RS41Frame) in *.
    destruct (run_total stack (frame_at readBuf <$> seqZ 0 n) d Hrs) as (d' & outs & E & Hlen & _).
    { apply Forall_fmap, Forall_forall. intros i Hi. apply elem_of_seqZ in Hi. cbn.
      apply length_frame_at; [lia|lia|nia]. }
    rewrite E. exists d', outs.
    rewrite length_fmap, length_seqZ in Hlen. rewrite Hlen, Z2Nat.id by lia. auto.
  - intros c Hneg. unfold run_read. destruct (Z.ltb_spec c 0); [reflexivity|lia].
Qed.

(** What every update keeps, the subframe loop keeps. *)
Lemma subframe_loop_keeps {St : Type} (update : St -> RS41Subframe -> St) (P : St -> Prop) :
  (forall st s, P st -> P (update st s)) ->
  forall fuel frame offset st st',
    P st -> subframe_loop update fuel frame offset st = Some st' -> P st'.
Proof.
  intros Hkeep. induction fuel as [|fuel IH]; intros frame offset st st' Hst E; [discriminate|].
  cbn [subframe_loop] in E.
  destruct (offset <? bytesLeft frame); [|injection E as <-; exact Hst].
  destruct (_ >? bytesLeft frame); [injection E as <-; exact Hst|].
  destruct (negb _).
  - eapply IH; [exact Hst|exact E].
  - eapply IH; [apply Hkeep, Hst|exact E].
Qed.

Lemma run_keeps (P : RS41Decoder -> Prop) :
  (forall d s, P d -> P (updateSondeData d s)) ->
  forall stack frames d d' outs, P d -> run stack d frames = Some (d', outs) -> P d'.
Proof.
  intros Hkeep stack. induction frames as [|raw frames IH]; intros d d' outs Hd E.
  - cbn in E. injection E as <- _. exact Hd.
  - cbn [run] in E. destruct (run_frame stack d raw) as [[d1 out]|] eqn:E1; [|discriminate].
    destruct (run stack d1 frames) as [[d2 outs2]|] eqn:E2; [|discriminate].
    injection E as <- _. eapply IH; [|exact E2].
    unfold run_frame in E1.
    destruct (parse_subframes _ _ _) as [d0|] eqn:E0; [|discriminate].
    injection E1 as <- _. eapply subframe_loop_keeps; [exact Hkeep|exact Hd|exact E0].
Qed.

Lemma updateSondeData_sized d subframe :
  buffers_sized d -> buffers_sized (updateSondeData d subframe).
Proof.
  intros [Ht Hb]. destruct (Z.eq_dec (subframe_type subframe) RS41_SFTYPE_INFO) as [E|Hne].
  - unfold updateSondeData. rewrite E, Z.eqb_refl. unfold buffers_sized, updateCalibData.
    cbn [m_calibData m_calibDataBitmap]. unfold clear_fragment_bit.
    rewrite length_memcpy, length_wr. split; assumption.
  - destruct (updateSondeData_calibration_kept d subframe Hne) as (_ & E1 & E2).
    unfold buffers_sized. rewrite E1, E2. split; assumption.
Qed.

(** X3. Once the calibration is complete the flag stays up: on frames whose
    status subframes carry fragment numbers that stay inside the table and
    the bitmap, [run] returns with one record per frame, the flag still up
    and the two buffers at their sizes.  Nothing in the decoding lowers the
    flag; only [init] and [setInput] do. *)
Theorem X3_calibrated_stays_up
  (stack : list Z) (d : RS41Decoder) (frames : list (list Z)) :
  rs_ready d ->
  buffers_sized d ->
  Forall (fun raw => Z.of_nat (length raw) = sizeof_RS41Frame) frames ->
  Forall (fun raw => fragments_in_bounds (corrected_frame d stack raw)) frames ->
  m_calibrated d = true ->
  exists d' outs,
    run stack d frames = Some (d', outs) /\
    length outs = length frames /\
    m_calibrated d' = true /\
    buffers_sized d'.
Proof.
  intros Hrs Hsized Hlen _ Hc.
  destruct (run_total stack frames d Hrs Hlen) as (d' & outs & E & Houts & _).
  exists d', outs. split; [exact E|]. split; [exact Houts|].
  apply (run_keeps (fun d => m_calibrated d = true /\ buffers_sized d)
           (fun d s Hd => conj (updateSondeData_calibrated_mono d s (proj1 Hd))
                               (updateSondeData_sized d s (proj2 Hd)))
           stack frames d d' outs (conj Hc Hsized) E).
Qed.

Lemma foldl_update_fixed subframes d :
  Forall (fun s => handled_type (subframe_type s) = false) subframes ->
  foldl updateSondeData d subframes = d.
Proof.
  intros Hs. induction Hs as [|s l Hs Hl IH]; cbn; [reflexivity|].
  rewrite updateSondeData_unhandled by exact Hs. exact IH.
Qed.

(** X4. A frame whose applied subframes all have a type without a case in
    [updateSondeData] (raw GPS, empty, or unknown) leaves the whole decoder as
    it was; the handler still receives the record. *)
Theorem X4_unhandled_types_change_nothing
  (stack : list Z) (d : RS41Decoder) (raw : list Z) :
  rs_ready d ->
  Z.of_nat (length raw) = sizeof_RS41Frame ->
  Forall (fun s => handled_type (subframe_type s) = false)
         (applied_subframes (corrected_frame d stack raw)) ->
  run_frame stack d raw = Some (d, m_sondeData d).
Proof.
  intros Hrs Hlen Hun.
  destruct (run_frame_applied stack d raw Hrs Hlen) as [E _]. cbn zeta in E.
  rewrite (foldl_update_fixed _ d Hun) in E. exact E.
Qed.

Lemma foldl_update_calibration subframes d :
  Forall (fun s => subframe_type s <> RS41_SFTYPE_INFO) subframes ->
  let d' := foldl updateSondeData d subframes in
  m_calibrated d' = m_calibrated d /\ m_calibData d' = m_calibData d /\
  m_calibDataBitmap d' = m_calibDataBitmap d.
Proof.
  intros Hs. revert d. induction Hs as [|s l Hs Hl IH]; intros d; cbn; [auto|].
  destruct (IH (updateSondeData d s)) as (E1 & E2 & E3).
  destruct (updateSondeData_calibration_kept d s Hs) as (F1 & F2 & F3).
  cbn zeta in *. repeat split; congruence.
Qed.

(** X5. The flag, the calibration table and the bitmap change only through
    status subframes: a frame that applies none leaves all three as they
    were. *)
Theorem X5_calibration_changes_only_by_status
  (stack : list Z) (d : RS41Decoder) (raw : list Z) :
  rs_ready d ->
  Z.of_nat (length raw) = sizeof_RS41Frame ->
  Forall (fun s => subframe_type s <> RS41_SFTYPE_INFO)
         (applied_subframes (corrected_frame d stack raw)) ->
  exists d' out,
    run_frame stack d raw = Some (d', out) /\
    m_calibrated d' = m_calibrated d /\
    m_calibData d' = m_calibData d /\
    m_calibDataBitmap d' = m_calibDataBitmap d.
Proof.
  intros Hrs Hlen Hno.
  destruct (run_frame_applied stack d raw Hrs Hlen) as [E _]. cbn zeta in E.
  eexists _, _. split; [exact E|]. apply (foldl_update_calibration _ d Hno).
Qed.
End RunTheorems.

(** ** The walk over the subframes *)

Lemma frame_subframes_sizes `{Rs41Header} fuel frame : forall offset,
  Forall is_byte frame ->
  offset + foldr (fun s acc => subframe_size s + acc) 0 (frame_subframes fuel frame offset)
    <= Z.max offset (bytesLeft frame) /\
  4 * Z.of_nat (length (frame_subframes fuel frame offset))
    <= foldr (fun s acc => subframe_size s + acc) 0 (frame_subframes fuel frame offset).
Proof.
  intros offset Hb. revert offset. induction fuel as [|fuel IH]; intros offset; cbn [frame_subframes].
  - cbn. lia.
  - destruct (Z.ltb_spec offset (bytesLeft frame)); [|cbn; lia].
    pose proof (subframe_len_nonneg frame offset Hb) as Hlen.
    destruct (Z.leb_spec (offset + subframe_len (subframe_at frame offset) + 4) (bytesLeft frame));
      [|cbn; lia].
    specialize (IH (offset + subframe_len (subframe_at frame offset) + 4)).
    cbn [foldr length]. unfold subframe_size at 1 3. lia.
Qed.

(** X6. The subframes that [run] walks in a frame of bytes lie one after
    the other inside the usable payload: their sizes (length byte plus four)
    add up to at most [bytesLeft], so a frame holds at most [bytesLeft / 4]
    of them. *)
Theorem X6_subframes_fit_in_payload `{Rs41Header} (frame : list Z) :
  Forall is_byte frame ->
  foldr (fun s acc => subframe_size s + acc) 0 (in_bounds_subframes frame)
    <= Z.max 0 (bytesLeft frame) /\
  4 * Z.of_nat (length (in_bounds_subframes frame)) <= Z.max 0 (bytesLeft frame) /\
  Forall (fun s => 4 <= subframe_size s <= 259) (in_bounds_subframes frame).
Proof.
  intros Hb. unfold in_bounds_subframes.
  destruct (frame_subframes_sizes (S (Z.to_nat (bytesLeft frame))) frame 0 Hb) as [Hsum Hcount].
  split; [lia|]. split; [lia|].
  generalize (S (Z.to_nat (bytesLeft frame))) 0. intros fuel.
  induction fuel as [|fuel IH]; intros offset; cbn [frame_subframes]; [constructor|].
  destruct (offset <? bytesLeft frame); [|constructor].
  destruct (_ <=? bytesLeft frame); [|constructor].
  constructor; [|apply IH].
  pose proof (subframe_len_nonneg frame offset Hb). unfold subframe_size. lia.
Qed.

(** ** The calibration table *)

Lemma rd_ext (a b : list Z) :
  length a = length b -> (forall i, 0 <= i < Z.of_nat (length a) -> rd a i = rd b i) -> a = b.
Proof.
  intros Hl Hrd. apply list_eq. intros n.
  destruct (a !! n) as [x|] eqn:Ea.
  - pose proof (lookup_lt_Some _ _ _ Ea) as Hn.
    destruct (lookup_lt_is_Some_2 b n ltac:(lia)) as [y Eb]. rewrite Eb. f_equal.
    rewrite <- (rd_lookup _ _ _ Ea), <- (rd_lookup _ _ _ Eb). apply Hrd. lia.
  - pose proof (lookup_ge_None_1 _ _ Ea). symmetry. apply lookup_ge_None_2. lia.
Qed.

(** [memcpy] inside the destination: the bytes of the source land at
    [off .. off+n-1] and the others stay. *)
Lemma rd_memcpy dst off src n p :
  0 <= off -> off + n <= Z.of_nat (length dst) ->
  rd (memcpy dst off src n) p
  = if (off <=? p) && (p <? off + n) then rd src (p - off) else rd dst p.
Proof.
  intros Hoff Hfit. unfold memcpy.
  destruct (scatter_loop_Z (fun i => off + i) (fun i => rd src i) dst n) as (_ & Hw & Ho).
  { intros i Hi. lia. }
  { intros i j _ _ E. lia. }
  cbn zeta in Hw, Ho.
  destruct (Z.leb_spec off p); destruct (Z.ltb_spec p (off + n)); cbn [andb].
  - replace p with (off + (p - off)) at 1 by lia. apply Hw. lia.
  - apply Ho. intros i Hi. lia.
  - apply Ho. intros i Hi. lia.
  - apply Ho. intros i Hi. lia.
Qed.

Lemma last_fragment_snoc statuses s k :
  last_fragment (statuses ++ [s]) k
  = if frag_seq s =? k then Some (frag_data s) else last_fragment statuses k.
Proof. unfold last_fragment. rewrite foldl_app. reflexivity. Qed.

Lemma foldl_updateCalibData_length `{Rs41Header} statuses d :
  length (m_calibData (foldl updateCalibData d statuses)) = length (m_calibData d).
Proof.
  revert d. induction statuses as [|s l IH]; intros d; cbn; [reflexivity|].
  rewrite IH. unfold updateCalibData. cbn [m_calibData]. apply length_memcpy.
Qed.

(** X7. After any run of status subframes whose fragments fit in the table,
    each fragment slot of the table holds the data of the last subframe that
    carried that fragment number, and a slot no subframe carried holds what it
    held before (the default table after [init]). *)
Theorem X7_table_holds_last_fragment
  `{Rs41Header} (d : RS41Decoder) (statuses : list RS41Subframe_Status) (k j : Z) :
  Forall (fragment_fits d) statuses ->
  0 <= k -> 0 <= j < RS41_CALIB_FRAGSIZE ->
  rd (m_calibData (foldl updateCalibData d statuses)) (k * RS41_CALIB_FRAGSIZE + j)
  = match last_fragment statuses k with
    | Some data => rd data j
    | None => rd (m_calibData d) (k * RS41_CALIB_FRAGSIZE + j)
    end.
Proof.
  intros Hfit Hk Hj. induction statuses as [|s l IH] using rev_ind; [reflexivity|].
  apply Forall_app in Hfit. destruct Hfit as [Hl Hs]. rewrite Forall_singleton in Hs.
  rewrite foldl_app, last_fragment_snoc. cbn [foldl].
  unfold updateCalibData at 1. cbn [m_calibData].
  destruct Hs as [Hseq Hend]. unfold frag_offset.
  rewrite rd_memcpy by (rewrite ?foldl_updateCalibData_length; nia).
  destruct (Z.eqb_spec (frag_seq s) k) as [->|Hne].
  - replace ((k * RS41_CALIB_FRAGSIZE <=? k * RS41_CALIB_FRAGSIZE + j)
             && (k * RS41_CALIB_FRAGSIZE + j <? k * RS41_CALIB_FRAGSIZE + RS41_CALIB_FRAGSIZE))
      with true by zcases.
    f_equal. lia.
  - replace ((frag_seq s * RS41_CALIB_FRAGSIZE <=? k * RS41_CALIB_FRAGSIZE + j)
             && (k * RS41_CALIB_FRAGSIZE + j <? frag_seq s * RS41_CALIB_FRAGSIZE + RS41_CALIB_FRAGSIZE))
      with false; [apply IH, Hl|].
    symmetry. apply andb_false_iff.
    destruct (Z.lt_trichotomy (frag_seq s) k) as [Hlt|[Heq|Hgt]]; [|contradiction|].
    + right. apply Z.ltb_ge. nia.
    + left. apply Z.leb_gt. nia.
Qed.

Lemma memcpy_twice dst off src n :
  0 <= off -> off + n <= Z.of_nat (length dst) ->
  memcpy (memcpy dst off src n) off src n = memcpy dst off src n.
Proof.
  intros Hoff Hfit. apply rd_ext; [rewrite !length_memcpy; reflexivity|].
  intros p _. rewrite (rd_memcpy (memcpy dst off src n)) by (rewrite ?length_memcpy; lia).
  rewrite (rd_memcpy dst) by lia.
  destruct ((off <=? p) && (p <? off + n)); reflexivity.
Qed.

Lemma u8_land_twice x m : u8 (Z.land (u8 (Z.land x m)) m) = u8 (Z.land x m).
Proof.
  unfold u8. change 256 with (2 ^ 8). apply Z.bits_inj'. intros k Hk.
  destruct (Z.ltb_spec k 8).
  - rewrite !Z.mod_pow2_bits_low, !Z.land_spec by lia.
    rewrite Z.mod_pow2_bits_low, Z.land_spec by lia.
    destruct (Z.testbit x k), (Z.testbit m k); reflexivity.
  - rewrite !Z.mod_pow2_bits_high by lia. reflexivity.
Qed.

Lemma clear_fragment_bit_twice bitmap f :
  clear_fragment_bit (clear_fragment_bit bitmap f) f = clear_fragment_bit bitmap f.
Proof.
  unfold clear_fragment_bit. set (q := Z.quot f 8). set (m := Z.lnot _).
  unfold wr, rd. destruct (q <? 0) eqn:Eq; [reflexivity|].
  destruct (decide (Z.to_nat q < length bitmap)%nat) as [Hin|Hout].
  - rewrite list_lookup_insert_eq by exact Hin. cbn [default id].
    rewrite u8_land_twice. apply list_insert_insert_eq.
  - rewrite !list_insert_ge by (rewrite ?length_insert; lia). reflexivity.
Qed.

(** X8. Receiving the same fragment again changes nothing: a status
    subframe applied twice leaves the table, the bitmap and the flag as the
    first application left them. *)
Theorem X8_fragment_twice_is_once
  `{Rs41Header} (d : RS41Decoder) (status : RS41Subframe_Status) :
  0 <= RS41_CALIB_FRAGSIZE ->
  fragment_fits d status ->
  updateCalibData (updateCalibData d status) status = updateCalibData d status.
Proof.
  intros Hsize [Hseq Hend]. unfold updateCalibData.
  cbn [m_rs m_calibrated m_calibData m_calibDataBitmap m_sondeData].
  rewrite clear_fragment_bit_twice.
  rewrite memcpy_twice by (unfold frag_offset; nia).
  destruct (bitmap_clear _); reflexivity.
Qed.

(** X9. [setInput] lowers the flag whatever had been assembled, keeps the
    bytes of the table of the previous input, and starts the assembly again:
    the flag comes back up exactly when every fragment has been received
    after the call. *)
Theorem X9_setInput_restarts_assembly
  `{Rs41Header} (blank : SondeData) (d : RS41Decoder)
  (statuses : list RS41Subframe_Status) (n : nat) :
  bitmap_fits ->
  Forall (fun s => 0 <= frag_seq s < RS41_CALIB_FRAGCOUNT) statuses ->
  m_calibrated (setInput blank d) = false /\
  m_calibData (setInput blank d) = m_calibData d /\
  (m_calibrated (calibration_after (setInput blank d) statuses n) = true <->
     forall k, 0 <= k < RS41_CALIB_FRAGCOUNT -> k ∈ frag_seq <$> take n statuses).
Proof.
  intros Hfit Hs. split; [reflexivity|]. split; [reflexivity|].
  unfold calibration_after.
  apply (assembler_complete Hfit (setInput blank d) eq_refl eq_refl (take n statuses)).
  apply Forall_take, Hs.
Qed.

(** X10. The bitmap that [init] and [setInput] build has the bit of every
    fragment below the fragment count set and every bit beyond it clear, so
    the unused bits of the last byte never hold the flag down. *)
Theorem X10_fresh_bitmap_marks_the_fragments `{Rs41Header} (k : Z) :
  bitmap_fits ->
  0 <= k < 8 * sizeof_calibDataBitmap ->
  Z.of_nat (length fresh_bitmap) = sizeof_calibDataBitmap /\
  Forall is_byte fresh_bitmap /\
  (fragment_missing fresh_bitmap k = true <-> k < RS41_CALIB_FRAGCOUNT).
Proof.
  intros Hfit Hk. destruct (fresh_bitmap_shape Hfit) as [Hl Hb].
  split; [exact Hl|]. split; [exact Hb|].
  rewrite (fresh_bitmap_bits Hfit k Hk). apply Z.ltb_lt.
Qed.

(** ** Single-precision arithmetic on the channels *)

Lemma shr_1_m mrs : 0 <= shr_m mrs -> shr_m (shr_1 mrs) = shr_m mrs / 2.
Proof.
  destruct mrs as [m r s]. cbn [shr_m]. intros Hm. rewrite <- Z.div2_div.
  destruct m as [|[p|p|]|p]; cbn; try reflexivity; lia.
Qed.

Lemma iter_shr_1_m n : forall mrs,
  0 <= shr_m mrs -> shr_m (iter_pos shr_1 n mrs) = shr_m mrs / 2 ^ Z.pos n.
Proof.
  assert (Hpow : forall k, 0 < 2 ^ Z.pos k) by (intros k; apply Z.pow_pos_nonneg; lia).
  induction n as [n IH|n IH|]; intros mrs Hm; cbn [iter_pos].
  - assert (H1 : 0 <= shr_m (shr_1 mrs)) by (rewrite shr_1_m by lia; apply Z.div_pos; lia).
    assert (H2 : 0 <= shr_m (iter_pos shr_1 n (shr_1 mrs)))
      by (rewrite IH by lia; apply Z.div_pos; [lia|apply Hpow]).
    rewrite IH, IH, shr_1_m by lia.
    specialize (Hpow n).
    rewrite !Z.div_div by lia.
    replace (Z.pos n~1) with (Z.pos n + Z.pos n + 1) by lia.
    rewrite !Z.pow_add_r, Z.pow_1_r by lia. f_equal. lia.
  - assert (H2 : 0 <= shr_m (iter_pos shr_1 n mrs))
      by (rewrite IH by lia; apply Z.div_pos; [lia|apply Hpow]).
    rewrite IH, IH by lia.
    specialize (Hpow n).
    rewrite !Z.div_div by lia.
    replace (Z.pos n~0) with (Z.pos n + Z.pos n) by lia.
    rewrite !Z.pow_add_r by lia. reflexivity.
  - rewrite shr_1_m by lia. reflexivity.
Qed.

Lemma digits2_pos_lower (m : positive) : 2 ^ (Z.pos (digits2_pos m) - 1) <= Z.pos m.
Proof.
  induction m as [m IH|m IH|]; cbn [digits2_pos].
  - rewrite Pos2Z.inj_succ.
    replace (Z.succ (Z.pos (digits2_pos m)) - 1) with (Z.succ (Z.pos (digits2_pos m) - 1)) by lia.
    rewrite Z.pow_succ_r by lia. lia.
  - rewrite Pos2Z.inj_succ.
    replace (Z.succ (Z.pos (digits2_pos m)) - 1) with (Z.succ (Z.pos (digits2_pos m) - 1)) by lia.
    rewrite Z.pow_succ_r by lia. lia.
  - cbn. lia.
Qed.

Lemma pos_iter_xO (q m : positive) : Z.pos (Pos.iter xO m q) = Z.pos m * 2 ^ Z.pos q.
Proof.
  induction q as [|q IH] using Pos.peano_ind.
  - cbn. lia.
  - rewrite Pos.iter_succ, Pos2Z.inj_xO, IH, Pos2Z.inj_succ, Z.pow_succ_r by lia. lia.
Qed.

(** The shift to the working exponent keeps a mantissa positive as long as
    the exponent is not below the smallest one. *)
Lemma shr_fexp_pos (m : positive) e l :
  -149 <= e ->
  0 < shr_m (fst (shr_fexp 24 128 (Z.pos m) e l)) /\
  -149 <= snd (shr_fexp 24 128 (Z.pos m) e l).
Proof.
  intros He. unfold shr_fexp, Zdigits2, fexp, emin, shr.
  set (d := Z.pos (digits2_pos m)).
  assert (Hrec : shr_m (shr_record_of_loc (Z.pos m) l) = Z.pos m)
    by (destruct l as [|[| |]]; reflexivity).
  destruct (Z.max (d + e - 24) (3 - 128 - 24) - e) as [|n|n] eqn:En; cbn [fst snd].
  - rewrite Hrec. lia.
  - rewrite iter_shr_1_m by (rewrite Hrec; lia). rewrite Hrec.
    assert (Hn : Z.pos n <= d - 1) by lia.
    pose proof (digits2_pos_lower m) as Hlow. fold d in Hlow.
    assert (2 ^ Z.pos n <= 2 ^ (d - 1)) by (apply Z.pow_le_mono_r; lia).
    assert (0 < 2 ^ Z.pos n) by (apply Z.pow_pos_nonneg; lia).
    split; [|lia]. apply Z.div_str_pos. lia.
  - rewrite Hrec. lia.
Qed.

(** Rounding a positive mantissa whose exponent is not below the smallest
    one never gives a zero or a NaN. *)
Lemma binary_round_aux_not_zero s (m : positive) e l :
  -149 <= e ->
  exists s' m' e', binary_round_aux 24 128 s (Z.pos m) e l = S754_finite s' m' e' \/
                   binary_round_aux 24 128 s (Z.pos m) e l = S754_infinity s'.
Proof.
  intros He. unfold binary_round_aux.
  destruct (shr_fexp_pos m e l He) as [Hm1 He1].
  destruct (shr_fexp 24 128 (Z.pos m) e l) as [mrs1 e1]. cbn [fst snd] in Hm1, He1.
  assert (Hr : 0 < round_nearest_even (shr_m mrs1) (loc_of_shr_record mrs1)).
  { unfold round_nearest_even. destruct (loc_of_shr_record mrs1) as [|[| |]]; try lia.
    destruct (Z.even (shr_m mrs1)); lia. }
  destruct (round_nearest_even (shr_m mrs1) (loc_of_shr_record mrs1)) as [|m2|m2]; try lia.
  destruct (shr_fexp_pos m2 e1 loc_Exact He1) as [Hm3 _].
  destruct (shr_fexp 24 128 (Z.pos m2) e1 loc_Exact) as [mrs3 e3]. cbn [fst] in Hm3.
  destruct (shr_m mrs3) as [|m3|m3]; try lia.
  exists s, m3, e3. destruct (e3 <=? 128 - 24); auto.
Qed.

Lemma binary_normalize_not_zero D e :
  D <> 0 -> -149 <= e ->
  exists s' m' e', binary_normalize 24 128 D e false = S754_finite s' m' e' \/
                   binary_normalize 24 128 D e false = S754_infinity s'.
Proof.
  intros HD He.
  assert (Hround : forall s m, exists s' m' e',
    binary_round 24 128 s m e = S754_finite s' m' e' \/
    binary_round 24 128 s m e = S754_infinity s').
  { intros s m. unfold binary_round, shl_align, fexp, emin.
    destruct (Z.max (Z.pos (digits2_pos m) + e - 24) (3 - 128 - 24) - e) as [|q|q] eqn:Eq;
      apply binary_round_aux_not_zero; lia. }
  destruct D as [|p|p]; [contradiction|apply Hround..].
Qed.

(** The float of a positive integer of at most 24 bits, spelled out: the
    mantissa is the integer shifted left by the opposite of the exponent. *)
Lemma float_of_Z_pos (p : positive) :
  Z.pos p < 2 ^ 24 ->
  exists m e, float_of_Z (Z.pos p) = S754_finite false m e /\
              -23 <= e <= 0 /\ Z.pos m = Z.pos p * 2 ^ (- e).
Proof.
  intros Hp. unfold float_of_Z, binary_normalize, binary_round.
  pose proof (digits2_pos_bound p 24 ltac:(lia) ltac:(lia)) as Hd.
  unfold fexp, emin.
  replace (Z.max (Z.pos (digits2_pos p) + 0 - 24) (3 - 128 - 24))
    with (Z.pos (digits2_pos p) - 24) by lia.
  unfold shl_align.
  destruct (Z.pos (digits2_pos p) - 24 - 0) as [|q|q] eqn:Eq; [| lia |].
  - rewrite binary_round_aux_exact by lia. exists p, 0. split; [reflexivity|].
    split; [lia|]. cbn. lia.
  - rewrite binary_round_aux_exact; [| rewrite digits2_pos_iter_xO; lia | lia].
    eexists _, _. split; [reflexivity|]. split; [lia|].
    rewrite pos_iter_xO. f_equal. f_equal. lia.
Qed.

Lemma shl_align_value (m : positive) e ez :
  ez <= e -> Z.pos (fst (shl_align m e ez)) = Z.pos m * 2 ^ (e - ez).
Proof.
  intros Hle. unfold shl_align.
  destruct (ez - e) as [|q|q] eqn:Eq; cbn [fst]; [|lia|].
  - replace (e - ez) with 0 by lia. cbn. lia.
  - rewrite pos_iter_xO. f_equal. f_equal. lia.
Qed.

(** The difference of the floats of two integers of at most 24 bits is
    zero exactly when the integers are equal. *)
Lemma span_zero_iff a b :
  0 <= a < 2 ^ 24 -> 0 <= b < 2 ^ 24 ->
  fis_zero (float_of_Z b - float_of_Z a)%F = true <-> a = b.
Proof.
  intros Ha Hb. split.
  - intros Hz. destruct (Z.eq_dec a b) as [E|Hne]; [exact E|exfalso].
    destruct a as [|pa|pa]; [| |lia]; destruct b as [|pb|pb]; try lia.
    + destruct (float_of_Z_pos pb ltac:(lia)) as (m & e & E & _). rewrite E in Hz.
      cbn in Hz. discriminate.
    + destruct (float_of_Z_pos pa ltac:(lia)) as (m & e & E & _). rewrite E in Hz.
      cbn in Hz. discriminate.
    + destruct (float_of_Z_pos pa ltac:(lia)) as (ma & ea & Ea & Hea & Hma).
      destruct (float_of_Z_pos pb ltac:(lia)) as (mb & eb & Eb & Heb & Hmb).
      rewrite Ea, Eb in Hz. unfold fsub, SFsub in Hz. cbn [cond_Zopp] in Hz.
      rewrite !shl_align_value in Hz by lia.
      set (ez := Z.min eb ea) in *.
      assert (HD : Z.pos mb * 2 ^ (eb - ez) - Z.pos ma * 2 ^ (ea - ez) <> 0).
      { rewrite Hma, Hmb, <- !Z.mul_assoc, <- !Z.pow_add_r by lia.
        replace (- eb + (eb - ez)) with (- ez) by lia.
        replace (- ea + (ea - ez)) with (- ez) by lia.
        assert (0 < 2 ^ (- ez)) by (apply Z.pow_pos_nonneg; lia). nia. }
      destruct (binary_normalize_not_zero _ ez HD ltac:(lia)) as (s' & m' & e' & [E|E]);
        rewrite E in Hz; destruct s'; cbn in Hz; discriminate.
  - intros ->.
    destruct (float_of_Z_finite b Hb) as [->|(m & e & ->)]; [reflexivity|].
    unfold fsub, SFsub. cbn [cond_Zopp]. rewrite Z.sub_diag. reflexivity.
Qed.

Lemma lor_shift_add_n n x y :
  0 <= n -> 0 <= x < 2 ^ n -> 0 <= y -> Z.lor x (Z.shiftl y n) = x + y * 2 ^ n.
Proof.
  intros Hn Hx Hy.
  assert (Hd : Z.land x (Z.shiftl y n) = 0).
  { apply Z.bits_inj'. intros k Hk. rewrite Z.land_spec, Z.bits_0.
    destruct (Z.ltb_spec k n).
    - rewrite Z.shiftl_spec_low by lia. apply andb_false_r.
    - rewrite (high_bit n x k) by (assumption || lia). reflexivity. }
  rewrite <- Z.lxor_lor, <- Z.add_nocarry_lxor by exact Hd.
  rewrite Z.shiftl_mul_pow2 by lia. reflexivity.
Qed.

(** X11. The three bytes of a channel are put together least significant
    byte first: the count is [b0 + 256 b1 + 65536 b2], below [2^24], and two
    channels convert to the same float only if their counts are equal. *)
Theorem X11_channel_is_little_endian (b b' : list Z) :
  Forall is_byte b -> Forall is_byte b' ->
  adc_count b = rd b 0 + 256 * rd b 1 + 65536 * rd b 2 /\
  0 <= adc_count b < 2 ^ 24 /\
  (adc b = adc b' -> adc_count b = adc_count b').
Proof.
  intros Hb Hb'. split; [|split; [apply adc_count_range, Hb|]].
  - unfold adc_count, u32.
    pose proof (rd_is_byte b 0 Hb) as H0. pose proof (rd_is_byte b 1 Hb) as H1.
    pose proof (rd_is_byte b 2 Hb) as H2. unfold is_byte in *.
    rewrite (Z.mod_small (rd b 0)), (Z.mod_small (rd b 1)), (Z.mod_small (rd b 2)) by lia.
    rewrite (Z.shiftl_mul_pow2 (rd b 1)), (Z.shiftl_mul_pow2 (rd b 2)) by lia.
    rewrite (Z.mod_small (rd b 1 * 2 ^ 8)), (Z.mod_small (rd b 2 * 2 ^ 16)) by lia.
    rewrite <- (Z.shiftl_mul_pow2 (rd b 1)), <- (Z.shiftl_mul_pow2 (rd b 2)) by lia.
    rewrite (lor_shift_add_n 8) by lia.
    rewrite (lor_shift_add_n 16) by lia.
    rewrite Z.mod_small by lia. lia.
  - intros E. symmetry.
    apply (proj1 (span_zero_iff (adc_count b') (adc_count b)
                    (adc_count_range _ Hb') (adc_count_range _ Hb))).
    unfold adc in E. rewrite E.
    apply (proj2 (span_zero_iff (adc_count b') (adc_count b')
                    (adc_count_range _ Hb') (adc_count_range _ Hb'))). reflexivity.
Qed.

(** X12. [temp] takes its NaN exit exactly when the two reference channels
    are equal; for unequal references it returns the sum of [t_uncal] and of
    the correction of the 5th degree at [t_uncal]. *)
Theorem X12_temp_guard_is_equal_references (calib : RS41Calibration) (ptu : RS41Subframe_PTU) :
  Forall is_byte (temp_ref1 ptu) -> Forall is_byte (temp_ref2 ptu) ->
  let ratio := adc_ratio (temp_main ptu) (temp_ref1 ptu) (temp_ref2 ptu) in
  let r_t := (interpolate (fnth (t_ref calib) 0) (fnth (t_ref calib) 1) ratio
              * fnth (t_calib_coeff calib) 0)%F in
  let t_uncal := poly2 (t_temp_poly calib) r_t in
  (fis_zero (adc (temp_ref2 ptu) - adc (temp_ref1 ptu))%F = true
     <-> adc_count (temp_ref1 ptu) = adc_count (temp_ref2 ptu)) /\
  (adc_count (temp_ref1 ptu) <> adc_count (temp_ref2 ptu) ->
     temp calib ptu = (horner (correction_coeff (t_calib_coeff calib)) t_uncal + t_uncal)%F).
Proof.
  intros H1 H2. cbn zeta.
  pose proof (span_zero_iff (adc_count (temp_ref1 ptu)) (adc_count (temp_ref2 ptu))
                (adc_count_range _ H1) (adc_count_range _ H2)) as Hspan.
  split; [exact Hspan|].
  intros Hne.
  assert (E : fis_zero (adc (temp_ref2 ptu) - adc (temp_ref1 ptu))%F = false).
  { apply not_true_is_false. intros E. apply Hne, Hspan, E. }
  unfold temp, poly2, interpolate, adc_ratio. rewrite E, calib_loop_horner. reflexivity.
Qed.

Lemma SFltb_leb a b : SFltb a b = true -> SFleb a b = true.
Proof. unfold SFltb, SFleb. destruct (SFcompare a b) as [[| |]|]; congruence. Qed.

(** The clamp at the end of [rh] gives a number between 0 and 100 whatever
    it is handed, a NaN included. *)
Lemma clamp_range x :
  let r := fmax (float_of_Z 0) (fmin (float_of_Z 100) x) in
  fis_nan r = false /\ SFleb (float_of_Z 0) r = true /\ SFleb r (float_of_Z 100) = true.
Proof.
  cbn zeta.
  change (float_of_Z 0) with (S754_zero false).
  assert (H100 : float_of_Z 100 = S754_finite false 13107200 (-17)) by (vm_compute; reflexivity).
  rewrite H100. set (h := S754_finite false 13107200 (-17)).
  assert (Hzh : SFltb (S754_zero false) h = true) by reflexivity.
  unfold fmin, fmax. cbn [fis_nan h].
  destruct (fis_nan x) eqn:Ex.
  - fold h. cbn [fis_nan h]. rewrite Hzh. repeat split; reflexivity.
  - destruct (SFltb x h) eqn:Exh.
    + rewrite Ex. destruct (SFltb (S754_zero false) x) eqn:Ezx.
      * split; [exact Ex|]. split; apply SFltb_leb; assumption.
      * repeat split; reflexivity.
    + fold h. cbn [fis_nan h]. rewrite Hzh. repeat split; reflexivity.
Qed.

(** X13. [rh] returns NaN exactly when the two humidity reference channels
    are equal.  For unequal references the value lies between 0 and 100,
    also when the temperature of the sensor or of the air is NaN: a NaN that
    reaches the clamp comes out as 100. *)
Theorem X13_rh_is_nan_or_a_percentage
  `{Collaborators} (calib : RS41Calibration) (ptu : RS41Subframe_PTU) :
  Forall is_byte (humidity_ref1 ptu) -> Forall is_byte (humidity_ref2 ptu) ->
  (rh calib ptu = NAN <-> adc_count (humidity_ref1 ptu) = adc_count (humidity_ref2 ptu)) /\
  (adc_count (humidity_ref1 ptu) <> adc_count (humidity_ref2 ptu) ->
     SFleb (float_of_Z 0) (rh calib ptu) = true /\
     SFleb (rh calib ptu) (float_of_Z 100) = true) /\
  fmax (float_of_Z 0) (fmin (float_of_Z 100) NAN) = float_of_Z 100.
Proof.
  intros H1 H2.
  pose proof (span_zero_iff (adc_count (humidity_ref1 ptu)) (adc_count (humidity_ref2 ptu))
                (adc_count_range _ H1) (adc_count_range _ H2)) as Hspan.
  unfold rh. unfold adc in Hspan |- *.
  destruct (fis_zero _) eqn:E.
  - split; [split; [intros _; apply Hspan; reflexivity|reflexivity]|].
    split; [|vm_compute; reflexivity].
    intros Hne. exfalso. apply Hne, Hspan. reflexivity.
  - match goal with |- context [fmax _ (fmin _ ?x)] => pose proof (clamp_range x) as Hc end.
    cbn zeta in Hc. destruct Hc as (Hnan & Hlo & Hhi).
    split; [|split; [intros _; split; assumption|vm_compute; reflexivity]].
    split.
    + intros En. rewrite En in Hnan. discriminate.
    + intros Eq. apply Hspan in Eq. congruence.
Qed.

(** ** What [rsCorrect] writes *)

Section RsCorrectWrites.
Context `{Rs41Header}.
Hypothesis layout : frame_layout_ok.

Variables (codec : rs_codec) (stack frame : list Z).
Hypothesis frame_size : Z.of_nat (length frame) = sizeof_RS41Frame.
Hypothesis stack_size : Z.of_nat (length stack) = RS41_REEDSOLOMON_N.
Hypothesis keeps : codec_keeps_size codec.

(** The bytes of the frame that belong to no block below [n] are, before
    block [n], as they were received. *)
Lemma rs_loop_untouched (n : nat) (p : Z) :
  Z.of_nat n <= RS41_REEDSOLOMON_INTERLEAVING ->
  (forall b i, 0 <= b < Z.of_nat n -> 0 <= i < rs_chunk_len frame ->
     offsetof_data + rs_data_index b i <> p) ->
  (forall b i, 0 <= b < Z.of_nat n -> 0 <= i < RS41_REEDSOLOMON_T ->
     offsetof_rs_checksum + (i + RS41_REEDSOLOMON_T * b) <> p) ->
  rd (rs_frame (rs_before codec stack frame (Z.of_nat n))) p = rd frame p.
Proof.
  induction n as [|n IH]; intros Hn Hd Hp.
  - reflexivity.
  - destruct (rs_loop_invariant layout codec stack frame frame_size stack_size keeps n
                ltac:(lia)) as (Lf & _).
    cbn zeta in Lf.
    rewrite (rs_before_succ codec stack frame n), (rs_block_step_result codec stack frame).
    cbn [rs_frame].
    destruct (rs_reinterleave_spec layout
                (rs_frame (rs_before codec stack frame (Z.of_nat n)))
                (snd (rs_decode_result codec stack frame (Z.of_nat n)))
                (rs_chunk_len frame) (Z.of_nat n) Lf (rs_chunk_len_ok layout frame)
                ltac:(lia)) as (_ & _ & _ & Hother).
    rewrite Hother.
    + apply IH; [lia| |]; intros b i Hb Hi; [apply Hd|apply Hp]; lia.
    + intros i Hi. apply Hd; lia.
    + intros i Hi. apply Hp; lia.
Qed.

(** The frame after [rsCorrect], byte by byte. *)
Lemma rsCorrect_frame :
  let out := fst (rsCorrect codec stack frame) in
  let result := rs_decode_result codec stack frame in
  length out = length frame /\
  (forall b i, 0 <= b < RS41_REEDSOLOMON_INTERLEAVING -> 0 <= i < rs_chunk_len frame ->
     rd out (offsetof_data + rs_data_index b i) = rd (snd (result b)) i) /\
  (forall b i, 0 <= b < RS41_REEDSOLOMON_INTERLEAVING -> 0 <= i < RS41_REEDSOLOMON_T ->
     rd out (offsetof_rs_checksum + (i + RS41_REEDSOLOMON_T * b))
     = rd (snd (result b)) (RS41_REEDSOLOMON_K + i)) /\
  (forall p,
     (forall b i, 0 <= b < RS41_REEDSOLOMON_INTERLEAVING -> 0 <= i < rs_chunk_len frame ->
        offsetof_data + rs_data_index b i <> p) ->
     (forall b i, 0 <= b < RS41_REEDSOLOMON_INTERLEAVING -> 0 <= i < RS41_REEDSOLOMON_T ->
        offsetof_rs_checksum + (i + RS41_REEDSOLOMON_T * b) <> p) ->
     rd out p = rd frame p).
Proof.
  cbn zeta. unfold rsCorrect. cbn [fst].
  pose proof (layout_interleaving layout) as Hi.
  pose proof (rs_loop_invariant layout codec stack frame frame_size stack_size keeps
                (Z.to_nat RS41_REEDSOLOMON_INTERLEAVING) ltac:(lia)) as Hend.
  pose proof (rs_loop_untouched (Z.to_nat RS41_REEDSOLOMON_INTERLEAVING)) as Hun.
  cbn zeta in Hend. rewrite Z2Nat.id in Hend, Hun by lia.
  destruct Hend as (Lf & _ & _ & Hdata & Hparity & _ & _).
  split; [lia|]. split; [exact Hdata|]. split; [exact Hparity|].
  intros p Hd Hp. apply Hun; [lia|exact Hd|exact Hp].
Qed.

(** The blocks that the decoder is handed hold the received symbols. *)
Lemma rs_decode_input_received b :
  0 <= b < RS41_REEDSOLOMON_INTERLEAVING ->
  let input := rs_decode_input (rs_chunk_len frame) (rs_before codec stack frame b) b in
  (forall i, 0 <= i < rs_chunk_len frame ->
     rd input i = frame_data frame (rs_data_index b i)) /\
  (forall i, 0 <= i < RS41_REEDSOLOMON_T ->
     rd input (RS41_REEDSOLOMON_K + i) = frame_rs_checksum frame (i + RS41_REEDSOLOMON_T * b)).
Proof.
  intros Hb. cbn zeta.
  pose proof (rs_loop_invariant layout codec stack frame frame_size stack_size keeps
                (Z.to_nat b) ltac:(lia)) as Hat.
  cbn zeta in Hat. rewrite Z2Nat.id in Hat by lia.
  destruct Hat as (Lf & Lb & _ & _ & _ & Hd' & Hp').
  destruct (rs_deinterleave_spec layout (rs_frame (rs_before codec stack frame b))
              (rs_block (rs_before codec stack frame b)) (rs_chunk_len frame) b
              (rs_chunk_len_ok layout frame) Lb) as (_ & Rd & Rp).
  unfold rs_decode_input. split; intros i Hi'.
  - rewrite Rd by exact Hi'. apply Hd'; lia.
  - rewrite Rp by exact Hi'. apply Hp'; lia.
Qed.
End RsCorrectWrites.

(** X14. [rsCorrect] writes only the parity bytes and the bytes that the
    interleaved codewords cover (the byte before the payload and the first
    [interleaving * chunk_len - 1] bytes of the payload): every byte of the
    frame before the parity bytes, and every byte from the end of the
    codewords on, is left as it was, and the frame keeps its size. *)
Theorem X14_rsCorrect_leaves_the_rest
  `{Rs41Header} (codec : rs_codec) (stack frame : list Z) (p : Z) :
  frame_layout_ok ->
  Z.of_nat (length frame) = sizeof_RS41Frame ->
  Z.of_nat (length stack) = RS41_REEDSOLOMON_N ->
  codec_keeps_size codec ->
  p < offsetof_rs_checksum \/
  offsetof_rs_checksum + RS41_REEDSOLOMON_T * RS41_REEDSOLOMON_INTERLEAVING <= p < offsetof_data - 1 \/
  offsetof_data - 1 + RS41_REEDSOLOMON_INTERLEAVING * rs_chunk_len frame <= p ->
  length (fst (rsCorrect codec stack frame)) = length frame /\
  rd (fst (rsCorrect codec stack frame)) p = rd frame p.
Proof.
  intros Hlay Hf Hs Hkeep Hp.
  destruct (rsCorrect_frame Hlay codec stack frame Hf Hs Hkeep) as (Hlen & _ & _ & Hother).
  cbn zeta in *. split; [exact Hlen|].
  pose proof (layout_interleaving Hlay) as HI. pose proof (layout_t Hlay) as HT.
  pose proof (layout_rs_before_data Hlay) as Hbefore.
  pose proof (rs_chunk_len_ok Hlay frame) as [Hc _].
  assert (0 <= RS41_REEDSOLOMON_T * RS41_REEDSOLOMON_INTERLEAVING) by nia.
  apply Hother.
  - intros b i Hb Hi. unfold rs_data_index.
    assert (0 <= RS41_REEDSOLOMON_INTERLEAVING * i) by nia.
    assert (RS41_REEDSOLOMON_INTERLEAVING * (i + 1)
            <= RS41_REEDSOLOMON_INTERLEAVING * rs_chunk_len frame) by nia.
    lia.
  - intros b i Hb Hi.
    assert (0 <= RS41_REEDSOLOMON_T * b) by nia.
    assert (RS41_REEDSOLOMON_T * (b + 1)
            <= RS41_REEDSOLOMON_T * RS41_REEDSOLOMON_INTERLEAVING) by nia.
    lia.
Qed.

(** X15. When the decoder finds nothing to correct, which is to say leaves
    every block as it was handed it, [rsCorrect] gives the frame back
    unchanged: reinterleaving undoes deinterleaving. *)
Theorem X15_rsCorrect_without_corrections
  `{Rs41Header} (codec : rs_codec) (stack frame : list Z) :
  frame_layout_ok ->
  Z.of_nat (length frame) = sizeof_RS41Frame ->
  Z.of_nat (length stack) = RS41_REEDSOLOMON_N ->
  (forall blk, snd (codec blk) = blk) ->
  fst (rsCorrect codec stack frame) = frame.
Proof.
  intros Hlay Hf Hs Hid.
  assert (Hkeep : codec_keeps_size codec) by (intros blk; rewrite Hid; reflexivity).
  destruct (rsCorrect_frame Hlay codec stack frame Hf Hs Hkeep) as (Hlen & Hd & Hp & Hother).
  cbn zeta in *. apply rd_ext; [exact Hlen|]. intros p _.
  pose proof (layout_interleaving Hlay) as Hi. pose proof (layout_t Hlay) as Ht.
  pose proof (layout_rs_before_data Hlay) as Hbefore.
  pose proof (rs_chunk_len_ok Hlay frame) as [Hc _].
  set (I := RS41_REEDSOLOMON_INTERLEAVING) in *. set (T := RS41_REEDSOLOMON_T) in *.
  set (c := rs_chunk_len frame) in *.
  assert (Hdata : forall b i, 0 <= b < I -> 0 <= i < c ->
            offsetof_data - 1 <= offsetof_data + rs_data_index b i < offsetof_data - 1 + I * c).
  { intros b i Hb Hi'. unfold rs_data_index. fold I.
    assert (0 <= I * i) by nia. assert (I * (i + 1) <= I * c) by nia. lia. }
  assert (Hpar' : forall b i, 0 <= b < I -> 0 <= i < T ->
            offsetof_rs_checksum <= offsetof_rs_checksum + (i + T * b)
            < offsetof_rs_checksum + T * I).
  { intros b i Hb Hi'.
    assert (0 <= T * b) by nia. assert (T * (b + 1) <= T * I) by nia. lia. }
  destruct (Z_lt_le_dec p (offsetof_data - 1)) as [Hlow|Hhigh].
  - destruct (Z_lt_le_dec p offsetof_rs_checksum) as [Hpre|Hpar].
    + apply Hother; intros b i Hb Hi'; [pose proof (Hdata b i Hb Hi')|pose proof (Hpar' b i Hb Hi')]; lia.
    + destruct (Z_lt_le_dec p (offsetof_rs_checksum + T * I)) as [Hin|Hbetween].
      * set (q := p - offsetof_rs_checksum).
        assert (Hq : 0 <= q < T * I) by (unfold q; lia).
        assert (HT : 0 < T) by nia.
        pose proof (Z.div_mod q T ltac:(lia)) as Hdm.
        pose proof (Z.mod_pos_bound q T HT) as Hm.
        assert (Hb : 0 <= q / T < I)
          by (split; [apply Z.div_pos; lia|apply Z.div_lt_upper_bound; lia]).
        replace p with (offsetof_rs_checksum + (q mod T + T * (q / T))) by (unfold q in *; lia).
        rewrite (Hp (q / T) (q mod T) Hb Hm).
        unfold rs_decode_result. rewrite Hid.
        destruct (rs_decode_input_received Hlay codec stack frame Hf Hs Hkeep (q / T) Hb)
          as [_ Rp].
        exact (Rp (q mod T) Hm).
      * apply Hother; intros b i Hb Hi'; [pose proof (Hdata b i Hb Hi')|pose proof (Hpar' b i Hb Hi')]; lia.
  - destruct (Z_lt_le_dec p (offsetof_data - 1 + I * c)) as [Hin|Hout].
    + set (q := p - (offsetof_data - 1)).
      assert (Hq : 0 <= q < I * c) by (unfold q; lia).
      pose proof (Z.div_mod q I ltac:(lia)) as Hdm.
      pose proof (Z.mod_pos_bound q I Hi) as Hm.
      assert (Hb : 0 <= q / I < c)
        by (split; [apply Z.div_pos; lia|apply Z.div_lt_upper_bound; lia]).
      replace p with (offsetof_data + rs_data_index (q mod I) (q / I))
        by (unfold rs_data_index; fold I; unfold q in *; lia).
      rewrite (Hd (q mod I) (q / I) Hm Hb).
      unfold rs_decode_result. rewrite Hid.
      destruct (rs_decode_input_received Hlay codec stack frame Hf Hs Hkeep (q mod I) Hm)
        as [Rd _].
      exact (Rd (q / I) Hb).
    + apply Hother; intros b i Hb Hi'; [pose proof (Hdata b i Hb Hi')|pose proof (Hpar' b i Hb Hi')]; lia.
Qed.

(** ** Descrambling loses nothing *)

Lemma descramble_pointwise `{Rs41Header} (rawFrame : list Z) (i : Z) :
  Z.of_nat (length rawFrame) = sizeof_RS41Frame ->
  Forall is_byte rawFrame ->
  0 <= i < sizeof_RS41Frame ->
  rd (descramble rawFrame) i
  = Z.lxor (Z.lxor 0xFF (reverse8 (rd rawFrame i))) (rd _prn (i mod RS41_PRN_PERIOD)).
Proof.
  intros Hlen Hbytes Hi. unfold descramble, descramble_step. rewrite <- Hlen in *.
  destruct (pointwise_loop
    (fun i b => u8 (Z.lxor (Z.lxor 0xFF (descramble_tmp b)) (rd _prn (i mod RS41_PRN_PERIOD))))
    rawFrame (length rawFrame)) as [_ Hr]; [lia|].
  cbn zeta in Hr. rewrite Hr.
  replace ((0 <=? i) && (i <? Z.of_nat (length rawFrame))) with true by zcases.
  pose proof (rd_is_byte rawFrame i Hbytes) as Hb.
  rewrite descramble_tmp_reverse8 by exact Hb.
  apply u8_byte, lxor_is_byte; [apply lxor_is_byte|].
  - unfold is_byte; lia.
  - apply reverse8_is_byte, Hb.
  - apply rd_is_byte, prn_bytes.
Qed.

(** X16. [descramble] is one-to-one on frames of bytes: two received frames
    with the same descrambled content are the same frame, so the bit reversal
    and the whitening sequence lose no information. *)
Theorem X16_descramble_is_one_to_one `{Rs41Header} (a b : list Z) :
  Z.of_nat (length a) = sizeof_RS41Frame ->
  Z.of_nat (length b) = sizeof_RS41Frame ->
  Forall is_byte a -> Forall is_byte b ->
  descramble a = descramble b -> a = b.
Proof.
  intros La Lb Ba Bb E. apply rd_ext; [lia|]. intros i Hi.
  assert (Hi' : 0 <= i < sizeof_RS41Frame) by lia.
  pose proof (descramble_pointwise a i La Ba Hi') as Ea.
  pose proof (descramble_pointwise b i Lb Bb Hi') as Eb.
  rewrite E, Eb in Ea.
  rewrite !(Z.lxor_comm _ (rd _prn _)) in Ea.
  apply lxor_cancel_l, lxor_cancel_l in Ea.
  rewrite <- (reverse8_involutive (rd a i)), <- (reverse8_involutive (rd b i))
    by (apply rd_is_byte; assumption).
  f_equal. symmetry. exact Ea.
Qed.

(** ** Which subframe writes which field *)

Section FieldWriters.
Context `{Rs41Header} `{Rs41Views} `{Collaborators}.

Ltac update_cases :=
  unfold updateSondeData;
  repeat match goal with
  | |- context [if ?x =? ?y then _ else _] => destruct (Z.eqb_spec x y); [try contradiction|]
  | |- context [let '(_, _) := ecef_to_lla ?x ?y ?z in _] =>
      destruct (ecef_to_lla x y z) as [[? ?] ?]
  | |- context [let '(_, _) := ecef_to_spd_hdg ?a ?b ?c ?d ?e in _] =>
      destruct (ecef_to_spd_hdg a b c d e) as [[? ?] ?]
  end; try reflexivity.

(** A field that only subframes of type [type] write is kept by a run of
    subframes of other types. *)
Lemma foldl_update_field {A : Type} (field : SondeData -> A) (type : Z) :
  (forall d s, subframe_type s <> type ->
     field (m_sondeData (updateSondeData d s)) = field (m_sondeData d)) ->
  forall subframes d,
    Forall (fun s => subframe_type s <> type) subframes ->
    field (m_sondeData (foldl updateSondeData d subframes)) = field (m_sondeData d).
Proof.
  intros Hstep subframes d Hs. revert d.
  induction Hs as [|s l Hs Hl IH]; intros d; cbn; [reflexivity|].
  rewrite IH. apply Hstep, Hs.
Qed.

Lemma position_writer d s :
  subframe_type s <> RS41_SFTYPE_GPSPOS ->
  (fun i => (lat i, lon i, alt i, spd i, hdg i, climb i)) (m_sondeData (updateSondeData d s))
  = (fun i => (lat i, lon i, alt i, spd i, hdg i, climb i)) (m_sondeData d).
Proof. intros Hty. update_cases. Qed.

Lemma time_writer d s :
  subframe_type s <> RS41_SFTYPE_GPSINFO ->
  time (m_sondeData (updateSondeData d s)) = time (m_sondeData d).
Proof. intros Hty. update_cases. Qed.

Lemma ptu_writer d s :
  subframe_type s <> RS41_SFTYPE_PTU ->
  (fun i => (info_temp i, info_rh i, info_dewpt i)) (m_sondeData (updateSondeData d s))
  = (fun i => (info_temp i, info_rh i, info_dewpt i)) (m_sondeData d).
Proof. intros Hty. update_cases. Qed.

Lemma xdata_writer d s :
  subframe_type s <> RS41_SFTYPE_XDATA ->
  auxData (m_sondeData (updateSondeData d s)) = auxData (m_sondeData d).
Proof. intros Hty. update_cases. Qed.

Lemma status_writer d s :
  subframe_type s <> RS41_SFTYPE_INFO ->
  (fun i => (calibrated i, serial i, burstkill i, seq i)) (m_sondeData (updateSondeData d s))
  = (fun i => (calibrated i, serial i, burstkill i, seq i)) (m_sondeData d).
Proof. intros Hty. update_cases. Qed.

(** X17. Every field of the record but the pressure has one subframe type
    that writes it: over a frame, the position and velocity fields change
    only if a GPS position subframe is applied, the time only with a GPS
    info subframe, temperature, humidity and dew point only with a PTU
    subframe, the auxiliary data only with an XDATA subframe, and the
    calibrated flag, serial, burst-kill timer and sequence number only with a
    status subframe. *)
Theorem X17_each_field_has_one_writer
  (stack : list Z) (d : RS41Decoder) (raw : list Z) :
  rs_ready d ->
  Z.of_nat (length raw) = sizeof_RS41Frame ->
  exists d' out,
    run_frame stack d raw = Some (d', out) /\
    let applied := applied_subframes (corrected_frame d stack raw) in
    let old := m_sondeData d in
    let none_of type := Forall (fun s => subframe_type s <> type) applied in
    (none_of RS41_SFTYPE_GPSPOS ->
       (lat out, lon out, alt out, spd out, hdg out, climb out)
       = (lat old, lon old, alt old, spd old, hdg old, climb old)) /\
    (none_of RS41_SFTYPE_GPSINFO -> time out = time old) /\
    (none_of RS41_SFTYPE_PTU ->
       (info_temp out, info_rh out, info_dewpt out)
       = (info_temp old, info_rh old, info_dewpt old)) /\
    (none_of RS41_SFTYPE_XDATA -> auxData out = auxData old) /\
    (none_of RS41_SFTYPE_INFO ->
       (calibrated out, serial out, burstkill out, seq out)
       = (calibrated old, serial old, burstkill old, seq old)).
Proof.
  intros Hrs Hlen.
  destruct (run_frame_applied stack d raw Hrs Hlen) as [E _]. cbn zeta in E.
  eexists _, _. split; [exact E|]. cbn zeta.
  repeat split; intros Hno.
  - exact (foldl_update_field _ _ position_writer _ d Hno).
  - exact (foldl_update_field _ _ time_writer _ d Hno).
  - exact (foldl_update_field _ _ ptu_writer _ d Hno).
  - exact (foldl_update_field _ _ xdata_writer _ d Hno).
  - exact (foldl_update_field _ _ status_writer _ d Hno).
Qed.
End FieldWriters.

(** ** The theorems on sample inputs *)

Lemma Forall_check {A : Type} (P : A -> Prop) (f : A -> bool) (l : list A) :
  (forall x, f x = true -> P x) -> forallb f l = true -> Forall P l.
Proof.
  intros Hf Hall. apply Forall_forall. intros x Hx. apply Hf.
  rewrite forallb_forall in Hall. apply Hall, list_elem_of_In, Hx.
Qed.

Lemma init_rs_ready `{Rs41Header} blank : rs_ready (init None blank).
Proof. intros codec E. discriminate E. Qed.

Lemma X1_run_one_record_per_whole_frame_witness :
  (exists d' outs,
     run_read (H := rs41) (H0 := sample_views) (H1 := sample_collaborators)
       (replicate 255 0) (init (H := rs41) None blank_sonde) 1136 sample_read_buffer
     = Some (d', 1136 / 518, outs) /\
     Z.of_nat (length outs) = 1136 / 518) /\
  (forall c, c < 0 ->
     run_read (H := rs41) (H0 := sample_views) (H1 := sample_collaborators)
       (replicate 255 0) (init (H := rs41) None blank_sonde) c sample_read_buffer
     = Some (init (H := rs41) None blank_sonde, -1, [])).
Proof.
  apply (X1_run_one_record_per_whole_frame (H := rs41) (H0 := sample_views)
           (H1 := sample_collaborators) (replicate 255 0)
           (init (H := rs41) None blank_sonde) 1136 sample_read_buffer).
  - reflexivity.
  - apply init_rs_ready.
  - vm_compute. split; discriminate.
Defined.

Lemma X3_calibrated_stays_up_witness :
  exists d' outs,
    run (H := rs41) (H0 := sample_views) (H1 := sample_collaborators) (replicate 255 0)
      (foldl (updateCalibData (H := rs41)) (init (H := rs41) None blank_sonde) shuffled_fragments)
      [on_air sample_status_frame; on_air sample_payload_frame]
    = Some (d', outs) /\
    length outs = 2%nat /\
    m_calibrated d' = true /\
    buffers_sized (H := rs41) d'.
Proof.
  apply (X3_calibrated_stays_up (H := rs41) (H0 := sample_views) (H1 := sample_collaborators)
           (replicate 255 0)
           (foldl (updateCalibData (H := rs41)) (init (H := rs41) None blank_sonde)
                  shuffled_fragments)
           [on_air sample_status_frame; on_air sample_payload_frame]).
  - intros codec E. vm_compute in E. discriminate E.
  - split; vm_compute; reflexivity.
  - apply Forall_cons_2; [|apply Forall_cons_2; [|apply Forall_nil_2]]; vm_compute; reflexivity.
  - assert (Hcheck : forall frame,
              forallb (fun s => negb (subframe_type s =? 0x79)
                                || ((0 <=? frag_seq (as_status (Rs41Views := sample_views) s))
                                    && (frag_seq (as_status (Rs41Views := sample_views) s) <? 51)))
                      (applied_subframes (H := rs41) frame) = true ->
              fragments_in_bounds (H := rs41) (H0 := sample_views) frame).
    { intros frame. apply Forall_check. intros s Hs Hty.
      change (subframe_type s = 0x79) in Hty. rewrite Hty in Hs.
      change (negb (0x79 =? 0x79)) with false in Hs. rewrite orb_false_l in Hs.
      unfold fragment_in_bounds, frag_offset.
      change RS41_CALIB_FRAGSIZE with 16. change sizeof_RS41Calibration with 816.
      change sizeof_calibDataBitmap with 7.
      set (k := frag_seq (as_status s)) in *.
      apply andb_true_iff in Hs. destruct Hs as [Hlo Hhi].
      apply Z.leb_le in Hlo. apply Z.ltb_lt in Hhi.
      pose proof (Z.quot_pos k 8 Hlo ltac:(lia)).
      assert (k ÷ 8 < 7) by (apply Z.quot_lt_upper_bound; lia).
      lia. }
    apply Forall_cons_2; [|apply Forall_cons_2; [|apply Forall_nil_2]];
      apply Hcheck; vm_compute; reflexivity.
  - vm_compute. reflexivity.
Defined.

Lemma X4_unhandled_types_change_nothing_witness :
  run_frame (H := rs41) (H0 := sample_views) (H1 := sample_collaborators) (replicate 255 0)
    (init (H := rs41) None blank_sonde) (on_air sample_idle_frame)
  = Some (init (H := rs41) None blank_sonde, blank_sonde).
Proof.
  apply (X4_unhandled_types_change_nothing (H := rs41) (H0 := sample_views)
           (H1 := sample_collaborators) (replicate 255 0)
           (init (H := rs41) None blank_sonde) (on_air sample_idle_frame)).
  - apply init_rs_ready.
  - vm_compute. reflexivity.
  - apply (Forall_check _ (fun s => negb (handled_type (H := rs41) (subframe_type s)))).
    + intros s. apply negb_true_iff.
    + vm_compute. reflexivity.
Defined.

Lemma X5_calibration_changes_only_by_status_witness :
  exists d' out,
    run_frame (H := rs41) (H0 := sample_views) (H1 := sample_collaborators) (replicate 255 0)
      (init (H := rs41) None blank_sonde) (on_air sample_payload_frame) = Some (d', out) /\
    m_calibrated d' = false /\
    m_calibData d' = m_calibData (init (H := rs41) None blank_sonde) /\
    m_calibDataBitmap d' = fresh_bitmap (H := rs41).
Proof.
  apply (X5_calibration_changes_only_by_status (H := rs41) (H0 := sample_views)
           (H1 := sample_collaborators) (replicate 255 0)
           (init (H := rs41) None blank_sonde) (on_air sample_payload_frame)).
  - apply init_rs_ready.
  - vm_compute. reflexivity.
  - apply (Forall_check _ (fun s => negb (subframe_type s =? 0x79))).
    + intros s Hs. apply negb_true_iff, Z.eqb_neq in Hs. exact Hs.
    + vm_compute. reflexivity.
Defined.

Lemma X6_subframes_fit_in_payload_witness :
  foldr (fun s acc => subframe_size s + acc) 0 (in_bounds_subframes (H := rs41) sample_payload_frame)
    <= Z.max 0 (bytesLeft (H := rs41) sample_payload_frame) /\
  4 * Z.of_nat (length (in_bounds_subframes (H := rs41) sample_payload_frame))
    <= Z.max 0 (bytesLeft (H := rs41) sample_payload_frame) /\
  Forall (fun s => 4 <= subframe_size s <= 259) (in_bounds_subframes (H := rs41) sample_payload_frame).
Proof.
  apply (X6_subframes_fit_in_payload (H := rs41) sample_payload_frame).
  apply Forall_is_byte. vm_compute. reflexivity.
Defined.

Lemma X7_table_holds_last_fragment_witness :
  rd (m_calibData (foldl (updateCalibData (H := rs41)) (init (H := rs41) None blank_sonde)
                         (shuffled_fragments ++ [sample_status 7])))
     (7 * 16 + 3)
  = match last_fragment (shuffled_fragments ++ [sample_status 7]) 7 with
    | Some data => rd data 3
    | None => rd (m_calibData (init (H := rs41) None blank_sonde)) (7 * 16 + 3)
    end.
Proof.
  apply (X7_table_holds_last_fragment (H := rs41) (init (H := rs41) None blank_sonde)
           (shuffled_fragments ++ [sample_status 7]) 7 3).
  - apply (Forall_check _ (fun s => (0 <=? frag_seq s) && ((frag_seq s + 1) * 16 <=? 816))).
    + intros s Hs. apply andb_true_iff in Hs. destruct Hs as [Ha Hb].
      apply Z.leb_le in Ha, Hb. split; [exact Ha|exact Hb].
    + vm_compute. reflexivity.
  - lia.
  - vm_compute. split; [discriminate|reflexivity].
Defined.

Lemma X8_fragment_twice_is_once_witness :
  updateCalibData (H := rs41)
    (updateCalibData (H := rs41) (init (H := rs41) None blank_sonde) (sample_status 5))
    (sample_status 5)
  = updateCalibData (H := rs41) (init (H := rs41) None blank_sonde) (sample_status 5).
Proof.
  apply (X8_fragment_twice_is_once (H := rs41) (init (H := rs41) None blank_sonde)
           (sample_status 5)).
  - vm_compute. discriminate.
  - split; vm_compute; discriminate.
Defined.

Lemma X9_setInput_restarts_assembly_witness :
  m_calibrated (setInput (H := rs41) blank_sonde
                  (foldl (updateCalibData (H := rs41)) (init (H := rs41) None blank_sonde)
                         shuffled_fragments)) = false /\
  m_calibrated (calibration_after (H := rs41)
                  (setInput (H := rs41) blank_sonde
                     (foldl (updateCalibData (H := rs41)) (init (H := rs41) None blank_sonde)
                            shuffled_fragments))
                  shuffled_fragments 50) = false.
Proof.
  destruct (X9_setInput_restarts_assembly (H := rs41) blank_sonde
              (foldl (updateCalibData (H := rs41)) (init (H := rs41) None blank_sonde)
                     shuffled_fragments)
              shuffled_fragments 50) as (Hflag & _ & Hall).
  - split; vm_compute; intuition congruence.
  - apply Forall_frag_seq_check. vm_compute. reflexivity.
  - split; [exact Hflag|].
    destruct (m_calibrated (calibration_after _ _ _)) eqn:E; [|reflexivity].
    pose proof (proj1 Hall eq_refl) as Hevery.
    exfalso.
    assert (Hin : ~ ((7 * 50) mod 51 ∈ frag_seq <$> take 50 shuffled_fragments)).
    { refine (bool_decide_unpack _ _). vm_compute. exact I. }
    apply Hin, Hevery. vm_compute. split; [discriminate|reflexivity].
Defined.

Lemma X10_fresh_bitmap_marks_the_fragments_witness :
  fragment_missing (fresh_bitmap (H := rs41)) 50 = true /\
  fragment_missing (fresh_bitmap (H := rs41)) 51 = false.
Proof.
  split.
  - apply (X10_fresh_bitmap_marks_the_fragments (H := rs41) 50).
    + split; vm_compute; intuition congruence.
    + vm_compute. split; [discriminate|reflexivity].
    + reflexivity.
  - destruct (X10_fresh_bitmap_marks_the_fragments (H := rs41) 51) as (_ & _ & Hbit).
    + split; vm_compute; intuition congruence.
    + vm_compute. split; [discriminate|reflexivity].
    + destruct (fragment_missing _ 51) eqn:E; [|reflexivity].
      pose proof (proj1 Hbit eq_refl) as Hlt. vm_compute in Hlt. discriminate Hlt.
Defined.

Lemma X11_channel_is_little_endian_witness :
  adc_count [0x45; 0x23; 0x01] = 0x45 + 256 * 0x23 + 65536 * 0x01 /\
  0 <= adc_count [0x45; 0x23; 0x01] < 2 ^ 24 /\
  (adc [0x45; 0x23; 0x01] = adc [7; 1; 0] -> adc_count [0x45; 0x23; 0x01] = adc_count [7; 1; 0]).
Proof.
  apply (X11_channel_is_little_endian [0x45; 0x23; 0x01] [7; 1; 0]);
    apply Forall_is_byte; vm_compute; reflexivity.
Defined.

Lemma X12_temp_guard_is_equal_references_witness :
  fis_zero (adc (temp_ref2 sample_ptu) - adc (temp_ref1 sample_ptu))%F = false /\
  temp unit_calibration sample_ptu = float_of_Z 34.
Proof.
  destruct (X12_temp_guard_is_equal_references unit_calibration sample_ptu) as [Hguard Hvalue].
  - apply Forall_is_byte. vm_compute. reflexivity.
  - apply Forall_is_byte. vm_compute. reflexivity.
  - split.
    + destruct (fis_zero _) eqn:E; [|reflexivity].
      pose proof (proj1 Hguard eq_refl) as Heq. vm_compute in Heq. discriminate Heq.
    + rewrite Hvalue by (vm_compute; discriminate). vm_compute. reflexivity.
Defined.

Lemma X13_rh_is_nan_or_a_percentage_witness :
  rh (H0 := sample_collaborators) unit_calibration sample_ptu = NAN.
Proof.
  destruct (X13_rh_is_nan_or_a_percentage (H := sample_collaborators) unit_calibration sample_ptu)
    as (Hnan & _).
  - apply Forall_is_byte. vm_compute. reflexivity.
  - apply Forall_is_byte. vm_compute. reflexivity.
  - apply Hnan. vm_compute. reflexivity.
Defined.

Lemma X14_rsCorrect_leaves_the_rest_witness :
  length (fst (rsCorrect (H := rs41) clearing_codec (replicate 255 7) sample_frame))
  = length sample_frame /\
  rd (fst (rsCorrect (H := rs41) clearing_codec (replicate 255 7) sample_frame)) 320
  = rd sample_frame 320.
Proof.
  apply (X14_rsCorrect_leaves_the_rest (H := rs41) clearing_codec (replicate 255 7)
           sample_frame 320).
  - exact rs41_layout_ok.
  - reflexivity.
  - reflexivity.
  - intros blk. apply length_wr.
  - right. right. vm_compute. discriminate.
Defined.

Lemma X15_rsCorrect_without_corrections_witness :
  fst (rsCorrect (H := rs41) failing_codec (replicate 255 7) sample_frame) = sample_frame.
Proof.
  apply (X15_rsCorrect_without_corrections (H := rs41) failing_codec (replicate 255 7)
           sample_frame).
  - exact rs41_layout_ok.
  - reflexivity.
  - reflexivity.
  - intros blk. reflexivity.
Defined.

Lemma X16_descramble_is_one_to_one_witness :
  on_air sample_payload_frame = on_air (descramble (H := rs41) (on_air sample_payload_frame)).
Proof.
  apply (X16_descramble_is_one_to_one (H := rs41) (on_air sample_payload_frame)
           (on_air (descramble (H := rs41) (on_air sample_payload_frame)))).
  - vm_compute. reflexivity.
  - vm_compute. reflexivity.
  - apply Forall_is_byte. vm_compute. reflexivity.
  - apply Forall_is_byte. vm_compute. reflexivity.
  - vm_compute. reflexivity.
Defined.

Lemma X17_each_field_has_one_writer_witness :
  exists d' out,
    run_frame (H := rs41) (H0 := sample_views) (H1 := sample_collaborators) (replicate 255 0)
      (init (H := rs41) None blank_sonde) (on_air sample_payload_frame) = Some (d', out) /\
    (info_temp out, info_rh out, info_dewpt out)
    = (info_temp blank_sonde, info_rh blank_sonde, info_dewpt blank_sonde) /\
    auxData out = auxData blank_sonde /\
    (calibrated out, serial out, burstkill out, seq out)
    = (calibrated blank_sonde, serial blank_sonde, burstkill blank_sonde, seq blank_sonde).
Proof.
  destruct (X17_each_field_has_one_writer (H := rs41) (H0 := sample_views)
              (H1 := sample_collaborators) (replicate 255 0)
              (init (H := rs41) None blank_sonde) (on_air sample_payload_frame))
    as (d' & out & E & _ & _ & Hptu & Hxdata & Hinfo).
  - apply init_rs_ready.
  - vm_compute. reflexivity.
  - exists d', out. split; [exact E|].
    assert (Hno : forall type,
              forallb (fun s => negb (subframe_type s =? type))
                (applied_subframes (H := rs41)
                   (corrected_frame (H := rs41) (init (H := rs41) None blank_sonde)
                      (replicate 255 0) (on_air sample_payload_frame))) = true ->
              Forall (fun s => subframe_type s <> type)
                (applied_subframes (H := rs41)
                   (corrected_frame (H := rs41) (init (H := rs41) None blank_sonde)
                      (replicate 255 0) (on_air sample_payload_frame)))).
    { intros type. apply Forall_check.
      intros s Hs. apply negb_true_iff, Z.eqb_neq in Hs. exact Hs. }
    split; [apply Hptu, Hno; vm_compute; reflexivity|].
    split; [apply Hxdata, Hno|apply Hinfo, Hno]; vm_compute; reflexivity.
Defined.

(** * Degenerate references *)

(** ** NaN in the arithmetic *)

Lemma fadd_nan_l x : (NAN + x)%F = NAN.
Proof. reflexivity. Qed.

Lemma fadd_nan_r x : (x + NAN)%F = NAN.
Proof. destruct x; reflexivity. Qed.

Lemma fsub_nan_l x : (NAN - x)%F = NAN.
Proof. reflexivity. Qed.

Lemma fmul_nan_l x : (NAN * x)%F = NAN.
Proof. reflexivity. Qed.

Lemma fmul_nan_r x : (x * NAN)%F = NAN.
Proof. destruct x; reflexivity. Qed.

Lemma fdiv_nan_l x : (NAN / x)%F = NAN.
Proof. reflexivity. Qed.

(** The correction loop at NaN gives NaN, whatever the coefficients. *)
Lemma calib_loop_nan coeff : calib_loop coeff NAN = NAN.
Proof.
  unfold calib_loop.
  change (reverse (seqZ 1 6)) with [6; 5; 4; 3; 2; 1].
  cbn [foldl]. rewrite !fmul_nan_r, !fadd_nan_l. reflexivity.
Qed.

(** The surface of [rh] at a NaN temperature is NaN: from [j = 1] on every
    term of the inner sum has the factor [f2 = NaN]. *)
Lemma rh_surface_nan calib c_cal : rh_surface calib c_cal NAN = NAN.
Proof.
  unfold rh_surface.
  change (seqZ 0 7) with ([0; 1; 2; 3; 4; 5] ++ [6]).
  rewrite foldl_app.
  match goal with
  | |- context [foldl ?step (float_of_Z 0, float_of_Z 1) [0; 1; 2; 3; 4; 5]] =>
      generalize (foldl step (float_of_Z 0, float_of_Z 1) [0; 1; 2; 3; 4; 5])
  end.
  intros [rh_uncal f1].
  change (seqZ 0 6) with [0; 1; 2; 3; 4; 5]. cbn [foldl fst].
  rewrite !fmul_nan_r, !fmul_nan_l, !fadd_nan_r. reflexivity.
Qed.

(** A NaN of [rh_temp] does not come out of [rh]: when the humidity
    references differ, the clamp at the end of [rh] turns it into 100. *)
Lemma rh_of_nan_rh_temp `{Collaborators} calib ptu :
  fis_zero (adc (humidity_ref2 ptu) - adc (humidity_ref1 ptu))%F = false ->
  rh_temp calib ptu = NAN ->
  rh calib ptu = float_of_Z 100.
Proof.
  intros Hspan Hnan. unfold rh. rewrite Hspan, Hnan.
  rewrite calib_loop_nan, fadd_nan_l, fsub_nan_l, fdiv_nan_l, rh_surface_nan.
  rewrite fmul_nan_l, fdiv_nan_l. vm_compute. reflexivity.
Qed.

(** C6. Equal reference channels make [temp], [rh_temp] and [rh] return NaN,
    each on its own channels, and [rh_temp] also returns NaN when a reference
    resistance of the table is zero.  [run] ends on the frame and hands the
    record to the handler with the NaN of [temp] in the temperature field and
    the NaN of [rh] in the humidity field.  The NaN of [rh_temp] reaches no
    field: its only reader is [rh], and when the humidity references differ
    [rh] gives 100 for it, which is what the handler finds in the humidity
    field. *)
Theorem C6_nan_of_rh_temp_is_clamped
  `{Rs41Header} `{Rs41Views} `{Collaborators}
  (calib : RS41Calibration) (ptu : RS41Subframe_PTU)
  (stack : list Z) (d : RS41Decoder) (raw : list Z)
  (before after : list RS41Subframe) (subframe : RS41Subframe) :
  sftypes_distinct ->
  ptu_bytes ptu ->
  rs_ready d ->
  Z.of_nat (length raw) = sizeof_RS41Frame ->
  applied_subframes (corrected_frame d stack raw) = before ++ subframe :: after ->
  subframe_type subframe = RS41_SFTYPE_PTU ->
  ptu_bytes (as_ptu subframe) ->
  Forall (fun s => subframe_type s <> RS41_SFTYPE_PTU) after ->
  ((adc_count (temp_ref1 ptu) = adc_count (temp_ref2 ptu) -> temp calib ptu = NAN) /\
   (adc_count (temp_humidity_ref1 ptu) = adc_count (temp_humidity_ref2 ptu) ->
      rh_temp calib ptu = NAN) /\
   (adc_count (humidity_ref1 ptu) = adc_count (humidity_ref2 ptu) -> rh calib ptu = NAN) /\
   (fis_zero (fnth (t_ref calib) 0) = true \/ fis_zero (fnth (t_ref calib) 1) = true ->
      rh_temp calib ptu = NAN) /\
   (adc_count (humidity_ref1 ptu) <> adc_count (humidity_ref2 ptu) ->
      rh_temp calib ptu = NAN -> rh calib ptu = float_of_Z 100)) /\
  exists d' out,
    run_frame stack d raw = Some (d', out) /\
    out = m_sondeData d' /\
    let seen := as_ptu subframe in
    let table := as_calibration (m_calibData (foldl updateSondeData d before)) in
    (adc_count (temp_ref1 seen) = adc_count (temp_ref2 seen) -> info_temp out = NAN) /\
    (adc_count (humidity_ref1 seen) = adc_count (humidity_ref2 seen) -> info_rh out = NAN) /\
    (adc_count (humidity_ref1 seen) <> adc_count (humidity_ref2 seen) ->
       rh_temp table seen = NAN ->
       info_rh out = float_of_Z 100 /\ info_rh out <> NAN).
Proof.
  intros Hd Hp Hrs Hlen Happ Hty Hp' Hafter.
  assert (Hch : forall p, ptu_bytes p ->
    Forall is_byte (temp_ref1 p) /\ Forall is_byte (temp_ref2 p) /\
    Forall is_byte (humidity_ref1 p) /\ Forall is_byte (humidity_ref2 p) /\
    Forall is_byte (temp_humidity_ref1 p) /\ Forall is_byte (temp_humidity_ref2 p)).
  { intros p Hb. unfold ptu_bytes in Hb. rewrite !Forall_cons in Hb. tauto. }
  assert (Htemp : forall c p, ptu_bytes p ->
    adc_count (temp_ref1 p) = adc_count (temp_ref2 p) -> temp c p = NAN).
  { intros c p Hb E. destruct (Hch p Hb) as (B1 & B2 & _).
    unfold temp. rewrite (equal_channels_zero_span _ _ B1 B2 E). reflexivity. }
  assert (Hrh : forall c p, ptu_bytes p ->
    adc_count (humidity_ref1 p) = adc_count (humidity_ref2 p) -> rh c p = NAN).
  { intros c p Hb E. destruct (Hch p Hb) as (_ & _ & B1 & B2 & _).
    unfold rh. rewrite (equal_channels_zero_span _ _ B1 B2 E). reflexivity. }
  assert (Hclamp : forall c p, ptu_bytes p ->
    adc_count (humidity_ref1 p) <> adc_count (humidity_ref2 p) ->
    rh_temp c p = NAN -> rh c p = float_of_Z 100).
  { intros c p Hb Hne Hnan. destruct (Hch p Hb) as (_ & _ & B1 & B2 & _).
    apply rh_of_nan_rh_temp; [|exact Hnan].
    apply not_true_is_false. intros E. apply Hne.
    apply (proj1 (span_zero_iff (adc_count (humidity_ref1 p)) (adc_count (humidity_ref2 p))
                    (adc_count_range _ B1) (adc_count_range _ B2))), E. }
  split.
  { split; [apply Htemp, Hp|]. split.
    { intros E. destruct (Hch ptu Hp) as (_ & _ & _ & _ & B1 & B2).
      unfold rh_temp. rewrite (equal_channels_zero_span _ _ B1 B2 E). reflexivity. }
    split; [apply Hrh, Hp|]. split; [|apply Hclamp, Hp].
    intros Hz. unfold rh_temp.
    destruct (fis_zero (_ - _)%F); [reflexivity|].
    destruct Hz as [-> | ->]; [reflexivity|]. rewrite orb_true_r. reflexivity. }
  destruct (run_frame_applied stack d raw Hrs Hlen) as [E _]. cbn zeta in E.
  rewrite Happ, foldl_app in E. cbn [foldl] in E.
  eexists _, _. split; [exact E|]. split; [reflexivity|]. cbn zeta.
  pose proof (foldl_update_field (fun i => (info_temp i, info_rh i, info_dewpt i))
                RS41_SFTYPE_PTU ptu_writer after
                (updateSondeData (foldl updateSondeData d before) subframe) Hafter) as Hkeep.
  cbn beta in Hkeep. injection Hkeep as Kt Kr _.
  destruct (updateSondeData_ptu (foldl updateSondeData d before) subframe Hd Hty)
    as (Et & Er & _). cbn zeta in Et, Er.
  rewrite Kt, Kr, Et, Er.
  split; [intros Eq; apply Htemp; assumption|].
  split; [intros Eq; apply Hrh; assumption|].
  intros Hne Hnan. rewrite (Hclamp _ _ Hp' Hne Hnan).
  split; [reflexivity|]. vm_compute. discriminate.
Qed.

Lemma C6_nan_of_rh_temp_is_clamped_witness :
  rh_temp unit_calibration sample_ptu = NAN /\
  exists d' out,
    run_frame (H := rs41) (H0 := sample_views) (H1 := sample_collaborators) (replicate 255 0)
      (init (H := rs41) None blank_sonde) (on_air sample_degenerate_frame) = Some (d', out) /\
    info_temp out = NAN /\
    info_rh out = float_of_Z 100.
Proof.
  destruct (C6_nan_of_rh_temp_is_clamped (H := rs41) (H0 := sample_views)
              (H1 := sample_collaborators) unit_calibration sample_ptu (replicate 255 0)
              (init (H := rs41) None blank_sonde) (on_air sample_degenerate_frame)
              [subframe_at (H := rs41) sample_degenerate_frame 0]
              [subframe_at (H := rs41) sample_degenerate_frame 41]
              (subframe_at (H := rs41) sample_degenerate_frame 10))
    as ((_ & _ & _ & Hzero & _) & d' & out & E & _ & Ht & _ & Hlost).
  - exact rs41_sftypes_distinct.
  - apply ptu_bytes_check. vm_compute. reflexivity.
  - apply init_rs_ready.
  - vm_compute. reflexivity.
  - vm_compute. reflexivity.
  - reflexivity.
  - apply ptu_bytes_check. vm_compute. reflexivity.
  - apply Forall_cons_2; [vm_compute; discriminate|apply Forall_nil_2].
  - split; [apply Hzero; left; vm_compute; reflexivity|].
    exists d', out. split; [exact E|]. split.
    + apply Ht. vm_compute. reflexivity.
    + apply Hlost; [vm_compute; discriminate|vm_compute; reflexivity].
Defined.
